(** * CodeCraft static site generator: content pipeline

    A shallow embedding of the content transformation pipeline of
    [publish.py] / [codecraft.py] (both files carry the same pipeline
    functions), with the properties of the specification stated and
    proved over it.

    Conventions of the embedding:
    - a Python [str] is a [string]; characters are 8-bit, and the regular
      expression classes [\d] and [\w] are taken over the ASCII range;
    - a Python [dict] is an insertion-ordered association list with unique
      keys ([PyDict]); iteration order is insertion order;
    - the external services (Markdown conversion, Pygments, Jinja
      templates) are parameters of the sections that use them;
    - code that mutates an object is written in state-passing style;
      [apply_defaults], whose contract is about object identity, runs on
      an explicit heap of dict objects. *)

From Stdlib Require Import String Ascii List Bool Arith NArith Lia.
From Stdlib Require Import DecimalString Sorted Permutation.
From stdpp Require Import base list option.
Import ListNotations.
Open Scope string_scope.

(** * Python string primitives *)

Module PyStr.

Definition nl : string := String "010"%char EmptyString.
Definition dq : string := String "034"%char EmptyString.

Fixpoint drop (n : nat) (s : string) : string :=
  match n, s with
  | S k, String _ s' => drop k s'
  | _, _ => s
  end.

(** [p in s] *)
Fixpoint contains (p s : string) : bool :=
  match s with
  | EmptyString => String.prefix p EmptyString
  | String _ s' => String.prefix p s || contains p s'
  end.

(** Left-to-right scan of [s.replace(old, new)] for a non-empty [old]:
    [skip] counts the characters of the current match still to be
    consumed. *)
Fixpoint replace_go (old new : string) (skip : nat) (s : string) : string :=
  match s with
  | EmptyString => EmptyString
  | String c s' =>
      match skip with
      | S k => replace_go old new k s'
      | O =>
          if String.prefix old s
          then new ++ replace_go old new (String.length old - 1) s'
          else String c (replace_go old new 0 s')
      end
  end.

(** [s.replace('', new)] puts [new] before every character and at the
    end. *)
Fixpoint interleave (new s : string) : string :=
  match s with
  | EmptyString => new
  | String c s' => new ++ String c (interleave new s')
  end.

Definition replace (old new s : string) : string :=
  match old with
  | EmptyString => interleave new s
  | String _ _ => replace_go old new 0 s
  end.

(** [s.count(p)] for a non-empty [p]: non-overlapping occurrences. *)
Fixpoint count_go (p : string) (skip : nat) (s : string) : nat :=
  match s with
  | EmptyString => 0
  | String _ s' =>
      match skip with
      | S k => count_go p k s'
      | O =>
          if String.prefix p s
          then S (count_go p (String.length p - 1) s')
          else count_go p 0 s'
      end
  end.

Definition count (p s : string) : nat :=
  match p with
  | EmptyString => S (String.length s)
  | String _ _ => count_go p 0 s
  end.

Fixpoint lstrip (c : ascii) (s : string) : string :=
  match s with
  | EmptyString => EmptyString
  | String a s' => if Ascii.eqb a c then lstrip c s' else s
  end.

Fixpoint rstrip (c : ascii) (s : string) : string :=
  match s with
  | EmptyString => EmptyString
  | String a s' =>
      let r := rstrip c s' in
      if Ascii.eqb a c && String.eqb r EmptyString
      then EmptyString else String a r
  end.

(** [s.strip(c)] for a one-character argument *)
Definition strip (c : ascii) (s : string) : string := rstrip c (lstrip c s).

(** [s.split(c)] for a one-character separator; never the empty list *)
Fixpoint split (c : ascii) (s : string) : list string :=
  match s with
  | EmptyString => [EmptyString]
  | String a s' =>
      if Ascii.eqb a c then EmptyString :: split c s'
      else match split c s' with
           | x :: xs => String a x :: xs
           | [] => [String a EmptyString]
           end
  end.

(** [str(n)] *)
Definition of_nat (n : nat) : string := NilZero.string_of_uint (Nat.to_uint n).

(** Longest prefix of [s] whose characters satisfy [p], and the rest *)
Fixpoint span (p : ascii -> bool) (s : string) : string * string :=
  match s with
  | EmptyString => (EmptyString, EmptyString)
  | String c s' =>
      if p c then let (w, r) := span p s' in (String c w, r)
      else (EmptyString, s)
  end.

(** Shortest [body] such that [s = body ++ p ++ _]: what a non-greedy
    [(.*?)] followed by the literal [p] captures under [DOTALL]. *)
Fixpoint until (p s : string) : option string :=
  if String.prefix p s then Some EmptyString
  else match s with
       | EmptyString => None
       | String c s' => option_map (String c) (until p s')
       end.

Definition is_digit (c : ascii) : bool :=
  let n := nat_of_ascii c in ((48 <=? n) && (n <=? 57))%nat.

Definition is_word (c : ascii) : bool :=
  let n := nat_of_ascii c in
  (((48 <=? n) && (n <=? 57)) || ((65 <=? n) && (n <=? 90))
   || ((97 <=? n) && (n <=? 122)) || (n =? 95))%nat.

End PyStr.

(** * Python dictionaries: insertion-ordered, unique keys *)

Module PyDict.

Abbreviation dict V := (list (string * V)).

Fixpoint get {V} (d : dict V) (k : string) : option V :=
  match d with
  | [] => None
  | (k', v) :: d' => if String.eqb k' k then Some v else get d' k
  end.

(** [d[k] = v]: an existing key keeps its position *)
Fixpoint set {V} (d : dict V) (k : string) (v : V) : dict V :=
  match d with
  | [] => [(k, v)]
  | (k', v') :: d' =>
      if String.eqb k' k then (k', v) :: d' else (k', v') :: set d' k v
  end.

(** [d.get(k, dflt)] *)
Definition get_default {V} (d : dict V) (k : string) (dflt : V) : V :=
  match get d k with Some v => v | None => dflt end.

(** [d.update(other)] *)
Definition update {V} (d other : dict V) : dict V :=
  fold_left (fun acc kv => set acc (fst kv) (snd kv)) other d.

End PyDict.

(** * Regular-expression substitution

    [re.sub(pattern, callback, text)] scans [text] left to right; at each
    position the pattern is tried, a match is handed to the callback and
    the scan resumes after it.  A matcher returns the captured groups and
    the length of the match, which is positive for the patterns of the
    pipeline. *)

Section Regex.
Context {G : Type}.
Variable m : string -> option (G * nat).

Inductive piece : Type :=
| Lit (c : ascii)
| Hit (g : G).

Fixpoint re_scan (skip : nat) (s : string) : list piece :=
  match s with
  | EmptyString => []
  | String c s' =>
      match skip with
      | S k => re_scan k s'
      | O =>
          match m s with
          | Some (g, n) => Hit g :: re_scan (n - 1) s'
          | None => Lit c :: re_scan 0 s'
          end
      end
  end.

(** The callback may mutate state captured by its closure: it is a
    state transformer, run once per match in text order. *)
Fixpoint re_sub_pieces {St} (f : G -> St -> string * St)
         (ps : list piece) (st : St) : string * St :=
  match ps with
  | [] => (EmptyString, st)
  | Lit c :: ps' =>
      let (out, st') := re_sub_pieces f ps' st in (String c out, st')
  | Hit g :: ps' =>
      let (r, st1) := f g st in
      let (out, st2) := re_sub_pieces f ps' st1 in
      (r ++ out, st2)
  end.

Definition re_sub {St} (f : G -> St -> string * St)
           (s : string) (st : St) : string * St :=
  re_sub_pieces f (re_scan 0 s) st.

(** [re.search(pattern, s) is not None] *)
Fixpoint re_search (s : string) : bool :=
  match m s with
  | Some _ => true
  | None => match s with
            | EmptyString => false
            | String _ s' => re_search s'
            end
  end.

(** The matches of a scan, in text order *)
Fixpoint hits_of (ps : list piece) : list G :=
  match ps with
  | [] => []
  | Lit _ :: ps' => hits_of ps'
  | Hit g :: ps' => g :: hits_of ps'
  end.

Definition hits (s : string) : list G := hits_of (re_scan 0 s).

(** The strings the callback returns, in call order *)
Fixpoint re_sub_trace {St} (f : G -> St -> string * St)
         (ps : list piece) (st : St) : list string :=
  match ps with
  | [] => []
  | Lit _ :: ps' => re_sub_trace f ps' st
  | Hit g :: ps' => let (r, st1) := f g st in r :: re_sub_trace f ps' st1
  end.

(** The text in which every match [g] is replaced by [r g] *)
Fixpoint splice (r : G -> string) (ps : list piece) : string :=
  match ps with
  | [] => EmptyString
  | Lit c :: ps' => String c (splice r ps')
  | Hit g :: ps' => r g ++ splice r ps'
  end.

End Regex.

Arguments Lit {G} c.
Arguments Hit {G} g.

(** The unmatched text as pieces *)
Fixpoint lits {G} (s : string) : list (@piece G) :=
  match s with
  | EmptyString => []
  | String c s' => Lit c :: lits s'
  end.

(** * Constants of the pipeline *)

Definition CSS_CLASS_HIGHLIGHT : string := "highlight".
Definition CSS_CLASS_HIGHLIGHTER_ROUGE : string := "highlighter-rouge".
Definition CSS_CLASS_LANGUAGE_PLAINTEXT : string :=
  "language-plaintext highlighter-rouge".
Definition CSS_CLASS_LANGUAGE_MERMAID : string := "language-mermaid".

Definition PLACEHOLDER_POSTS : string := "INCLUDE_POSTS_PLACEHOLDER".
Definition PLACEHOLDER_CATEGORY : string := "INCLUDE_CATEGORY_PLACEHOLDER".
Definition PLACEHOLDER_ARCHIVE : string := "INCLUDE_ARCHIVE_PLACEHOLDER".

Definition fence : string := "```".

(** [PATTERN_EXAMPLE_SHORTCODE = r'\[example:(\d+)\]']: the digits are
    taken greedily and must be followed by the closing bracket. *)
Definition PATTERN_EXAMPLE_SHORTCODE (s : string) : option (string * nat) :=
  if String.prefix "[example:" s then
    let (ds, rest) := PyStr.span PyStr.is_digit (PyStr.drop 9 s) in
    match ds, rest with
    | String _ _, String "]"%char _ => Some (ds, 9 + String.length ds + 1)
    | _, _ => None
    end
  else None.

(** [PATTERN_MERMAID_BLOCK = r'```mermaid\n(.*?)```'] with [re.DOTALL] *)
Definition PATTERN_MERMAID_BLOCK (s : string) : option (string * nat) :=
  if String.prefix (fence ++ "mermaid" ++ PyStr.nl) s then
    match PyStr.until fence (PyStr.drop 11 s) with
    | Some body => Some (body, 11 + String.length body + 3)
    | None => None
    end
  else None.

(** [PATTERN_CODE_BLOCK = r'```(\w+)?\n(.*?)```'] with [re.DOTALL]: the
    optional group takes the whole run of word characters (a shorter run
    is never followed by a newline); it is [None] when the run is empty. *)
Definition PATTERN_CODE_BLOCK (s : string)
  : option ((option string * string) * nat) :=
  if String.prefix fence s then
    let (w, rest) := PyStr.span PyStr.is_word (PyStr.drop 3 s) in
    match rest with
    | String "010"%char rest' =>
        match PyStr.until fence rest' with
        | Some body =>
            Some ((match w with EmptyString => None | _ => Some w end, body),
                  3 + String.length w + 1 + String.length body + 3)
        | None => None
        end
    | _ => None
    end
  else None.

(** [r'<code>(?!</code>)']: an opening inline-code tag not immediately
    followed by its closing tag. *)
Definition PATTERN_INLINE_CODE (s : string) : option (unit * nat) :=
  if String.prefix "<code>" s && negb (String.prefix "</code>" (PyStr.drop 6 s))
  then Some (tt, 6) else None.

(** * Placeholder protection (publish.py, lines 286-371) *)

Definition directives : Type := PyDict.dict string.

Definition INCLUDE_POSTS_TRIM : string := "{%- include posts.html -%}".
Definition INCLUDE_POSTS_PLAIN : string := "{% include posts.html %}".
Definition INCLUDE_CATEGORY_TRIM : string := "{%- include category.html -%}".
Definition INCLUDE_CATEGORY_PLAIN : string := "{% include category.html %}".
Definition INCLUDE_ARCHIVE_TRIM : string := "{%- include archive.html -%}".
Definition INCLUDE_ARCHIVE_PLAIN : string := "{% include archive.html %}".

(** One of the three blocks of [extract_include_directives]. *)
Definition extract_include (trim plain token kind : string)
           (cd : string * directives) : string * directives :=
  let (content, include_directives) := cd in
  if PyStr.contains trim content || PyStr.contains plain content then
    (PyStr.replace plain token (PyStr.replace trim token content),
     PyDict.set include_directives token kind)
  else cd.

Definition extract_include_directives (content : string)
  : string * directives :=
  extract_include INCLUDE_ARCHIVE_TRIM INCLUDE_ARCHIVE_PLAIN
                  PLACEHOLDER_ARCHIVE "archive"
    (extract_include INCLUDE_CATEGORY_TRIM INCLUDE_CATEGORY_PLAIN
                     PLACEHOLDER_CATEGORY "category"
       (extract_include INCLUDE_POSTS_TRIM INCLUDE_POSTS_PLAIN
                        PLACEHOLDER_POSTS "posts"
          (content, []))).

Definition example_placeholder (example_id : string) : string :=
  "EXAMPLE_PLACEHOLDER_" ++ example_id.

(** The closure [replace_example]: it writes into the caller's dict. *)
Definition replace_example (example_id : string) (d : directives)
  : string * directives :=
  let placeholder := example_placeholder example_id in
  (PyStr.nl ++ PyStr.nl ++ placeholder ++ PyStr.nl ++ PyStr.nl,
   PyDict.set d placeholder ("example:" ++ example_id)).

Definition extract_example_shortcodes (content : string) (d : directives)
  : string * directives :=
  re_sub PATTERN_EXAMPLE_SHORTCODE replace_example content d.

Definition mermaid_placeholder (i : nat) : string :=
  "MERMAID_PLACEHOLDER_" ++ PyStr.of_nat i.

(** The closure [save_mermaid]: it appends to the captured list. *)
Definition save_mermaid (body : string) (mermaid_blocks : list string)
  : string * list string :=
  let blocks := (mermaid_blocks ++ [body])%list in
  (PyStr.nl ++ PyStr.nl ++ mermaid_placeholder (length blocks - 1)
            ++ PyStr.nl ++ PyStr.nl,
   blocks).

Definition extract_mermaid_blocks (content : string) : string * list string :=
  re_sub PATTERN_MERMAID_BLOCK save_mermaid content [].

Definition mermaid_open_tag : string :=
  "<pre><code class=" ++ PyStr.dq ++ CSS_CLASS_LANGUAGE_MERMAID ++ PyStr.dq ++ ">".

Definition mermaid_shell (mermaid_content : string) : string :=
  mermaid_open_tag ++ mermaid_content ++ "</code></pre>".

Definition paragraph (token : string) : string := "<p>" ++ token ++ "</p>".

(** The loop over [enumerate(mermaid_blocks)], from index [i] on. *)
Fixpoint restore_mermaid_from (i : nat) (content_html : string)
         (mermaid_blocks : list string) : string :=
  match mermaid_blocks with
  | [] => content_html
  | mermaid_content :: rest =>
      restore_mermaid_from (S i)
        (PyStr.replace (paragraph (mermaid_placeholder i))
                       (mermaid_shell mermaid_content) content_html)
        rest
  end.

Definition restore_mermaid_blocks (content_html : string)
           (mermaid_blocks : list string) : string :=
  restore_mermaid_from 0 content_html mermaid_blocks.

(** * Highlighting and Markdown conversion (lines 374-443)

    Pygments and Python-Markdown are external.  [get_lexer_by_name]
    answers [None] when it raises (an unknown name raises
    [ClassNotFound]); [highlight] answers [None] when formatting raises. *)

Section Services.
Variable Lexer : Type.
Variable get_lexer_by_name : string -> option Lexer.
Variable highlight : string -> Lexer -> option string.
Variable markdown : string -> string.

Definition div_open (cls : string) : string :=
  "<div class=" ++ PyStr.dq ++ cls ++ PyStr.dq ++ ">".

Definition fallback_shell (lang code : string) : string :=
  div_open CSS_CLASS_HIGHLIGHTER_ROUGE ++ div_open CSS_CLASS_HIGHLIGHT
  ++ "<pre><code class=" ++ PyStr.dq ++ "language-" ++ lang ++ PyStr.dq ++ ">"
  ++ code ++ "</code></pre></div></div>".

(** The body of the [try] block: [None] when any of its calls raises. *)
Definition highlight_try (lang code : string) : option string :=
  match get_lexer_by_name lang with
  | Some lexer =>
      match highlight code lexer with
      | Some highlighted =>
          Some (div_open CSS_CLASS_HIGHLIGHTER_ROUGE ++ highlighted ++ "</div>")
      | None => None
      end
  | None => None
  end.

(** [highlight_match]: the bare [except:] turns every exception of the
    [try] block into the fallback shell. *)
Definition highlight_match (g : option string * string) : string :=
  let lang := match fst g with
              | Some (String c w) => String c w
              | _ => "text"
              end in
  let code := snd g in
  match highlight_try lang code with
  | Some html => html
  | None => fallback_shell lang code
  end.

Definition highlight_code_blocks (content : string) : string :=
  fst (re_sub PATTERN_CODE_BLOCK (fun g (_ : unit) => (highlight_match g, tt))
              content tt).

Definition add_inline_code_classes (content_html : string) : string :=
  fst (re_sub PATTERN_INLINE_CODE
              (fun _ (_ : unit) =>
                 ("<code class=" ++ PyStr.dq ++ CSS_CLASS_LANGUAGE_PLAINTEXT
                                ++ PyStr.dq ++ ">", tt))
              content_html tt).

Definition process_markdown_content (content : string) : string * directives :=
  let (content1, include_directives) := extract_include_directives content in
  let (content2, include_directives) :=
    extract_example_shortcodes content1 include_directives in
  let (content3, mermaid_blocks) := extract_mermaid_blocks content2 in
  let content4 := highlight_code_blocks content3 in
  let content_html := markdown content4 in
  let content_html := add_inline_code_classes content_html in
  let content_html := restore_mermaid_blocks content_html mermaid_blocks in
  (content_html, include_directives).

End Services.

(** The Placeholder Protector alone: the three extraction steps in the
    order of [process_markdown_content], then diagram restoration. *)
Definition protect (content : string) : string * directives * list string :=
  let (content1, d1) := extract_include_directives content in
  let (content2, d2) := extract_example_shortcodes content1 d1 in
  let (content3, mermaid_blocks) := extract_mermaid_blocks content2 in
  (content3, d2, mermaid_blocks).

Definition protect_restore (content : string) : string * directives :=
  let '(content3, d, mermaid_blocks) := protect content in
  (restore_mermaid_blocks content3 mermaid_blocks, d).

(** * Content model and site builder (publish.py, lines 450-757) *)

(** The two programs differ in the root of a route: [publish.py] builds
    relative urls, [codecraft.py] absolute ones. *)
Inductive program : Type := Publish | Codecraft.

Definition url_root (p : program) : string :=
  match p with Publish => EmptyString | Codecraft => "/" end.

(** A loaded content file: body and the recognised frontmatter keys, each
    optional. *)
Record Post : Type := {
  post_content : string;
  fm_title : option string;
  fm_date : option string;
  fm_comments : option bool;
  fm_mermaid : option bool;
  fm_codepen : option bool;
  fm_toc : option bool;
  fm_banner : option bool;
  fm_sidebar : option bool
}.

(** The record built by [parse_markdown_file].  The keys [collection] and
    [section] are absent until a collector or the expander writes them. *)
Record PostData : Type := {
  content : string;
  title : string;
  date : string;
  comments : bool;
  mermaid : bool;
  codepen : bool;
  toc : bool;
  banner : bool;
  sidebar : bool;
  url : string;
  file_path : string;
  include_directives : directives;
  collection : option string;
  section : option string
}.

Definition set_url (p : PostData) (u : string) : PostData :=
  {| content := content p; title := title p; date := date p;
     comments := comments p; mermaid := mermaid p; codepen := codepen p;
     toc := toc p; banner := banner p; sidebar := sidebar p;
     url := u; file_path := file_path p;
     include_directives := include_directives p;
     collection := collection p; section := section p |}.

Definition set_collection (p : PostData) (c : string) : PostData :=
  {| content := content p; title := title p; date := date p;
     comments := comments p; mermaid := mermaid p; codepen := codepen p;
     toc := toc p; banner := banner p; sidebar := sidebar p;
     url := url p; file_path := file_path p;
     include_directives := include_directives p;
     collection := Some c; section := section p |}.

Definition set_section (p : PostData) (s : string) : PostData :=
  {| content := content p; title := title p; date := date p;
     comments := comments p; mermaid := mermaid p; codepen := codepen p;
     toc := toc p; banner := banner p; sidebar := sidebar p;
     url := url p; file_path := file_path p;
     include_directives := include_directives p;
     collection := collection p; section := Some s |}.

(** An entry of the [rules] list of the configuration: [scope_path] is
    [rule.get('scope', {}).get('path', '')], [features] is present when
    the rule has the key. *)
Record Rule : Type := {
  scope_path : string;
  features : option (PyDict.dict bool)
}.

Record Config : Type := {
  sections : list string;
  rules : list Rule;
  post_limit : nat
}.

Record SiteBuilder : Type := {
  config : Config;
  posts : PyDict.dict (list PostData);
  pages : list PostData
}.

(** What a template sees. *)
Record Context : Type := {
  ctx_site : Config;
  ctx_page : option PostData;
  ctx_posts : PyDict.dict (list PostData);
  ctx_all_posts : list PostData
}.

Definition TEMPLATE_POSTS : string := "posts.html".
Definition TEMPLATE_CATEGORY : string := "category.html".
Definition TEMPLATE_ARCHIVE : string := "archive.html".

Definition normalize_url_path (path : string) : string :=
  PyStr.strip "/"%char path.

Definition path_defaults_init : PyDict.dict bool :=
  [("toc", false); ("comments", false); ("mermaid", false);
   ("codepen", false); ("banner", false)].

(** The body of the loop of [_get_path_defaults]. *)
Definition apply_rule (file_path_str : string) (defaults : PyDict.dict bool)
           (rule : Rule) : PyDict.dict bool :=
  if negb (String.eqb (scope_path rule) EmptyString)
     && PyStr.contains (scope_path rule) file_path_str
  then match features rule with
       | Some f => PyDict.update defaults f
       | None => defaults
       end
  else defaults.

Definition _get_path_defaults (cfg : Config) (file_path_str : string)
  : PyDict.dict bool :=
  fold_left (apply_rule file_path_str) (rules cfg) path_defaults_init.

(** [post.get(key, dflt)] on a frontmatter key *)
Definition fm_get {A} (v : option A) (dflt : A) : A :=
  match v with Some a => a | None => dflt end.

(** Date-descending stable sort: [l.sort(key=date, reverse=True)].
    [list.sort] is stable, also under [reverse=True]; keys are compared
    as strings. *)
Fixpoint insert_desc (x : PostData) (l : list PostData) : list PostData :=
  match l with
  | [] => [x]
  | y :: l' =>
      if String.ltb (date x) (date y) then y :: insert_desc x l'
      else x :: l
  end.

Definition sort_by_date_desc (l : list PostData) : list PostData :=
  fold_right insert_desc [] l.

(** [self.posts] after [__init__] *)
Definition init_posts (cfg : Config) : PyDict.dict (list PostData) :=
  match sections cfg with
  | [] => [("design", []); ("code", []); ("projects", [])]
  | names => fold_left (fun d name => PyDict.set d name []) names []
  end.

(** [self.posts[collection_name].append(post_data)]; the key exists, the
    store being initialised from the same section names. *)
Definition store_append (store : PyDict.dict (list PostData))
           (collection_name : string) (post_data : PostData)
  : PyDict.dict (list PostData) :=
  PyDict.set store collection_name
             (PyDict.get_default store collection_name [] ++ [post_data])%list.

Definition get_all_posts (b : SiteBuilder) : list PostData :=
  sort_by_date_desc (concat (map snd (posts b))).

Section Builder.
Variable prog : program.
Variable Lexer : Type.
Variable get_lexer_by_name : string -> option Lexer.
Variable highlight : string -> Lexer -> option string.
Variable markdown : string -> string.
(** [env.get_template(name).render(context)]; [None] when it raises. *)
Variable render_template : string -> Context -> option string.

(** [loaded] is the outcome of [frontmatter.load]: [None] when reading or
    parsing raised.  The second [try] guards [process_markdown_content],
    which is total here, the services being total functions. *)
Definition parse_markdown_file (cfg : Config) (file_path_str : string)
           (is_post : bool) (loaded : option Post) : option PostData :=
  match loaded with
  | None => None
  | Some post =>
      let path_defaults := _get_path_defaults cfg file_path_str in
      let (content_html, include_directives) :=
        process_markdown_content Lexer get_lexer_by_name highlight markdown
                                 (post_content post) in
      Some {| content := content_html;
              title := fm_get (fm_title post) EmptyString;
              date := fm_get (fm_date post) EmptyString;
              comments := fm_get (fm_comments post)
                            (PyDict.get_default path_defaults "comments" false);
              mermaid := fm_get (fm_mermaid post)
                           (PyDict.get_default path_defaults "mermaid" false);
              codepen := fm_get (fm_codepen post)
                           (PyDict.get_default path_defaults "codepen" false);
              toc := fm_get (fm_toc post)
                       (PyDict.get_default path_defaults "toc" is_post);
              banner := fm_get (fm_banner post)
                          (PyDict.get_default path_defaults "banner" false);
              sidebar := fm_get (fm_sidebar post) true;
              url := EmptyString;
              file_path := file_path_str;
              include_directives := include_directives;
              collection := None;
              section := None |}
  end.

(** A Markdown file found by [glob]: stem, path and load outcome. *)
Record MdFile : Type := {
  stem : string;
  path_str : string;
  loaded_post : option Post
}.

(** The inner loop of [collect_posts] over the files of one directory. *)
Fixpoint collect_files (cfg : Config) (collection_name : string)
         (files : list MdFile) (store : PyDict.dict (list PostData))
  : PyDict.dict (list PostData) :=
  match files with
  | [] => store
  | md_file :: rest =>
      match parse_markdown_file cfg (path_str md_file) true
                                (loaded_post md_file) with
      | None => collect_files cfg collection_name rest store
      | Some post_data =>
          let post_data :=
            set_url post_data
              (url_root prog ++ collection_name ++ "/" ++ stem md_file ++ "/") in
          let post_data := set_collection post_data collection_name in
          collect_files cfg collection_name rest
                        (store_append store collection_name post_data)
      end
  end.

(** The outer loop; [tree name] is [None] when the directory is missing,
    else its Markdown files in [glob] order. *)
Fixpoint collect_sections (cfg : Config)
         (tree : string -> option (list MdFile)) (names : list string)
         (store : PyDict.dict (list PostData)) : PyDict.dict (list PostData) :=
  match names with
  | [] => store
  | collection_name :: rest =>
      match tree collection_name with
      | None => collect_sections cfg tree rest store
      | Some files =>
          collect_sections cfg tree rest
                           (collect_files cfg collection_name files store)
      end
  end.

Definition sort_store (store : PyDict.dict (list PostData))
  : PyDict.dict (list PostData) :=
  map (fun kv => (fst kv, sort_by_date_desc (snd kv))) store.

Definition collect_posts (tree : string -> option (list MdFile))
           (b : SiteBuilder) : SiteBuilder :=
  {| config := config b;
     posts := sort_store
                (collect_sections (config b) tree (sections (config b))
                                  (posts b));
     pages := pages b |}.

(** The loop of [collect_pages] over the files of the sections directory. *)
Fixpoint collect_page_files (cfg : Config) (files : list MdFile)
         (acc : list PostData) : list PostData :=
  match files with
  | [] => acc
  | page_file :: rest =>
      match parse_markdown_file cfg (path_str page_file) false
                                (loaded_post page_file) with
      | None => collect_page_files cfg rest acc
      | Some page_data =>
          let page_data :=
            if String.eqb (stem page_file) "home"
            then set_url page_data "/"
            else set_section
                   (set_url page_data (url_root prog ++ stem page_file ++ "/"))
                   (stem page_file) in
          collect_page_files cfg rest (acc ++ [page_data])%list
      end
  end.

(** [sections_dir] is [None] when the directory is missing, else its
    Markdown files in [glob] order. *)
Definition collect_pages (sections_dir : option (list MdFile))
           (b : SiteBuilder) : SiteBuilder :=
  match sections_dir with
  | None => b
  | Some files =>
      {| config := config b; posts := posts b;
         pages := collect_page_files (config b) files (pages b) |}
  end.

Definition _render_posts_include (b : SiteBuilder) : option string :=
  render_template TEMPLATE_POSTS
    {| ctx_site := config b; ctx_page := None; ctx_posts := posts b;
       ctx_all_posts := firstn (post_limit (config b)) (get_all_posts b) |}.

(** [page_data.get('section')], then [if not section_name]: a missing key
    and the empty string both take the derived name. *)
Definition category_section_name (page_data : PostData) : string :=
  match section page_data with
  | Some (String c s) => String c s
  | _ => List.last (PyStr.split "/"%char (normalize_url_path (url page_data)))
                   EmptyString
  end.

(** The page record is written before the template is looked up: the
    write survives a template failure. *)
Definition _render_category_include (b : SiteBuilder) (page_data : PostData)
  : PostData * option string :=
  let page_data := set_section page_data (category_section_name page_data) in
  (page_data,
   render_template TEMPLATE_CATEGORY
     {| ctx_site := config b; ctx_page := Some page_data;
        ctx_posts := posts b; ctx_all_posts := [] |}).

Definition _render_archive_include (b : SiteBuilder) : option string :=
  render_template TEMPLATE_ARCHIVE
    {| ctx_site := config b; ctx_page := None; ctx_posts := posts b;
       ctx_all_posts := get_all_posts b |}.

(** Outcome of the dispatch on a directive kind. *)
Inductive rendering : Type :=
| Rendered (html : string)
| Skipped
| Raised.

Definition of_render (r : option string) : rendering :=
  match r with Some html => Rendered html | None => Raised end.

Definition example_viewer (example_id : string) : string :=
  "<div class=" ++ PyStr.dq ++ "example-viewer" ++ PyStr.dq
  ++ " data-example-id=" ++ PyStr.dq ++ example_id ++ PyStr.dq ++ "></div>".

(** The [if]/[elif] chain of [_process_include_directives]. *)
Definition render_directive (b : SiteBuilder) (page_data : PostData)
           (directive_type : string) : PostData * rendering :=
  if String.eqb directive_type "posts" then
    (page_data, of_render (_render_posts_include b))
  else if String.eqb directive_type "category" then
    let (page_data, r) := _render_category_include b page_data in
    (page_data, of_render r)
  else if String.eqb directive_type "archive" then
    (page_data, of_render (_render_archive_include b))
  else if String.prefix "example:" directive_type then
    match PyStr.split ":"%char directive_type with
    | _ :: example_id :: _ => (page_data, Rendered (example_viewer example_id))
    | _ => (page_data, Raised)
    end
  else (page_data, Skipped).

(** The two substitutions, paragraph form first. *)
Definition substitute (placeholder rendered content : string) : string :=
  PyStr.replace placeholder rendered
    (PyStr.replace (paragraph placeholder) rendered content).

(** The loop over [include_directives.items()].  The answer is the page
    record as left by the loop and the content, [None] when a template
    raised. *)
Fixpoint expand_items (b : SiteBuilder) (items : directives)
         (page_data : PostData) (content : string) : PostData * option string :=
  match items with
  | [] => (page_data, Some content)
  | (placeholder, directive_type) :: rest =>
      match render_directive b page_data directive_type with
      | (page_data, Rendered rendered) =>
          expand_items b rest page_data (substitute placeholder rendered content)
      | (page_data, Skipped) => expand_items b rest page_data content
      | (page_data, Raised) => (page_data, None)
      end
  end.

Definition _process_include_directives (b : SiteBuilder) (page_data : PostData)
  : PostData * option string :=
  expand_items b (include_directives page_data) page_data (content page_data).

End Builder.

(** * Configuration defaults (publish.py, lines 125-145)

    [apply_defaults] copies its argument and merges into the copy in
    place, so its contract is about object identity.  Dict objects live
    in a heap, a list of objects addressed by position; allocation
    appends.  Scalars and lists are immutable atoms here ([deep_merge]
    never looks inside a list).  The [defaults] argument is only read: it
    is given by its value, a finite tree. *)

Module Heap.

Inductive value : Type :=
| VAtom (a : string)
| VRef (l : nat).

Abbreviation object := (list (string * value)).
Abbreviation heap := (list (list (string * value))).

#[warnings="-register-all"] Inductive tree : Type :=
| TAtom (a : string)
| TDict (items : list (string * tree)).

(** An answer with the heap it leaves behind; [Raise] is an uncaught
    exception, [NoAnswer] a model without answer (fuel exhausted, or a
    reference outside the heap). *)
Inductive outcome (A : Type) : Type :=
| Ret (h : heap) (a : A)
| Raise (h : heap)
| NoAnswer.

Arguments Ret {A} h a.
Arguments Raise {A} h.
Arguments NoAnswer {A}.

(** [target.setdefault(key, dflt)]; only a dict has the method. *)
Definition setdefault (h : heap) (target : value) (key : string)
           (dflt : value) : outcome value :=
  match target with
  | VAtom _ => Raise h
  | VRef l =>
      match h !! l with
      | None => NoAnswer
      | Some o =>
          match PyDict.get o key with
          | Some v => Ret h v
          | None => Ret (<[l := PyDict.set o key dflt]> h) dflt
          end
      end
  end.

(** Copy of the entries of a dict, in order, with [cp] on the values. *)
Fixpoint copy_items (cp : heap -> value -> option (heap * value))
         (h : heap) (o : object) : option (heap * object) :=
  match o with
  | [] => Some (h, [])
  | (k, v) :: o' =>
      match cp h v with
      | None => None
      | Some (h1, v') =>
          match copy_items cp h1 o' with
          | None => None
          | Some (h2, o'') => Some (h2, (k, v') :: o'')
          end
      end
  end.

(** [copy.deepcopy] on data without sharing: every dict reached is
    copied into a new object.  [fuel] bounds the nesting depth. *)
Fixpoint deepcopy (fuel : nat) (h : heap) (v : value)
  : option (heap * value) :=
  match v with
  | VAtom a => Some (h, VAtom a)
  | VRef l =>
      match fuel with
      | O => None
      | S fuel' =>
          match h !! l with
          | None => None
          | Some o =>
              match copy_items (deepcopy fuel') h o with
              | None => None
              | Some (h', o') => Some ((h' ++ [o'])%list, VRef (length h'))
              end
          end
      end
  end.

(** The loop of [deep_merge] over [source.items()], the recursive call
    being [rec]. *)
Fixpoint merge_items (rec : heap -> value -> tree -> outcome unit)
         (target : value) (items : list (string * tree)) (h : heap)
  : outcome unit :=
  match items with
  | [] => Ret h tt
  | (key, val) :: rest =>
      match val with
      | TDict _ =>
          match setdefault (h ++ [[]])%list target key (VRef (length h)) with
          | Ret h1 node =>
              match rec h1 node val with
              | Ret h2 _ => merge_items rec target rest h2
              | other => other
              end
          | Raise h1 => Raise h1
          | NoAnswer => NoAnswer
          end
      | TAtom a =>
          match setdefault h target key (VAtom a) with
          | Ret h1 _ => merge_items rec target rest h1
          | Raise h1 => Raise h1
          | NoAnswer => NoAnswer
          end
      end
  end.

(** [deep_merge(target, source)]; the dict literal of
    [target.setdefault(key, {})] is allocated before the call. *)
Fixpoint deep_merge (h : heap) (target : value) (source : tree)
  : outcome unit :=
  match source with
  | TAtom _ => Raise h
  | TDict items => merge_items (fun h' node sub => deep_merge h' node sub)
                               target items h
  end.

(** [if data]: [None] and the empty dict are falsy. *)
Definition truthy (h : heap) (data : option nat) : bool :=
  match data with
  | None => false
  | Some l => match h !! l with
              | Some (_ :: _) => true
              | _ => false
              end
  end.

Definition apply_defaults (fuel : nat) (h : heap) (data : option nat)
           (defaults : tree) : outcome value :=
  let copied :=
    if truthy h data
    then match data with
         | Some l => deepcopy fuel h (VRef l)
         | None => None
         end
    else Some ((h ++ [[]])%list, VRef (length h)) in
  match copied with
  | None => NoAnswer
  | Some (h1, merged_data) =>
      match deep_merge h1 merged_data defaults with
      | Ret h2 _ => Ret h2 merged_data
      | Raise h2 => Raise h2
      | NoAnswer => NoAnswer
      end
  end.

(** [v[k1][k2]...] read through the heap *)
Fixpoint lookup_path (h : heap) (v : value) (path : list string)
  : option value :=
  match path with
  | [] => Some v
  | k :: rest =>
      match v with
      | VAtom _ => None
      | VRef l =>
          match h !! l with
          | None => None
          | Some o =>
              match PyDict.get o k with
              | None => None
              | Some v' => lookup_path h v' rest
              end
          end
      end
  end.

(** Same scalar, or a dict on both sides. *)
Definition same_kind (x y : value) : Prop :=
  match x, y with
  | VAtom a, VAtom b => a = b
  | VRef _, VRef _ => True
  | _, _ => False
  end.

(** Every binding of every object of [h] is still in [h']. *)
Definition grows (h h' : heap) : Prop :=
  forall l o,
    h !! l = Some o ->
    exists o',
      h' !! l = Some o'
      /\ forall k v, PyDict.get o k = Some v -> PyDict.get o' k = Some v.

(** The objects at the first [n] locations are the same in [h']. *)
Definition untouched (n : nat) (h h' : heap) : Prop :=
  forall l, l < n -> h' !! l = h !! l.

(** A value that is no reference below [n] *)
Definition fresh_val (n : nat) (v : value) : Prop :=
  match v with
  | VAtom _ => True
  | VRef l => n <= l
  end.

(** The objects from location [n] on hold no reference below [n]. *)
Definition fresh_from (n : nat) (h : heap) : Prop :=
  forall l o k v,
    n <= l -> h !! l = Some o -> PyDict.get o k = Some v -> fresh_val n v.

(** [v2] in [h2] has everything [v1] has in [h1]: wherever a path leads
    in [v1], it leads in [v2] to the same scalar, or to a dict if it led
    to a dict. *)
Definition covers (h1 : heap) (v1 : value) (h2 : heap) (v2 : value) : Prop :=
  forall path x,
    lookup_path h1 v1 path = Some x ->
    exists y, lookup_path h2 v2 path = Some y /\ same_kind x y.

(** Data nested at most [d] dicts deep, all references in the heap *)
Fixpoint bounded (d : nat) (h : heap) (v : value) : Prop :=
  match v with
  | VAtom _ => True
  | VRef l =>
      match d with
      | O => False
      | S d' =>
          exists o, h !! l = Some o
                    /\ Forall (fun kv => bounded d' h (snd kv)) o
      end
  end.

(** The heap an outcome leaves behind *)
Definition heap_of {A} (r : outcome A) : option heap :=
  match r with
  | Ret h _ => Some h
  | Raise h => Some h
  | NoAnswer => None
  end.

(** A value that is no reference outside the heap *)
Definition lives (h : heap) (v : value) : Prop :=
  match v with
  | VAtom _ => True
  | VRef l => l < length h
  end.

(** No object of the heap holds a reference outside the heap. *)
Definition closed (h : heap) : Prop :=
  forall l o k v, h !! l = Some o -> PyDict.get o k = Some v -> lives h v.

(** The outcome is a return or an exception. *)
Definition answers {A} (r : outcome A) : Prop :=
  match r with
  | NoAnswer => False
  | _ => True
  end.

End Heap.

(** * Statements

    Notions the properties below are stated with. *)

(** The block a numbered shortcode is replaced by *)
Definition example_block (example_id : string) : string :=
  PyStr.nl ++ PyStr.nl ++ example_placeholder example_id ++ PyStr.nl ++ PyStr.nl.

(** The replacement texts of the shortcodes of [content], one per
    occurrence, in text order *)
Definition example_replacements (content : string) (d : directives)
  : list string :=
  re_sub_trace replace_example (re_scan PATTERN_EXAMPLE_SHORTCODE 0 content) d.

Definition include_markers : list string :=
  [INCLUDE_POSTS_TRIM; INCLUDE_POSTS_PLAIN; INCLUDE_CATEGORY_TRIM;
   INCLUDE_CATEGORY_PLAIN; INCLUDE_ARCHIVE_TRIM; INCLUDE_ARCHIVE_PLAIN].

(** No include marker, no numbered shortcode, no diagram block *)
Definition has_protected_construct (content : string) : bool :=
  existsb (fun marker => PyStr.contains marker content) include_markers
  || re_search PATTERN_EXAMPLE_SHORTCODE content
  || re_search PATTERN_MERMAID_BLOCK content.

(** A content file whose frontmatter has no [toc] key *)
Definition omit_toc (post : Post) : Post :=
  {| post_content := post_content post; fm_title := fm_title post;
     fm_date := fm_date post; fm_comments := fm_comments post;
     fm_mermaid := fm_mermaid post; fm_codepen := fm_codepen post;
     fm_toc := None; fm_banner := fm_banner post;
     fm_sidebar := fm_sidebar post |}.

(** A configuration without path rules *)
Definition without_rules (cfg : Config) : Config :=
  {| sections := sections cfg; rules := []; post_limit := post_limit cfg |}.

(** Newest first: every post is followed by posts whose date string is
    not larger, strings being compared character by character. *)
Definition date_desc (l : list PostData) : Prop :=
  StronglySorted (fun x y => String.leb (date y) (date x) = true) l.

(** The posts of a list that carry the date [d], in list order *)
Definition ties (d : string) (l : list PostData) : list PostData :=
  List.filter (fun p => String.eqb (date p) d) l.

(** A post known by its date only *)
Definition dated (d : string) : PostData :=
  {| content := EmptyString; title := EmptyString; date := d;
     comments := false; mermaid := false; codepen := false; toc := false;
     banner := false; sidebar := true; url := EmptyString;
     file_path := EmptyString; include_directives := [];
     collection := None; section := None |}.

(** The last character of a string *)
Fixpoint last_char (s : string) : option ascii :=
  match s with
  | EmptyString => None
  | String a EmptyString => Some a
  | String _ s' => last_char s'
  end.

(** [sep.join(l)] *)
Fixpoint join (sep : string) (l : list string) : string :=
  match l with
  | [] => EmptyString
  | [x] => x
  | x :: l' => x ++ sep ++ join sep l'
  end.

(** Runs of non-empty lines, [cur] being the run under way *)
Fixpoint group_lines (lines cur : list string) : list (list string) :=
  match lines with
  | [] => match cur with [] => [] | _ => [cur] end
  | l :: rest =>
      if String.eqb l EmptyString
      then match cur with
           | [] => group_lines rest []
           | _ => cur :: group_lines rest []
           end
      else group_lines rest (cur ++ [l])%list
  end.

(** What the Markdown converter does to a text made of plain paragraphs
    (no markup): every run of non-empty lines becomes a paragraph element
    and the elements are joined by newlines.  It stands for the converter
    at the concrete documents below, all of this kind. *)
Definition markdown_plain (text : string) : string :=
  join PyStr.nl
       (map (fun ls => paragraph (join PyStr.nl ls))
            (group_lines (PyStr.split "010"%char text) [])).

(** A highlighter that knows the lexers [python] and [text] only *)
Definition lexer_of_name (lang : string) : option string :=
  if String.eqb lang "python" || String.eqb lang "text"
  then Some lang else None.

Definition highlight_plain (code lexer : string) : option string :=
  Some ("<div class=" ++ PyStr.dq ++ CSS_CLASS_HIGHLIGHT ++ PyStr.dq
        ++ "><pre>" ++ code ++ "</pre></div>").

(** Templates that render to a fixed text naming the template *)
Definition render_fixed (name : string) (_ : Context) : option string :=
  Some ("<ul>" ++ name ++ "</ul>").

Definition empty_config : Config :=
  {| sections := []; rules := []; post_limit := 10 |}.

Definition empty_site : SiteBuilder :=
  {| config := empty_config; posts := init_posts empty_config; pages := [] |}.

(** A file with the given stem and body and no frontmatter *)
Definition md_file (name body : string) : MdFile :=
  {| stem := name; path_str := "themes/sections/" ++ name ++ ".md";
     loaded_post :=
       Some {| post_content := body; fm_title := None; fm_date := None;
               fm_comments := None; fm_mermaid := None; fm_codepen := None;
               fm_toc := None; fm_banner := None; fm_sidebar := None |} |}.

(** The pages [collect_pages] makes of the given files *)
Definition pages_of (prog : program) (files : list MdFile) : list PostData :=
  pages (collect_pages prog string lexer_of_name highlight_plain markdown_plain
                       (Some files) empty_site).

(** The page record has no [section] key, or an empty one. *)
Definition section_unset (page_data : PostData) : Prop :=
  section page_data = None \/ section page_data = Some EmptyString.

(** All fields but [section] agree. *)
Definition same_but_section (p q : PostData) : Prop :=
  content p = content q /\ title p = title q /\ date p = date q
  /\ comments p = comments q /\ mermaid p = mermaid q
  /\ codepen p = codepen q /\ toc p = toc q /\ banner p = banner q
  /\ sidebar p = sidebar q /\ url p = url q /\ file_path p = file_path q
  /\ include_directives p = include_directives q
  /\ collection p = collection q.

(** The last segment of the normalized url *)
Definition url_last_segment (page_data : PostData) : string :=
  List.last (PyStr.split "/"%char (normalize_url_path (url page_data)))
            EmptyString.

(** The kinds the expander dispatches on *)
Definition recognised (directive_type : string) : bool :=
  String.eqb directive_type "posts" || String.eqb directive_type "category"
  || String.eqb directive_type "archive"
  || String.prefix "example:" directive_type.

(** The three include directives *)
Inductive include_kind : Type := KPosts | KCategory | KArchive.

Definition kind_name (k : include_kind) : string :=
  match k with
  | KPosts => "posts" | KCategory => "category" | KArchive => "archive"
  end.

Definition kind_token (k : include_kind) : string :=
  match k with
  | KPosts => PLACEHOLDER_POSTS
  | KCategory => PLACEHOLDER_CATEGORY
  | KArchive => PLACEHOLDER_ARCHIVE
  end.

Definition kind_trim (k : include_kind) : string :=
  match k with
  | KPosts => INCLUDE_POSTS_TRIM
  | KCategory => INCLUDE_CATEGORY_TRIM
  | KArchive => INCLUDE_ARCHIVE_TRIM
  end.

Definition kind_plain (k : include_kind) : string :=
  match k with
  | KPosts => INCLUDE_POSTS_PLAIN
  | KCategory => INCLUDE_CATEGORY_PLAIN
  | KArchive => INCLUDE_ARCHIVE_PLAIN
  end.

(** The document holds a marker of the kind, in either bracket form. *)
Definition has_marker (k : include_kind) (content : string) : bool :=
  PyStr.contains (kind_trim k) content || PyStr.contains (kind_plain k) content.

(** The entries of a mapping that carry the given directive kind *)
Definition entries_of_kind (name : string) (d : directives) : directives :=
  List.filter (fun e => String.eqb (snd e) name) d.

(** [n] copies of [x] *)
Definition copies (n : nat) (x : string) : list string := repeat x n.

(** The character does not occur in the string. *)
Fixpoint char_free (c : ascii) (s : string) : bool :=
  match s with
  | EmptyString => true
  | String a s' => negb (Ascii.eqb a c) && char_free c s'
  end.

(** A blank line *)
Definition blank : string := PyStr.nl ++ PyStr.nl.

(** Every character of [sep] is foreign to [p]. *)
Fixpoint sep_free (sep p : string) : bool :=
  match sep with
  | EmptyString => true
  | String c sep' => char_free c p && sep_free sep' p
  end.

(** No suffix of [q] that is not empty is a prefix of [p]. *)
Fixpoint suffixes_not_prefix (q p : string) : bool :=
  match q with
  | EmptyString => true
  | String _ q' => negb (String.prefix q p) && suffixes_not_prefix q' p
  end.

(** The pattern does not overlap itself: no proper suffix of it is a
    prefix of it. *)
Definition border_free (p : string) : bool :=
  match p with
  | EmptyString => true
  | String _ p' => suffixes_not_prefix p' p
  end.

(** The tail of the pipeline around the diagrams: extraction, the steps
    between, restoration. *)
Definition mermaid_converted (Lexer : Type)
           (get_lexer_by_name : string -> option Lexer)
           (highlight : string -> Lexer -> option string)
           (markdown : string -> string) (content : string) : string :=
  add_inline_code_classes
    (markdown
       (highlight_code_blocks Lexer get_lexer_by_name highlight
          (fst (extract_mermaid_blocks content)))).

Definition mermaid_round_trip (Lexer : Type)
           (get_lexer_by_name : string -> option Lexer)
           (highlight : string -> Lexer -> option string)
           (markdown : string -> string) (content : string) : string :=
  restore_mermaid_blocks
    (mermaid_converted Lexer get_lexer_by_name highlight markdown content)
    (snd (extract_mermaid_blocks content)).


(** * Further functions of the two programs

    The utility functions, the Jinja filters and the build loop, and the
    notions their properties are stated with. *)

(** [\s] over the ASCII range: tab, line feed, vertical tab, form feed,
    carriage return, the separators 28 to 31 and the space *)
Definition is_space (c : ascii) : bool :=
  let n := nat_of_ascii c in
  (((9 <=? n) && (n <=? 13)) || ((28 <=? n) && (n <=? 32)))%nat.

(** [r'\s+']: the whole run of whitespace, which is not empty *)
Definition PATTERN_WHITESPACE (s : string) : option (unit * nat) :=
  let (w, _) := PyStr.span is_space s in
  match w with
  | EmptyString => None
  | String _ _ => Some (tt, String.length w)
  end.

(** publish.py, lines 148-157 *)
Definition strip_all_whitespace (value : string) : string :=
  fst (re_sub PATTERN_WHITESPACE (fun _ (_ : unit) => (EmptyString, tt))
              value tt).

(** The characters of [s] that satisfy [p], in order *)
Fixpoint filter_chars (p : ascii -> bool) (s : string) : string :=
  match s with
  | EmptyString => EmptyString
  | String c s' => if p c then String c (filter_chars p s')
                   else filter_chars p s'
  end.

(** The texts [save_mermaid] returns for the blocks of [content], one
    per block, in text order *)
Definition mermaid_replacements (content : string) : list string :=
  re_sub_trace save_mermaid (re_scan PATTERN_MERMAID_BLOCK 0 content) [].

(** Every character of [s] satisfies [p]. *)
Fixpoint all_chars (p : ascii -> bool) (s : string) : bool :=
  match s with
  | EmptyString => true
  | String c s' => p c && all_chars p s'
  end.

(** ** [slugify] (codecraft.py, lines 328-343)

    [str.lower] and [str.isalnum] follow the Unicode tables; they are
    parameters. *)

Section Slug.
Variable lower : string -> string.
Variable isalnum : ascii -> bool.

(** [c.isalnum() or c in ' -'] *)
Definition slug_char (c : ascii) : bool :=
  isalnum c || Ascii.eqb c " "%char || Ascii.eqb c "-"%char.

(** The loop [while '--' in slug: slug = slug.replace('--', '-')];
    [fuel] bounds the number of rounds, [None] when it runs out. *)
Fixpoint collapse_dashes (fuel : nat) (slug : string) : option string :=
  if PyStr.contains "--" slug then
    match fuel with
    | O => None
    | S fuel' => collapse_dashes fuel' (PyStr.replace "--" "-" slug)
    end
  else Some slug.

(** A round shortens the text: its length bounds the rounds. *)
Definition slugify (text : string) : option string :=
  let slug := lower text in
  let slug := filter_chars slug_char slug in
  let slug := PyStr.strip "-"%char (PyStr.replace " " "-" slug) in
  collapse_dashes (String.length slug) slug.

End Slug.

(** The two string methods on ASCII text *)
Definition lower_ascii_char (c : ascii) : ascii :=
  let n := nat_of_ascii c in
  if ((65 <=? n) && (n <=? 90))%nat then ascii_of_nat (n + 32) else c.

Fixpoint lower_ascii (s : string) : string :=
  match s with
  | EmptyString => EmptyString
  | String c s' => String (lower_ascii_char c) (lower_ascii s')
  end.

Definition isalnum_ascii (c : ascii) : bool :=
  let n := nat_of_ascii c in
  (((48 <=? n) && (n <=? 57)) || ((65 <=? n) && (n <=? 90))
   || ((97 <=? n) && (n <=? 122)))%nat.

(** ** Date filters (publish.py, lines 176-258) *)

From Stdlib Require Import ZArith.

Definition MONTHS_en : list string :=
  ["Jan"; "Feb"; "Mar"; "Apr"; "May"; "Jun";
   "Jul"; "Aug"; "Sep"; "Oct"; "Nov"; "Dec"].

Definition MONTHS : PyDict.dict (list string) :=
  [("en", MONTHS_en);
   ("es", ["Ene"; "Feb"; "Mar"; "Abr"; "May"; "Jun";
           "Jul"; "Ago"; "Sep"; "Oct"; "Nov"; "Dic"]);
   ("it", ["Gen"; "Feb"; "Mar"; "Apr"; "Mag"; "Giu";
           "Lug"; "Ago"; "Set"; "Ott"; "Nov"; "Dic"])].

(** [l[i]]: a negative index counts from the end; [None] is
    [IndexError]. *)
Definition py_index {A} (l : list A) (i : Z) : option A :=
  let n := Z.of_nat (length l) in
  if (0 <=? i)%Z then nth_error l (Z.to_nat i)
  else if (- n <=? i)%Z then nth_error l (Z.to_nat (n + i))
  else None.

(** [str(n)] for an [int] *)
Definition str_of_Z (n : Z) : string := NilZero.string_of_int (Z.to_int n).

(** [f"{n:02d}"]: the digits, padded with zeros up to a width of two, the
    sign counting for the width. *)
Definition format_02d (n : Z) : string :=
  if (0 <=? n)%Z && (n <? 10)%Z then "0" ++ str_of_Z n else str_of_Z n.

(** [MONTHS.get(lang, MONTHS['en'])] *)
Definition month_names (lang : string) : list string :=
  PyDict.get_default MONTHS lang MONTHS_en.

Section Dates.
(** [int(s)]; [None] when it raises [ValueError] *)
Variable int : string -> option Z.

(** The [try] block of [format_month_year]; [None] when it raises: the
    unpacking of other than two parts, [int], the index. *)
Definition month_year_try (date_str lang : string) : option string :=
  match firstn 2 (PyStr.split "-"%char date_str) with
  | [year; month] =>
      match int month with
      | Some m =>
          let month_index := (m - 1)%Z in
          match py_index (month_names lang) month_index with
          | Some name => Some (name ++ " " ++ year)
          | None => None
          end
      | None => None
      end
  | _ => None
  end.

Definition format_month_year (date_str lang : string) : string :=
  match date_str with
  | EmptyString => EmptyString
  | _ => match month_year_try date_str lang with
         | Some r => r
         | None => date_str
         end
  end.

(** The [try] block shared by [format_date_archive] and
    [format_date_full], which differ in the text they build from the
    month name, the day number and the year. *)
Definition date_try (build : string -> Z -> string -> string)
           (date_str lang : string) : option string :=
  let parts := PyStr.split "-"%char date_str in
  if (3 <=? length parts)%nat then
    match firstn 3 parts with
    | [year; month; day] =>
        match int month with
        | Some m =>
            let month_index := (m - 1)%Z in
            match int day with
            | Some day_num =>
                match py_index (month_names lang) month_index with
                | Some name => Some (build name day_num year)
                | None => None
                end
            | None => None
            end
        | None => None
        end
    | _ => None
    end
  else Some date_str.

Definition format_date_archive (date_str lang : string) : string :=
  match date_str with
  | EmptyString => EmptyString
  | _ => match date_try (fun name day_num _ => name ++ " " ++ format_02d day_num)
                        date_str lang with
         | Some r => r
         | None => date_str
         end
  end.

Definition format_date_full (date_str lang : string) : string :=
  match date_str with
  | EmptyString => EmptyString
  | _ => match date_try (fun name day_num year =>
                           name ++ " " ++ format_02d day_num ++ ", " ++ year)
                        date_str lang with
         | Some r => r
         | None => date_str
         end
  end.

End Dates.

(** [extract_year]: [split] never returns an empty list, the [except]
    branch is not reached. *)
Definition extract_year (date_str : string) : string :=
  match date_str with
  | EmptyString => EmptyString
  | _ => match PyStr.split "-"%char date_str with
         | year :: _ => year
         | [] => date_str
         end
  end.

(** [int] on a non-empty string of ASCII digits; it stands for [int] in
    the examples. *)
Definition int_digits (s : string) : option Z :=
  option_map Z.of_uint (NilZero.uint_of_string s).

(** ** Path rules: notions for [_get_path_defaults] *)

(** The value a rule gives to a feature of a file: none unless the scope
    path of the rule is not empty and occurs in the path of the file. *)
Definition rule_value (file_path_str key : string) (rule : Rule)
  : option bool :=
  if negb (String.eqb (scope_path rule) EmptyString)
     && PyStr.contains (scope_path rule) file_path_str
  then match features rule with
       | Some f => PyDict.get f key
       | None => None
       end
  else None.

(** The last of the values that are given *)
Fixpoint last_some {A} (l : list (option A)) : option A :=
  match l with
  | [] => None
  | x :: l' => match last_some l' with
               | Some v => Some v
               | None => x
               end
  end.

Definition last_rule_value (rs : list Rule) (file_path_str key : string)
  : option bool :=
  last_some (map (rule_value file_path_str key) rs).

(** The [features] of every rule are a dict: no key twice. *)
Definition rules_well_formed (rs : list Rule) : Prop :=
  Forall (fun rule => match features rule with
                      | Some f => List.NoDup (map fst f)
                      | None => True
                      end) rs.

Definition with_rules (cfg : Config) (rs : list Rule) : Config :=
  {| sections := sections cfg; rules := rs; post_limit := post_limit cfg |}.

(** A configuration with two rules, the second narrower than the first,
    and a rule without scope *)
Definition docs_rule : Rule :=
  {| scope_path := "content/docs";
     features := Some [("comments", true); ("banner", true)] |}.

Definition quiet_rule : Rule :=
  {| scope_path := "docs/quiet"; features := Some [("comments", false)] |}.

Definition rules_config : Config :=
  {| sections := ["docs"]; rules := [docs_rule; quiet_rule];
     post_limit := 10 |}.

Definition unscoped_rule : Rule :=
  {| scope_path := EmptyString; features := Some [("comments", true)] |}.

(** ** Feed and search index (publish.py, lines 815-842)

    Both templates get the site and a list of posts (and the feed the
    time of the build, which is left out). *)

Definition FEED_POST_LIMIT : nat := 10.
Definition FILE_FEED : string := "feed.xml".
Definition FILE_SEARCH : string := "search.json".

Record FeedContext : Type := {
  feed_site : Config;
  feed_posts : list PostData
}.

Definition feed_context (b : SiteBuilder) : FeedContext :=
  {| feed_site := config b;
     feed_posts := firstn FEED_POST_LIMIT (get_all_posts b) |}.

Definition search_context (b : SiteBuilder) : FeedContext :=
  {| feed_site := config b; feed_posts := get_all_posts b |}.

Section Feed.
(** [env.get_template(name).render(context)]; [None] when it raises. *)
Variable render_list_template : string -> FeedContext -> option string.

Definition generate_feed (b : SiteBuilder) : option string :=
  render_list_template FILE_FEED (feed_context b).

Definition generate_search_index (b : SiteBuilder) : option string :=
  render_list_template FILE_SEARCH (search_context b).

End Feed.

(** The record [collect_posts] makes of the file [md] of the collection
    [name] *)
Definition post_of_file (prog : program) (name : string) (md : MdFile)
           (p : PostData) : Prop :=
  collection p = Some name
  /\ url p = url_root prog ++ name ++ "/" ++ stem md ++ "/"
  /\ file_path p = path_str md.

(** Made from a file of the directory of the collection that could be
    loaded *)
Definition from_tree (prog : program) (tree : string -> option (list MdFile))
           (name : string) (p : PostData) : Prop :=
  exists files md,
    tree name = Some files /\ In md files /\ loaded_post md <> None
    /\ post_of_file prog name md p.

Definition store_from_tree (prog : program)
           (tree : string -> option (list MdFile))
           (store : PyDict.dict (list PostData)) : Prop :=
  forall name l, In (name, l) store -> Forall (from_tree prog tree name) l.

(** ** Rendering (publish.py, lines 765-813 and 900-916)

    The page records are objects of the builder: [render_page] writes to
    the record it is given, which is the record the builder holds.  A
    record is addressed by its place, and a write to it is a write to the
    builder. *)

Definition TEMPLATE_MAIN : string := "codeCraft.html".

Inductive place : Type :=
| PostAt (collection_name : string) (i : nat)
| PageAt (i : nat).

Definition place_get (b : SiteBuilder) (pl : place) : option PostData :=
  match pl with
  | PostAt collection_name i =>
      match PyDict.get (posts b) collection_name with
      | Some l => l !! i
      | None => None
      end
  | PageAt i => pages b !! i
  end.

Definition place_set (b : SiteBuilder) (pl : place) (p : PostData)
  : SiteBuilder :=
  match pl with
  | PostAt collection_name i =>
      {| config := config b;
         posts := match PyDict.get (posts b) collection_name with
                  | Some l => PyDict.set (posts b) collection_name (<[i := p]> l)
                  | None => posts b
                  end;
         pages := pages b |}
  | PageAt i =>
      {| config := config b; posts := posts b; pages := <[i := p]> (pages b) |}
  end.

Definition set_content (p : PostData) (c : string) : PostData :=
  {| content := c; title := title p; date := date p;
     comments := comments p; mermaid := mermaid p; codepen := codepen p;
     toc := toc p; banner := banner p; sidebar := sidebar p;
     url := url p; file_path := file_path p;
     include_directives := include_directives p;
     collection := collection p; section := section p |}.

(** What the main template sees of the records; the other keys of the
    context are texts made of the configuration and the time of the
    build. *)
Record PageContext : Type := {
  pc_page : PostData;
  pc_site : Config;
  pc_posts : PyDict.dict (list PostData);
  pc_pages : list PostData;
  pc_all_posts : list PostData
}.

Definition _build_template_context (b : SiteBuilder) (page_data : PostData)
  : PageContext :=
  {| pc_page := page_data; pc_site := config b; pc_posts := posts b;
     pc_pages := pages b;
     pc_all_posts := firstn (post_limit (config b)) (get_all_posts b) |}.

(** The rendering loops of [build] end with the builder and the files
    written, or are left by an exception, which ends the program, with
    the files written until then.  A file is the directory of its
    [index.html] under the output directory, and the text. *)
Inductive build_outcome : Type :=
| Built (b : SiteBuilder) (written : list (string * string))
| Aborted (written : list (string * string)).

(** [output_path] as [build] computes it, for a post and for a page *)
Definition output_path_of (pl : place) (page_data : PostData) : string :=
  match pl with
  | PostAt _ _ => normalize_url_path (url page_data)
  | PageAt _ =>
      if String.eqb (url page_data) "/" then EmptyString
      else normalize_url_path (url page_data)
  end.

Definition post_places (store : PyDict.dict (list PostData)) : list place :=
  flat_map (fun kv => map (PostAt (fst kv)) (seq 0 (length (snd kv)))) store.

Definition page_places (l : list PostData) : list place :=
  map PageAt (seq 0 (length l)).

Section Render.
Variable render_template : string -> Context -> option string.
(** [env.get_template(TEMPLATE_MAIN)], [None] when it raises; the
    template answers [None] when rendering raises. *)
Variable main_template : option (PageContext -> option string).

(** [None] when an exception leaves the function. *)
Definition render_page (b : SiteBuilder) (pl : place) (output_path : string)
  : option (SiteBuilder * (string * string)) :=
  match main_template with
  | None => None
  | Some template =>
      match place_get b pl with
      | None => None
      | Some page_data =>
          match _process_include_directives render_template b page_data with
          | (page_data, Some expanded) =>
              let page_data := set_content page_data expanded in
              let b := place_set b pl page_data in
              match template (_build_template_context b page_data) with
              | Some html => Some (b, (output_path, html))
              | None => None
              end
          | (_, None) => None
          end
      end
  end.

(** A loop of [build] over records, in order. *)
Fixpoint render_places (b : SiteBuilder) (places : list place)
         (written : list (string * string)) : build_outcome :=
  match places with
  | [] => Built b written
  | pl :: rest =>
      match place_get b pl with
      | None => Aborted written
      | Some page_data =>
          match render_page b pl (output_path_of pl page_data) with
          | Some (b', file) => render_places b' rest (written ++ [file])%list
          | None => Aborted written
          end
      end
  end.

Definition total_posts (b : SiteBuilder) : nat :=
  list_sum (map (fun kv => length (snd kv)) (posts b)).

(** The two loops of [build]: the posts of every collection, then the
    pages. *)
Definition render_site (b : SiteBuilder) : build_outcome :=
  let posts_done :=
    if (0 <? total_posts b)%nat
    then render_places b (post_places (posts b)) []
    else Built b [] in
  match posts_done with
  | Built b written => render_places b (page_places (pages b)) written
  | Aborted written => Aborted written
  end.

End Render.

(** A main template that renders the content of the page *)
Definition main_plain : option (PageContext -> option string) :=
  Some (fun ctx => Some ("<main>" ++ content (pc_page ctx) ++ "</main>")).

(** A site with one post and the home page *)
Definition small_site : SiteBuilder :=
  {| config := empty_config;
     posts := [("code", [set_collection (set_url (dated "2024-01-01")
                                                  "code/hello/") "code"])];
     pages := [set_url (dated EmptyString) "/"] |}.

(** The output path of the record at a place *)
Definition path_at (b : SiteBuilder) (pl : place) : string :=
  match place_get b pl with
  | Some p => output_path_of pl p
  | None => EmptyString
  end.

(** The records of [b'] have the urls of the records of [b], place by
    place. *)
Definition same_urls (b b' : SiteBuilder) : Prop :=
  (forall pl, option_map url (place_get b' pl)
              = option_map url (place_get b pl))
  /\ length (pages b') = length (pages b).

(** A site with the collection [code], whose directory holds one file *)
Definition code_config : Config :=
  {| sections := ["code"]; rules := []; post_limit := 10 |}.

Definition code_site : SiteBuilder :=
  {| config := code_config; posts := init_posts code_config; pages := [] |}.

Definition code_tree (name : string) : option (list MdFile) :=
  if String.eqb name "code" then Some [md_file "hello" "Text"] else None.

(** ** Defaults without data: notions for [apply_defaults] *)

Module Defaults.
Import Heap.

(** [t[k1][k2]...] in the tree of the defaults *)
Fixpoint tree_lookup (t : tree) (path : list string) : option tree :=
  match path with
  | [] => Some t
  | k :: rest =>
      match t with
      | TAtom _ => None
      | TDict items =>
          match PyDict.get items k with
          | Some sub => tree_lookup sub rest
          | None => None
          end
      end
  end.

(** The tree is the value of a dict: at every level no key twice. *)
#[warnings="-register-all"] Inductive wf_tree : tree -> Prop :=
| wf_atom (a : string) : wf_tree (TAtom a)
| wf_dict (items : list (string * tree)) :
    List.NoDup (map fst items) ->
    Forall (fun kv => wf_tree (snd kv)) items ->
    wf_tree (TDict items).

(** What is found in the heap is what is found in the tree: the same
    scalar, a dict for a dict, nothing for nothing. *)
Definition same_shape (t : option tree) (v : option value) : Prop :=
  match t with
  | Some (TAtom a) => v = Some (VAtom a)
  | Some (TDict _) => exists l, v = Some (VRef l)
  | None => v = None
  end.

(** The value [v] in the heap [h] has the entries of the tree [t], at
    every depth, and no others. *)
Definition represents (h : heap) (v : value) (t : tree) : Prop :=
  forall path, same_shape (tree_lookup t path) (lookup_path h v path).

(** ... and this rests on the objects from location [n] on only. *)
Definition stable_rep (n : nat) (h : heap) (v : value) (t : tree) : Prop :=
  forall h'' : heap,
    (forall l', n <= l' < length h -> h'' !! l' = h !! l') ->
    represents h'' v t.

(** The object [o] holds the entries of [done], and no others. *)
Definition merged_so_far (n : nat) (h : heap) (done : list (string * tree))
           (o : object) : Prop :=
  forall k,
    match PyDict.get done k with
    | Some (TAtom a) => PyDict.get o k = Some (VAtom a)
    | Some (TDict sub) =>
        exists lk, PyDict.get o k = Some (VRef lk)
                   /\ stable_rep n h (VRef lk) (TDict sub)
    | None => PyDict.get o k = None
    end.

(** What [deep_merge] does to a new, empty dict at [l]: it returns; it
    leaves the other objects alone; the dict then has the entries of
    the tree, which rests on the dict and the objects made by the call. *)
Definition fresh_merge (t : tree) : Prop :=
  forall (h : heap) (l : nat),
    h !! l = Some [] ->
    match t with
    | TAtom _ => True
    | TDict _ =>
        exists h',
          deep_merge h (VRef l) t = Ret h' tt
          /\ length h <= length h'
          /\ (forall l', l' < length h -> l' <> l -> h' !! l' = h !! l')
          /\ (forall h'' : heap,
                 h'' !! l = h' !! l ->
                 (forall l', length h <= l' < length h' ->
                             h'' !! l' = h' !! l') ->
                 represents h'' (VRef l) t)
    end.

End Defaults.

(** A part of the default configuration *)
Definition default_tree : Heap.tree :=
  Heap.TDict
    [("post_limit", Heap.TAtom "10");
     ("base", Heap.TDict [("url", Heap.TAtom "localhost");
                          ("folder", Heap.TAtom EmptyString)]);
     ("links", Heap.TDict [])].

(** The tag [add_inline_code_classes] puts in the place of [<code>] *)
Definition INLINE_CODE_TAG : string :=
  "<code class=" ++ PyStr.dq ++ CSS_CLASS_LANGUAGE_PLAINTEXT ++ PyStr.dq ++ ">".

(** The record [collect_pages] makes of the file [md]: the home page at
    the root and without section, any other page under its stem, which
    is also its section. *)
Definition page_of_file (prog : program) (md : MdFile) (p : PostData) : Prop :=
  file_path p = path_str md
  /\ ((stem md = "home" /\ url p = "/" /\ section p = None)
      \/ (stem md <> "home"
          /\ url p = url_root prog ++ stem md ++ "/"
          /\ section p = Some (stem md))).


(** * Facts on strings *)

Lemma prefix_nil (s : string) : String.prefix EmptyString s = true.
Proof. destruct s; reflexivity. Qed.

Lemma prefix_app (p s : string) : String.prefix p (p ++ s) = true.
Proof.
  induction p as [|c p IH]; simpl.
  - apply prefix_nil.
  - destruct (ascii_dec c c); [exact IH | congruence].
Qed.

Lemma prefix_cons (a b : ascii) (p s : string) :
  String.prefix (String a p) (String b s) = Ascii.eqb a b && String.prefix p s.
Proof.
  simpl. destruct (ascii_dec a b) as [-> | Hne].
  - rewrite Ascii.eqb_refl. reflexivity.
  - apply Ascii.eqb_neq in Hne. rewrite Hne. reflexivity.
Qed.

Lemma append_nil_r (s : string) : s ++ EmptyString = s.
Proof. induction s; simpl; congruence. Qed.

Lemma append_assoc (a b c : string) : (a ++ b) ++ c = a ++ (b ++ c).
Proof. induction a; simpl; congruence. Qed.

Lemma str_length_app (a b : string) :
  String.length (a ++ b) = String.length a + String.length b.
Proof. induction a; simpl; congruence. Qed.

Lemma drop_app (p s : string) : PyStr.drop (String.length p) (p ++ s) = s.
Proof. induction p; simpl; [destruct s|]; auto. Qed.

(** A scan that owes [length p] characters consumes [p]. *)
Lemma replace_go_skip (old new p s : string) :
  PyStr.replace_go old new (String.length p) (p ++ s)
  = PyStr.replace_go old new 0 s.
Proof. induction p; simpl; auto. Qed.

(** [s.replace(old, new)] at an occurrence of [old] *)
Lemma replace_at_occurrence (old new s : string) :
  old <> EmptyString ->
  PyStr.replace old new (old ++ s) = new ++ PyStr.replace old new s.
Proof.
  destruct old as [|c p]; [congruence | intros _].
  unfold PyStr.replace.
  change (String c p ++ s) with (String c (p ++ s)).
  cbn [PyStr.replace_go].
  change (String c (p ++ s)) with (String c p ++ s).
  rewrite prefix_app.
  replace (String.length (String c p) - 1) with (String.length p)
    by (simpl; lia).
  now rewrite replace_go_skip.
Qed.

(** ... and at a position where [old] does not start *)
Lemma replace_at_other (old new : string) (c : ascii) (s : string) :
  old <> EmptyString ->
  String.prefix old (String c s) = false ->
  PyStr.replace old new (String c s) = String c (PyStr.replace old new s).
Proof.
  destruct old as [|d p]; [congruence | intros _ H].
  unfold PyStr.replace. cbn [PyStr.replace_go]. now rewrite H.
Qed.

Lemma contains_cons_false (p : string) (c : ascii) (s : string) :
  PyStr.contains p (String c s) = false ->
  String.prefix p (String c s) = false /\ PyStr.contains p s = false.
Proof. simpl PyStr.contains. intros H. now apply orb_false_iff in H. Qed.

Lemma contains_false_nonempty (p s : string) :
  PyStr.contains p s = false -> p <> EmptyString.
Proof.
  intros H ->. induction s as [|c s IH]; simpl in H; [discriminate|].
  discriminate.
Qed.

(** Nothing to replace: the text is returned as it is. *)
Lemma replace_absent (old new s : string) :
  PyStr.contains old s = false -> PyStr.replace old new s = s.
Proof.
  intros H. pose proof (contains_false_nonempty _ _ H) as Hne.
  induction s as [|c s IH].
  - destruct old; [congruence | reflexivity].
  - apply contains_cons_false in H as [Hp Hc].
    rewrite replace_at_other by assumption. now rewrite IH.
Qed.


(** * Facts on dictionaries *)

Lemma dict_get_set {V} (d : PyDict.dict V) (k k' : string) (v : V) :
  PyDict.get (PyDict.set d k v) k'
  = if String.eqb k k' then Some v else PyDict.get d k'.
Proof.
  induction d as [|[k0 v0] d IH]; simpl.
  - reflexivity.
  - destruct (String.eqb_spec k0 k) as [-> | Hne]; simpl.
    + now destruct (String.eqb k k').
    + rewrite IH. destruct (String.eqb_spec k0 k') as [-> | Hne']; [|reflexivity].
      destruct (String.eqb_spec k k'); congruence.
Qed.

Lemma dict_get_set_eq {V} (d : PyDict.dict V) (k : string) (v : V) :
  PyDict.get (PyDict.set d k v) k = Some v.
Proof. now rewrite dict_get_set, String.eqb_refl. Qed.

(** * Facts on the scanner *)

Section RegexFacts.
Context {G : Type}.
Variable m : string -> option (G * nat).

Lemma re_scan_skip (p s : string) :
  re_scan m (String.length p) (p ++ s) = re_scan m 0 s.
Proof. induction p; simpl; auto. Qed.

Lemma re_search_cons (c : ascii) (s : string) :
  re_search m (String c s) = false ->
  m (String c s) = None /\ re_search m s = false.
Proof.
  cbn [re_search]. destruct (m (String c s)); [discriminate | auto].
Qed.

(** Without a match the scan yields the text itself. *)
Lemma re_scan_absent (s : string) :
  re_search m s = false -> re_scan m 0 s = lits s.
Proof.
  induction s as [|c s IH]; intros H; [reflexivity|].
  apply re_search_cons in H as [Hm Hs].
  cbn [re_scan lits]. rewrite Hm. now rewrite IH.
Qed.

Lemma re_sub_pieces_lits {St} (f : G -> St -> string * St)
      (s : string) (st : St) :
  re_sub_pieces f (lits s) st = (s, st).
Proof. induction s as [|c s IH]; simpl; [|rewrite IH]; reflexivity. Qed.

Lemma re_sub_absent {St} (f : G -> St -> string * St) (s : string) (st : St) :
  re_search m s = false -> re_sub m f s st = (s, st).
Proof.
  intros H. unfold re_sub. rewrite re_scan_absent by assumption.
  apply re_sub_pieces_lits.
Qed.

(** At a match the callback runs once and the scan resumes behind it. *)
Lemma re_scan_match (c : ascii) (p s : string) (g : G) :
  m (String c p ++ s) = Some (g, S (String.length p)) ->
  re_scan m 0 (String c p ++ s) = Hit g :: re_scan m 0 s.
Proof.
  intros H. change (String c p ++ s) with (String c (p ++ s)) in *.
  cbn [re_scan]. rewrite H.
  replace (S (String.length p) - 1) with (String.length p) by lia.
  now rewrite re_scan_skip.
Qed.

Lemma re_scan_other (c : ascii) (s : string) :
  m (String c s) = None ->
  re_scan m 0 (String c s) = Lit c :: re_scan m 0 s.
Proof. intros H. cbn [re_scan]. now rewrite H. Qed.

(** A callback whose text does not depend on the state splices. *)
Lemma re_sub_pieces_splice {St} (r : G -> string) (u : G -> St -> St)
      (ps : list piece) (st : St) :
  fst (re_sub_pieces (fun g st => (r g, u g st)) ps st) = splice r ps.
Proof.
  revert st. induction ps as [|[c|g] ps IH]; intros st; simpl.
  - reflexivity.
  - specialize (IH st). destruct (re_sub_pieces _ ps st). simpl in *.
    now rewrite IH.
  - specialize (IH (u g st)). destruct (re_sub_pieces _ ps (u g st)).
    simpl in *. now rewrite IH.
Qed.

Lemma re_sub_trace_map {St} (r : G -> string) (u : G -> St -> St)
      (ps : list piece) (st : St) :
  re_sub_trace (fun g st => (r g, u g st)) ps st = map r (hits_of ps).
Proof.
  revert st. induction ps as [|[c|g] ps IH]; intros st; simpl; auto.
  now rewrite IH.
Qed.

End RegexFacts.

(** * Numbered shortcodes *)

Lemma example_placeholder_inj (a b : string) :
  example_placeholder a = example_placeholder b -> a = b.
Proof. unfold example_placeholder. simpl. intros H. now inversion H. Qed.

Lemma replace_example_eta :
  replace_example
  = fun g d => (example_block g,
                PyDict.set d (example_placeholder g) ("example:" ++ g)).
Proof. reflexivity. Qed.

(** An entry written for an id survives the rest of the scan: a later
    write to the same token writes the same kind. *)
Lemma example_entry_kept (ps : list (@piece string)) (d : directives)
      (example_id : string) :
  PyDict.get d (example_placeholder example_id)
  = Some ("example:" ++ example_id) ->
  PyDict.get (snd (re_sub_pieces replace_example ps d))
             (example_placeholder example_id)
  = Some ("example:" ++ example_id).
Proof.
  revert d. induction ps as [|[c|g] ps IH]; intros d H; simpl.
  - exact H.
  - specialize (IH d H). now destruct (re_sub_pieces replace_example ps d).
  - match goal with |- context [re_sub_pieces replace_example ps ?d1] =>
      specialize (IH d1) end.
    destruct (re_sub_pieces replace_example ps _) as [out d2]. simpl in *.
    apply IH. rewrite dict_get_set.
    destruct (String.eqb _ _) eqn:E; [|exact H].
    apply String.eqb_eq in E. apply example_placeholder_inj in E. now subst.
Qed.

Lemma example_entries (ps : list (@piece string)) (d : directives)
      (example_id : string) :
  In example_id (hits_of ps) ->
  PyDict.get (snd (re_sub_pieces replace_example ps d))
             (example_placeholder example_id)
  = Some ("example:" ++ example_id).
Proof.
  revert d. induction ps as [|[c|g] ps IH]; intros d H; simpl in *.
  - contradiction.
  - specialize (IH d H). now destruct (re_sub_pieces replace_example ps d).
  - pose proof (example_entry_kept ps
        (PyDict.set d (example_placeholder g) ("example:" ++ g))) as K.
    match goal with |- context [re_sub_pieces replace_example ps ?d1] =>
      specialize (IH d1) end.
    destruct (re_sub_pieces replace_example ps _) as [out d2]. simpl in *.
    destruct H as [-> | H]; [|now apply IH].
    apply K. apply dict_get_set_eq.
Qed.


(** The pattern recognises a shortcode at the head of the text, whatever
    follows the bracket. *)
Lemma span_digits_bracket (ds rest : string) :
  (forall c, In c (list_ascii_of_string ds) -> PyStr.is_digit c = true) ->
  PyStr.span PyStr.is_digit (ds ++ String "]"%char rest)
  = (ds, String "]"%char rest).
Proof.
  induction ds as [|c ds IH]; intros H.
  - reflexivity.
  - cbn [append PyStr.span]. rewrite (H c) by (left; reflexivity).
    rewrite IH; [reflexivity|]. intros c' Hc'. apply H. now right.
Qed.

Lemma example_pattern_matches (ds rest : string) :
  ds <> EmptyString ->
  (forall c, In c (list_ascii_of_string ds) -> PyStr.is_digit c = true) ->
  PATTERN_EXAMPLE_SHORTCODE ("[example:" ++ ds ++ "]" ++ rest)
  = Some (ds, S (String.length ("example:" ++ ds ++ "]"))).
Proof.
  intros Hne Hd. unfold PATTERN_EXAMPLE_SHORTCODE.
  rewrite prefix_app.
  change 9 with (String.length "[example:") at 1. rewrite drop_app.
  change ("]" ++ rest) with (String "]"%char rest).
  rewrite span_digits_bracket by assumption.
  destruct ds as [|c ds]; [congruence|].
  f_equal. f_equal. rewrite !str_length_app. simpl. lia.
Qed.

(** Reading of [extract_example_shortcodes] at a shortcode: the block for
    its id, the entry for its id, and the scan goes on behind it. *)
Lemma extract_example_at_shortcode (ds rest : string) (d : directives) :
  ds <> EmptyString ->
  (forall c, In c (list_ascii_of_string ds) -> PyStr.is_digit c = true) ->
  extract_example_shortcodes ("[example:" ++ ds ++ "]" ++ rest) d
  = let (out, d') :=
      extract_example_shortcodes rest
        (PyDict.set d (example_placeholder ds) ("example:" ++ ds)) in
    (example_block ds ++ out, d').
Proof.
  intros Hne Hd. unfold extract_example_shortcodes, re_sub.
  pose proof (example_pattern_matches ds rest Hne Hd) as M.
  assert (E : "[example:" ++ ds ++ "]" ++ rest
              = String "["%char ("example:" ++ ds ++ "]") ++ rest)
    by (simpl; now rewrite append_assoc).
  rewrite E in M |- *.
  rewrite (re_scan_match _ _ _ _ _ M).
  cbn [re_sub_pieces replace_example].
  destruct (re_sub_pieces replace_example _ _). reflexivity.
Qed.

(** Away from a shortcode the character is kept. *)
Lemma extract_example_at_other (c : ascii) (s : string) (d : directives) :
  PATTERN_EXAMPLE_SHORTCODE (String c s) = None ->
  extract_example_shortcodes (String c s) d
  = let (out, d') := extract_example_shortcodes s d in (String c out, d').
Proof.
  intros H. unfold extract_example_shortcodes, re_sub.
  rewrite re_scan_other by assumption. reflexivity.
Qed.




(** * The protector on plain text *)

Lemma extract_include_absent (trim plain token kind content : string)
      (d : directives) :
  PyStr.contains trim content = false ->
  PyStr.contains plain content = false ->
  extract_include trim plain token kind (content, d) = (content, d).
Proof. intros H1 H2. unfold extract_include. now rewrite H1, H2. Qed.

Lemma no_construct_inv (content : string) :
  has_protected_construct content = false ->
  Forall (fun marker => PyStr.contains marker content = false) include_markers
  /\ re_search PATTERN_EXAMPLE_SHORTCODE content = false
  /\ re_search PATTERN_MERMAID_BLOCK content = false.
Proof.
  unfold has_protected_construct. intros H.
  apply orb_false_iff in H as [H Hm]. apply orb_false_iff in H as [Hi He].
  repeat split; try assumption.
  apply Forall_forall. intros marker Hin.
  destruct (PyStr.contains marker content) eqn:E; [|reflexivity].
  assert (existsb (fun marker => PyStr.contains marker content) include_markers
          = true) as K; [|congruence].
  apply existsb_exists. exists marker. split; [|exact E].
  exact Hin.
Qed.




(** * Feature flags *)

Lemma dict_update_keeps_key {V} (d other : PyDict.dict V) (k : string) :
  is_Some (PyDict.get d k) -> is_Some (PyDict.get (PyDict.update d other) k).
Proof.
  unfold PyDict.update. revert d.
  induction other as [|[k0 v0] other IH]; intros d H; simpl; [exact H|].
  apply IH. rewrite dict_get_set. destruct (String.eqb k0 k); [eauto | exact H].
Qed.

Lemma apply_rule_keeps_key (file_path_str : string) (d : PyDict.dict bool)
      (rule : Rule) (k : string) :
  is_Some (PyDict.get d k) ->
  is_Some (PyDict.get (apply_rule file_path_str d rule) k).
Proof.
  intros H. unfold apply_rule.
  destruct (_ && _); [|exact H].
  destruct (features rule); [|exact H]. now apply dict_update_keeps_key.
Qed.

(** The key [toc] is in the path defaults whatever the rules are: the
    initial dict has it and no rule removes a key. *)
Lemma path_defaults_has_toc (cfg : Config) (file_path_str : string) :
  is_Some (PyDict.get (_get_path_defaults cfg file_path_str) "toc").
Proof.
  unfold _get_path_defaults.
  assert (H : is_Some (PyDict.get path_defaults_init "toc")) by (simpl; eauto).
  revert H. generalize path_defaults_init.
  induction (rules cfg) as [|rule rs IH]; intros d H; simpl; [exact H|].
  apply IH. now apply apply_rule_keeps_key.
Qed.

(** So the third tier of the [toc] lookup is dead code. *)
Lemma toc_default_unused (cfg : Config) (file_path_str : string)
      (is_post : bool) :
  PyDict.get_default (_get_path_defaults cfg file_path_str) "toc" is_post
  = PyDict.get_default (_get_path_defaults cfg file_path_str) "toc" false.
Proof.
  unfold PyDict.get_default.
  destruct (path_defaults_has_toc cfg file_path_str) as [b ->]. reflexivity.
Qed.

Section Flags.
Variable Lexer : Type.
Variable get_lexer_by_name : string -> option Lexer.
Variable highlight : string -> Lexer -> option string.
Variable markdown : string -> string.

Abbreviation parse := (parse_markdown_file Lexer get_lexer_by_name highlight markdown).

(** The first tier: a [toc] key of the frontmatter decides. *)
Lemma toc_frontmatter_wins (cfg : Config) (file_path_str : string)
      (is_post : bool) (post : Post) (b : bool) :
  fm_toc post = Some b ->
  option_map toc (parse cfg file_path_str is_post (Some post)) = Some b.
Proof.
  intros H. unfold parse_markdown_file.
  destruct (process_markdown_content _ _ _ _ _). simpl. now rewrite H.
Qed.

(** The second tier: without the key, the path defaults decide. *)
Lemma toc_path_default (cfg : Config) (file_path_str : string)
      (is_post : bool) (post : Post) :
  fm_toc post = None ->
  option_map toc (parse cfg file_path_str is_post (Some post))
  = PyDict.get (_get_path_defaults cfg file_path_str) "toc".
Proof.
  intros H. unfold parse_markdown_file.
  destruct (process_markdown_content _ _ _ _ _). simpl. rewrite H. simpl.
  unfold PyDict.get_default.
  now destruct (path_defaults_has_toc cfg file_path_str) as [b ->].
Qed.

(** A matching rule that sets [toc: true] and comes last gives [true]. *)
Lemma toc_rule_default (cfg : Config) (rs : list Rule) (rule : Rule)
      (f : PyDict.dict bool) (file_path_str : string) (is_post : bool)
      (post : Post) :
  rules cfg = (rs ++ [rule])%list ->
  scope_path rule <> EmptyString ->
  PyStr.contains (scope_path rule) file_path_str = true ->
  features rule = Some f ->
  PyDict.get f "toc" = Some true ->
  (forall k v1 v2, In (k, v1) f -> In (k, v2) f -> v1 = v2) ->
  fm_toc post = None ->
  option_map toc (parse cfg file_path_str is_post (Some post)) = Some true.
Proof.
  intros Hr Hs Hc Hf Ht Hu Hfm. rewrite toc_path_default by assumption.
  unfold _get_path_defaults. rewrite Hr, fold_left_app. simpl.
  unfold apply_rule at 1. rewrite Hc, Hf.
  apply String.eqb_neq in Hs. rewrite Hs. simpl.
  generalize (fold_left (apply_rule file_path_str) rs path_defaults_init).
  unfold PyDict.update. clear -Ht Hu.
  assert (G : forall d : PyDict.dict bool,
             PyDict.get d "toc" = Some true \/ PyDict.get f "toc" = Some true ->
             (forall v, In ("toc", v) f -> v = true) ->
             PyDict.get (fold_left (fun acc kv => PyDict.set acc (fst kv) (snd kv))
                                   f d) "toc" = Some true).
  { clear. induction f as [|[k v] f IH]; intros d [H|H] Hv; simpl in *.
    - exact H.
    - discriminate.
    - apply IH; [|intros; apply Hv; now right].
      left. rewrite dict_get_set. destruct (String.eqb_spec k "toc") as [->|]; [|exact H].
      f_equal. apply Hv. now left.
    - apply IH; [|intros; apply Hv; now right].
      destruct (String.eqb_spec k "toc") as [-> | Hne].
      + left. rewrite dict_get_set_eq. f_equal. apply Hv. now left.
      + right. exact H. }
  intros d. apply G; [now right|].
  intros v Hv. clear G.
  assert (In ("toc", true) f) as Hin.
  { clear -Ht. induction f as [|[k v] f IH]; simpl in *; [discriminate|].
    destruct (String.eqb_spec k "toc") as [->|]; [left; congruence | right; auto]. }
  exact (Hu _ _ _ Hv Hin).
Qed.

(** The [sidebar] flag has two tiers only: the frontmatter value, else
    [true]; no rule is read for it. *)
Lemma sidebar_ignores_rules (cfg : Config) (file_path_str : string)
      (is_post : bool) (post : Post) :
  option_map sidebar (parse cfg file_path_str is_post (Some post))
  = Some (fm_get (fm_sidebar post) true).
Proof.
  unfold parse_markdown_file.
  now destruct (process_markdown_content _ _ _ _ _).
Qed.

(** C1, the post default: [parse_markdown_file] resolves a post exactly as
    it resolves a page, its [is_post] argument being read only as the
    default of a lookup that always finds its key; so a post whose
    frontmatter omits [toc], under a configuration without rules,
    resolves [toc] to [false], where the hardcoded post default is
    [true]. *)
Theorem C1_post_toc_default_unreachable (cfg : Config)
        (file_path_str : string) (loaded : option Post) (post : Post) :
  parse cfg file_path_str true loaded = parse cfg file_path_str false loaded
  /\ option_map toc
       (parse (without_rules cfg) file_path_str true (Some (omit_toc post)))
     = Some false.
Proof.
  split.
  - unfold parse_markdown_file. destruct loaded as [p|]; [|reflexivity].
    destruct (process_markdown_content _ _ _ _ _).
    now rewrite (toc_default_unused cfg file_path_str true).
  - now rewrite toc_path_default by reflexivity.
Qed.

End Flags.


(** * The order of posts *)

Lemma string_compare_refl (s : string) : String.compare s s = Eq.
Proof.
  induction s as [|a s IH]; simpl; [reflexivity|].
  unfold Ascii.compare. now rewrite N.compare_refl.
Qed.

Lemma string_lt_trans (s1 s2 s3 : string) :
  String.compare s1 s2 = Lt -> String.compare s2 s3 = Lt ->
  String.compare s1 s3 = Lt.
Proof.
  revert s2 s3. induction s1 as [|a s1 IH]; intros [|b s2] [|c s3]; simpl;
    try discriminate; auto.
  unfold Ascii.compare.
  destruct (N.compare_spec (N_of_ascii a) (N_of_ascii b)) as [E1|L1|G1];
    try discriminate;
  destruct (N.compare_spec (N_of_ascii b) (N_of_ascii c)) as [E2|L2|G2];
    try discriminate; intros H1 H2.
  - rewrite E1, E2, N.compare_refl. eauto.
  - rewrite E1. now apply N.compare_lt_iff in L2 as ->.
  - rewrite <- E2. now apply N.compare_lt_iff in L1 as ->.
  - assert (L : (N_of_ascii a < N_of_ascii c)%N) by lia.
    now apply N.compare_lt_iff in L as ->.
Qed.

Lemma string_leb_iff (s1 s2 : string) :
  String.leb s1 s2 = true <-> s1 = s2 \/ String.compare s1 s2 = Lt.
Proof.
  unfold String.leb. split.
  - destruct (String.compare s1 s2) eqn:E; try discriminate; auto.
    left. now apply String.compare_eq_iff.
  - intros [-> | ->]; [now rewrite string_compare_refl | reflexivity].
Qed.

Lemma string_leb_trans (s1 s2 s3 : string) :
  String.leb s1 s2 = true -> String.leb s2 s3 = true ->
  String.leb s1 s3 = true.
Proof.
  rewrite !string_leb_iff. intros [-> | H1] [-> | H2]; auto.
  right. eapply string_lt_trans; eassumption.
Qed.

Lemma string_ltb_leb (s1 s2 : string) :
  String.ltb s1 s2 = true -> String.leb s1 s2 = true.
Proof. unfold String.ltb, String.leb. now destruct (String.compare s1 s2). Qed.

Lemma string_nltb_leb (s1 s2 : string) :
  String.ltb s1 s2 = false -> String.leb s2 s1 = true.
Proof.
  unfold String.ltb, String.leb. rewrite (String.compare_antisym s2 s1).
  now destruct (String.compare s1 s2).
Qed.

Lemma string_ltb_neq (s1 s2 : string) : String.ltb s1 s2 = true -> s1 <> s2.
Proof.
  unfold String.ltb. intros H ->. now rewrite string_compare_refl in H.
Qed.

Lemma insert_desc_perm (x : PostData) (l : list PostData) :
  Permutation (insert_desc x l) (x :: l).
Proof.
  induction l as [|y l IH]; simpl; [reflexivity|].
  destruct (String.ltb (date x) (date y)); [|reflexivity].
  rewrite IH. apply perm_swap.
Qed.

Lemma sort_by_date_desc_perm (l : list PostData) :
  Permutation (sort_by_date_desc l) l.
Proof.
  induction l as [|x l IH]; simpl; [reflexivity|].
  rewrite insert_desc_perm. now rewrite IH.
Qed.

Lemma insert_desc_sorted (x : PostData) (l : list PostData) :
  date_desc l -> date_desc (insert_desc x l).
Proof.
  unfold date_desc. induction 1 as [|y l Hs IH Hy]; simpl.
  - repeat constructor.
  - destruct (String.ltb (date x) (date y)) eqn:E.
    + constructor; [exact IH|].
      rewrite insert_desc_perm. constructor; [|exact Hy].
      now apply string_ltb_leb.
    + apply string_nltb_leb in E. constructor.
      * now constructor.
      * constructor; [exact E|].
        eapply Forall_impl; [|exact Hy]. simpl. intros z Hz.
        eapply string_leb_trans; eassumption.
Qed.

Lemma sort_by_date_desc_sorted (l : list PostData) :
  date_desc (sort_by_date_desc l).
Proof.
  induction l as [|x l IH]; simpl; [constructor|].
  now apply insert_desc_sorted.
Qed.

Lemma insert_desc_ties (d : string) (x : PostData) (l : list PostData) :
  ties d (insert_desc x l) = ties d (x :: l).
Proof.
  induction l as [|y l IH]; [reflexivity|].
  cbn [insert_desc]. destruct (String.ltb (date x) (date y)) eqn:E;
    [|reflexivity].
  apply string_ltb_neq in E.
  unfold ties in *. cbn [List.filter] in *. rewrite IH.
  destruct (String.eqb_spec (date x) d), (String.eqb_spec (date y) d);
    congruence.
Qed.

(** The sort is stable: posts of one date keep their order. *)
Lemma sort_by_date_desc_stable (d : string) (l : list PostData) :
  ties d (sort_by_date_desc l) = ties d l.
Proof.
  induction l as [|x l IH]; [reflexivity|].
  cbn [sort_by_date_desc fold_right]. rewrite insert_desc_ties.
  fold (sort_by_date_desc l). unfold ties in *. cbn [List.filter].
  now rewrite IH.
Qed.

Lemma sort_store_In (store : PyDict.dict (list PostData)) (name : string)
      (l : list PostData) :
  In (name, l) (sort_store store) ->
  exists discovered,
    In (name, discovered) store /\ l = sort_by_date_desc discovered.
Proof.
  unfold sort_store. intros H. apply in_map_iff in H as [[k v] [E H]].
  simpl in E. inversion E. subst. eauto.
Qed.

Section Ordering.
Variable prog : program.
Variable Lexer : Type.
Variable get_lexer_by_name : string -> option Lexer.
Variable highlight : string -> Lexer -> option string.
Variable markdown : string -> string.


End Ordering.


(** * The section of a page *)

Lemma split_not_nil (c : ascii) (s : string) : PyStr.split c s <> [].
Proof.
  induction s as [|a s IH]; simpl; [discriminate|].
  destruct (Ascii.eqb a c); [discriminate|].
  destruct (PyStr.split c s); discriminate.
Qed.

Lemma last_char_cons (a : ascii) (s : string) :
  last_char (String a s)
  = match s with EmptyString => Some a | _ => last_char s end.
Proof. reflexivity. Qed.

(** An empty last segment: the text is empty or ends with the separator. *)
Lemma split_last_empty (c : ascii) (s : string) :
  List.last (PyStr.split c s) EmptyString = EmptyString ->
  s = EmptyString \/ last_char s = Some c.
Proof.
  induction s as [|a s IH]; [now left|]. intros H. right.
  cbn [PyStr.split] in H. rewrite last_char_cons.
  destruct (Ascii.eqb_spec a c) as [->|Hne].
  - pose proof (split_not_nil c s) as Hn.
    destruct (PyStr.split c s) as [|y ys] eqn:E; [congruence|].
    change (List.last (y :: ys) EmptyString = EmptyString) in H.
    destruct (IH H) as [->|Hl]; [reflexivity|].
    destruct s; [discriminate | exact Hl].
  - destruct (PyStr.split c s) as [|x [|y ys]] eqn:E.
    + now apply split_not_nil in E.
    + discriminate.
    + change (List.last (x :: y :: ys) EmptyString = EmptyString) in H.
      destruct (IH H) as [->|Hl]; [discriminate|].
      destruct s; [discriminate | exact Hl].
Qed.

Lemma rstrip_last_char (c : ascii) (s : string) :
  last_char (PyStr.rstrip c s) <> Some c.
Proof.
  induction s as [|a s IH]; [discriminate|].
  cbn [PyStr.rstrip].
  destruct (Ascii.eqb_spec a c) as [->|Hne];
    destruct (String.eqb_spec (PyStr.rstrip c s) EmptyString) as [E|E];
    cbn [andb]; try discriminate.
  - rewrite last_char_cons. destruct (PyStr.rstrip c s); [congruence | exact IH].
  - rewrite E. simpl. congruence.
  - rewrite last_char_cons. destruct (PyStr.rstrip c s); [congruence | exact IH].
Qed.

(** The derived section name is empty exactly when nothing is left of
    the url once its slashes are stripped. *)
Lemma url_last_segment_empty (page_data : PostData) :
  url_last_segment page_data = EmptyString
  <-> normalize_url_path (url page_data) = EmptyString.
Proof.
  unfold url_last_segment, normalize_url_path, PyStr.strip. split.
  - intros H. apply split_last_empty in H as [H|H]; [exact H|].
    now apply rstrip_last_char in H.
  - intros ->. reflexivity.
Qed.

Section Category.
Variable render_template : string -> Context -> option string.

Lemma category_section_name_unset (page_data : PostData) :
  section_unset page_data ->
  category_section_name page_data = url_last_segment page_data.
Proof. unfold category_section_name. now intros [-> | ->]. Qed.

Lemma render_directive_frame (b : SiteBuilder) (page_data : PostData)
      (directive_type : string) :
  same_but_section (fst (render_directive render_template b page_data
                                          directive_type)) page_data.
Proof.
  unfold render_directive.
  repeat (destruct (String.eqb _ _)); try (now repeat split).
  destruct (String.prefix _ _); [|now repeat split].
  destruct (PyStr.split _ _) as [|? [|? ?]]; now repeat split.
Qed.

Lemma same_but_section_trans (p q r : PostData) :
  same_but_section p q -> same_but_section q r -> same_but_section p r.
Proof. unfold same_but_section. intuition congruence. Qed.

(** The expansion loop writes no field but [section]. *)
Lemma expand_items_frame (b : SiteBuilder) (items : directives)
      (page_data : PostData) (html : string) :
  same_but_section (fst (expand_items render_template b items page_data html))
                   page_data.
Proof.
  revert page_data html.
  induction items as [|[placeholder kind] items IH]; intros page_data html.
  - now repeat split.
  - cbn [expand_items].
    pose proof (render_directive_frame b page_data kind) as F.
    destruct (render_directive render_template b page_data kind) as [p [r| |]];
      simpl in F.
    + eapply same_but_section_trans; [apply IH | exact F].
    + eapply same_but_section_trans; [apply IH | exact F].
    + exact F.
Qed.

(** C10, as amended: expanding a category directive for a page whose
    section field is unset writes the last segment of the page's
    normalized url into the section field of the page record; the
    written section is non-empty exactly when the normalized url is
    non-empty (it is empty for the home page, whose url is the single
    slash); neither the category expansion nor the whole expansion loop
    changes any other field of the page record. *)
Theorem C10_category_writes_section (b : SiteBuilder) (page_data : PostData) :
  section_unset page_data ->
  let page' := fst (_render_category_include render_template b page_data) in
  section page' = Some (url_last_segment page_data)
  /\ (section page' = Some EmptyString
      <-> normalize_url_path (url page_data) = EmptyString)
  /\ same_but_section page' page_data
  /\ same_but_section
       (fst (_process_include_directives render_template b page_data))
       page_data.
Proof.
  intros H page'. subst page'. unfold _render_category_include. cbn [fst].
  rewrite category_section_name_unset by assumption.
  cbn [set_section section]. split; [reflexivity|]. split; [|split].
  - split; intros E.
    + apply url_last_segment_empty. congruence.
    + f_equal. now apply url_last_segment_empty.
  - now repeat split.
  - apply expand_items_frame.
Qed.

End Category.

Lemma C10_category_writes_section_witness :
  section_unset (set_url (dated "2024-01-01") "code/hello/")
  /\ section (fst (_render_category_include render_fixed empty_site
                     (set_url (dated "2024-01-01") "code/hello/")))
     = Some "hello".
Proof.
  split; [now left|].
  apply (C10_category_writes_section render_fixed empty_site
           (set_url (dated "2024-01-01") "code/hello/")).
  now left.
Defined.

(** C10, as stated, fails: the home page has no section, its url is the
    single slash, and expanding its category directive leaves it with
    the empty section. *)
Lemma C10_home_page_section_empty :
  exists home,
    pages_of Publish [md_file "home" "{% include category.html %}"] = [home]
    /\ section home = None
    /\ PyDict.get (include_directives home) PLACEHOLDER_CATEGORY
       = Some "category"
    /\ section (fst (_process_include_directives render_fixed empty_site home))
       = Some EmptyString.
Proof. eexists. repeat split. Qed.


(** * Directive expansion *)

Section Expander.
Variable render_template : string -> Context -> option string.

Abbreviation render := (render_directive render_template).
Abbreviation expand := (expand_items render_template).

(** The dispatch skips exactly the kinds it does not recognise. *)
Lemma render_directive_skipped (b : SiteBuilder) (page_data : PostData)
      (kind : string) :
  recognised kind = false <-> render b page_data kind = (page_data, Skipped).
Proof.
  unfold recognised, render_directive, _render_category_include, of_render.
  destruct (String.eqb kind "posts");
    [ split; [discriminate | destruct (_render_posts_include _ _); discriminate] |].
  destruct (String.eqb kind "category");
    [ split; [discriminate | destruct (render_template _ _); discriminate] |].
  destruct (String.eqb kind "archive");
    [ split; [discriminate | destruct (_render_archive_include _ _); discriminate] |].
  destruct (String.prefix "example:" kind); [|now split].
  split; [discriminate|].
  destruct (PyStr.split _ _) as [|? [|? ?]]; discriminate.
Qed.

Lemma render_directive_skipped_inv (b : SiteBuilder) (page_data p : PostData)
      (kind : string) :
  render b page_data kind = (p, Skipped) ->
  recognised kind = false /\ p = page_data.
Proof.
  unfold recognised, render_directive, _render_category_include, of_render.
  destruct (String.eqb kind "posts");
    [destruct (_render_posts_include _ _); discriminate|].
  destruct (String.eqb kind "category");
    [destruct (render_template _ _); discriminate|].
  destruct (String.eqb kind "archive");
    [destruct (_render_archive_include _ _); discriminate|].
  destruct (String.prefix "example:" kind).
  - destruct (PyStr.split _ _) as [|? [|? ?]]; discriminate.
  - intros H. inversion H. now split.
Qed.

Lemma expand_skip (b : SiteBuilder) (placeholder kind : string)
      (rest : directives) (page_data : PostData) (html : string) :
  recognised kind = false ->
  expand b ((placeholder, kind) :: rest) page_data html
  = expand b rest page_data html.
Proof.
  intros H. apply (render_directive_skipped b page_data) in H.
  cbn [expand_items]. now rewrite H.
Qed.

(** Entries of unrecognised kind play no part in the expansion. *)
Lemma expand_filter (b : SiteBuilder) (items : directives)
      (page_data : PostData) (html : string) :
  expand b items page_data html
  = expand b (List.filter (fun e => recognised (snd e)) items) page_data html.
Proof.
  revert page_data html.
  induction items as [|[placeholder kind] items IH]; intros page_data html;
    [reflexivity|].
  cbn [List.filter snd]. destruct (recognised kind) eqn:E.
  - cbn [expand_items]. destruct (render b page_data kind) as [p [r| |]];
      [apply IH | apply IH | reflexivity].
  - rewrite expand_skip by assumption. apply IH.
Qed.


End Expander.

(** Both forms at work: a paragraph-wrapped token and a bare one, each
    replaced by the block of the posts template. *)
Example expand_both_forms :
  snd (_process_include_directives render_fixed empty_site
         (set_url
            {| content := "<p>INCLUDE_POSTS_PLACEHOLDER</p> and <em>INCLUDE_POSTS_PLACEHOLDER</em>";
               title := EmptyString; date := EmptyString; comments := false;
               mermaid := false; codepen := false; toc := false;
               banner := false; sidebar := true; url := EmptyString;
               file_path := EmptyString;
               include_directives :=
                 [("INCLUDE_POSTS_PLACEHOLDER", "posts");
                  ("FUTURE_PLACEHOLDER", "future")];
               collection := None; section := None |} "/"))
  = Some "<ul>posts.html</ul> and <em><ul>posts.html</ul></em>".
Proof. reflexivity. Qed.


(** * Occurrences across a replacement *)

Lemma prefix_empty_r (p : string) :
  String.prefix p EmptyString = true -> p = EmptyString.
Proof. now destruct p. Qed.

Lemma contains_cons (p : string) (a : ascii) (s : string) :
  PyStr.contains p (String a s)
  = String.prefix p (String a s) || PyStr.contains p s.
Proof. reflexivity. Qed.

Lemma contains_app_r (p t s : string) :
  PyStr.contains p s = true -> PyStr.contains p (t ++ s) = true.
Proof.
  intros H. induction t as [|a t IH]; [exact H|].
  cbn [append]. rewrite contains_cons, IH. apply orb_true_r.
Qed.

(** Two prefixes of one text: one is a prefix of the other. *)
Lemma two_prefixes (a b s : string) :
  String.prefix a s = true -> String.prefix b s = true ->
  String.prefix a b = true \/ String.prefix b a = true.
Proof.
  revert b s. induction a as [|x a IH]; intros b s Ha Hb.
  - left. apply prefix_nil.
  - destruct b as [|y b]; [right; reflexivity|].
    destruct s as [|z s]; [discriminate|].
    rewrite prefix_cons in Ha, Hb.
    apply andb_true_iff in Ha as [Exz Ha], Hb as [Eyz Hb].
    apply Ascii.eqb_eq in Exz, Eyz. subst.
    rewrite !prefix_cons, Ascii.eqb_refl. simpl. eauto.
Qed.

(** A pattern without the character [c] that is a prefix of [z ++ c ...]
    lies within [z]. *)
Lemma prefix_app_sep (c : ascii) (p z y : string) :
  char_free c p = true ->
  String.prefix p (z ++ String c y) = true -> String.prefix p z = true.
Proof.
  revert z. induction p as [|a p IH]; intros z Hf H; [apply prefix_nil|].
  cbn [char_free] in Hf. apply andb_true_iff in Hf as [Hac Hf].
  destruct z as [|b z]; cbn [append] in H; rewrite prefix_cons in H;
    apply andb_true_iff in H as [E H].
  - rewrite E in Hac. discriminate.
  - rewrite prefix_cons, E. simpl. now apply IH.
Qed.

Lemma contains_app_sep (c : ascii) (p x y : string) :
  char_free c p = true ->
  PyStr.contains p x = false -> PyStr.contains p y = false ->
  PyStr.contains p (x ++ String c y) = false.
Proof.
  intros Hf Hx Hy. induction x as [|a x IH].
  - cbn [append]. rewrite contains_cons, Hy, orb_false_r.
    destruct (String.prefix p (String c y)) eqn:E; [|reflexivity].
    apply (prefix_app_sep c p EmptyString y Hf) in E.
    apply prefix_empty_r in E. subst p. now destruct y.
  - apply contains_cons_false in Hx as [Hp Hx].
    cbn [append]. rewrite contains_cons, (IH Hx), orb_false_r.
    destruct (String.prefix p (String a (x ++ String c y))) eqn:E;
      [|reflexivity].
    apply (prefix_app_sep c p (String a x) y Hf) in E. congruence.
Qed.

Section Headed.
(** Two patterns that begin with the character [c] and have it nowhere
    else, neither a prefix of the other: replacing the occurrences of
    one leaves the occurrences of the other in place. *)
Variable c : ascii.
Variables o' m' t : string.
Hypothesis o_free : char_free c o' = true.
Hypothesis m_free : char_free c m' = true.
Hypothesis o_m : String.prefix (String c o') (String c m') = false.
Hypothesis m_o : String.prefix (String c m') (String c o') = false.

Lemma prefix_replace_free (p s : string) :
  char_free c p = true -> String.prefix p s = true ->
  String.prefix p (PyStr.replace_go (String c o') t 0 s) = true.
Proof using Type.
  revert s. induction p as [|a p IH]; intros s Hf H; [apply prefix_nil|].
  cbn [char_free] in Hf. apply andb_true_iff in Hf as [Hac Hf].
  destruct s as [|b s]; [discriminate|].
  rewrite prefix_cons in H. apply andb_true_iff in H as [E H].
  apply Ascii.eqb_eq in E. subst b.
  cbn [PyStr.replace_go]. rewrite prefix_cons.
  rewrite Ascii.eqb_sym. apply negb_true_iff in Hac. rewrite Hac. cbn [andb].
  rewrite prefix_cons, Ascii.eqb_refl. cbn [andb]. now apply IH.
Qed.

Lemma contains_behind_match (q s : string) :
  char_free c q = true -> String.prefix q s = true ->
  PyStr.contains (String c m') s = true ->
  PyStr.contains (String c m') (PyStr.drop (String.length q) s) = true.
Proof using Type.
  revert s. induction q as [|a q IH]; intros s Hf H Hc; [exact Hc|].
  cbn [char_free] in Hf. apply andb_true_iff in Hf as [Hac Hf].
  destruct s as [|b s]; [discriminate|].
  rewrite prefix_cons in H. apply andb_true_iff in H as [E H].
  apply Ascii.eqb_eq in E. subst b.
  rewrite contains_cons, prefix_cons in Hc.
  rewrite Ascii.eqb_sym in Hc. apply negb_true_iff in Hac.
  rewrite Hac in Hc. cbn [andb orb] in Hc.
  cbn [String.length PyStr.drop]. now apply IH.
Qed.

Lemma contains_replace_go (s : string) (skip : nat) :
  PyStr.contains (String c m') (PyStr.drop skip s) = true ->
  PyStr.contains (String c m') (PyStr.replace_go (String c o') t skip s) = true.
Proof using All.
  revert skip. induction s as [|a s IH]; intros skip H.
  - destruct skip; discriminate.
  - destruct skip as [|k]; [|now apply IH].
    cbn [PyStr.drop] in H. cbn [PyStr.replace_go].
    rewrite contains_cons in H.
    destruct (String.prefix (String c o') (String a s)) eqn:Eo.
    + apply contains_app_r.
      replace (String.length (String c o') - 1) with (String.length o')
        by (simpl; lia).
      apply IH.
      destruct (String.prefix (String c m') (String a s)) eqn:Em.
      * destruct (two_prefixes _ _ _ Eo Em); congruence.
      * rewrite prefix_cons in Eo. apply andb_true_iff in Eo as [_ Eo].
        now apply contains_behind_match.
    + rewrite contains_cons.
      destruct (String.prefix (String c m') (String a s)) eqn:Em.
      * rewrite prefix_cons in Em |- *. apply andb_true_iff in Em as [E Em].
        rewrite E. cbn [andb]. rewrite prefix_replace_free by assumption.
        reflexivity.
      * cbn [orb] in H. rewrite (IH 0); [apply orb_true_r | exact H].
Qed.

Lemma contains_replace (s : string) :
  PyStr.contains (String c m') s = true ->
  PyStr.contains (String c m') (PyStr.replace (String c o') t s) = true.
Proof using All. intros H. now apply contains_replace_go. Qed.

End Headed.


(** * Include directives *)

(** The markers of one kind survive the replacement of the markers of
    another kind by its token. *)
Lemma has_marker_kept (k k' : include_kind) (token content : string) :
  k <> k' ->
  has_marker k content = true ->
  has_marker k (PyStr.replace (kind_plain k') token
                  (PyStr.replace (kind_trim k') token content)) = true.
Proof.
  intros Hne H. unfold has_marker in *.
  apply orb_true_iff in H. apply orb_true_iff.
  destruct H as [H|H]; [left | right];
    destruct k, k'; try congruence;
    repeat (apply (contains_replace "{"%char); [reflexivity .. |]); exact H.
Qed.

Ltac marker_kept :=
  repeat first
    [ assumption
    | apply (has_marker_kept _ KPosts PLACEHOLDER_POSTS); [congruence|]
    | apply (has_marker_kept _ KCategory PLACEHOLDER_CATEGORY); [congruence|]
    | apply (has_marker_kept _ KArchive PLACEHOLDER_ARCHIVE); [congruence|] ].

(** Whatever the number of markers of a kind, the mapping of the
    document holds one entry of that kind. *)
Lemma include_entry_recorded (k : include_kind) (content : string) :
  has_marker k content = true ->
  entries_of_kind (kind_name k) (snd (extract_include_directives content))
  = [(kind_token k, kind_name k)].
Proof.
  intros H. unfold extract_include_directives, extract_include.
  destruct (PyStr.contains INCLUDE_POSTS_TRIM content
            || PyStr.contains INCLUDE_POSTS_PLAIN content) eqn:C1;
  match goal with
  | |- context [PyStr.contains INCLUDE_CATEGORY_TRIM ?c
                || PyStr.contains INCLUDE_CATEGORY_PLAIN ?c] =>
      destruct (PyStr.contains INCLUDE_CATEGORY_TRIM c
                || PyStr.contains INCLUDE_CATEGORY_PLAIN c) eqn:C2
  end;
  match goal with
  | |- context [PyStr.contains INCLUDE_ARCHIVE_TRIM ?c
                || PyStr.contains INCLUDE_ARCHIVE_PLAIN ?c] =>
      destruct (PyStr.contains INCLUDE_ARCHIVE_TRIM c
                || PyStr.contains INCLUDE_ARCHIVE_PLAIN c) eqn:C3
  end;
  destruct k; try reflexivity; exfalso;
  repeat match goal with
         | C : _ || _ = true |- _ => clear C
         end;
  try (change (has_marker KPosts content = false) in C1; congruence);
  try (change (has_marker KCategory content = false) in C2; congruence);
  try (change (has_marker KArchive content = false) in C3; congruence);
  match goal with
  | C : PyStr.contains INCLUDE_CATEGORY_TRIM ?c || _ = false |- _ =>
      assert (X : has_marker KCategory c = true) by marker_kept;
      unfold has_marker in X; cbn [kind_trim kind_plain] in X; congruence
  | C : PyStr.contains INCLUDE_ARCHIVE_TRIM ?c || _ = false |- _ =>
      assert (X : has_marker KArchive c = true) by marker_kept;
      unfold has_marker in X; cbn [kind_trim kind_plain] in X; congruence
  end.
Qed.

(** * Texts made of copies *)

Lemma join_copies_step (sep x : string) (n : nat) :
  join sep (copies (S (S n)) x) = x ++ sep ++ join sep (copies (S n) x).
Proof. reflexivity. Qed.

Lemma replace_nil (old new : string) :
  old <> EmptyString -> PyStr.replace old new EmptyString = EmptyString.
Proof. now destruct old. Qed.

(** A stretch of text without the first character of the pattern is
    copied. *)
Lemma replace_free_prefix (c : ascii) (old' new a s : string) :
  char_free c a = true ->
  PyStr.replace (String c old') new (a ++ s)
  = a ++ PyStr.replace (String c old') new s.
Proof.
  intros H. induction a as [|x a IH]; [reflexivity|].
  cbn [char_free] in H. apply andb_true_iff in H as [Hx H].
  cbn [append]. rewrite replace_at_other; [now rewrite IH | discriminate |].
  rewrite prefix_cons, Ascii.eqb_sym. apply negb_true_iff in Hx.
  now rewrite Hx.
Qed.

(** Copies of the pattern, separated: every copy is replaced. *)
Lemma replace_join_copies (c : ascii) (old' new sep : string) (n : nat) :
  char_free c sep = true ->
  PyStr.replace (String c old') new (join sep (copies n (String c old')))
  = join sep (copies n new).
Proof.
  intros H. induction n as [|[|n] IH].
  - reflexivity.
  - change (join sep (copies 1 (String c old')))
      with (String c old').
    rewrite <- (append_nil_r (String c old')) at 2.
    rewrite replace_at_occurrence by discriminate.
    rewrite replace_nil by discriminate. apply append_nil_r.
  - rewrite !join_copies_step. rewrite replace_at_occurrence by discriminate.
    rewrite replace_free_prefix by assumption. now rewrite IH.
Qed.

Lemma contains_seps (p sep y : string) :
  p <> EmptyString -> sep_free sep p = true ->
  PyStr.contains p y = false -> PyStr.contains p (sep ++ y) = false.
Proof.
  intros Hp Hs Hy. induction sep as [|c sep IH]; [exact Hy|].
  cbn [sep_free] in Hs. apply andb_true_iff in Hs as [Hc Hs].
  apply (contains_app_sep c p EmptyString (sep ++ y) Hc); [|now apply IH].
  now destruct p.
Qed.

Lemma contains_join_copies (p sep x : string) (n : nat) :
  p <> EmptyString -> sep <> EmptyString -> sep_free sep p = true ->
  PyStr.contains p x = false ->
  PyStr.contains p (join sep (copies n x)) = false.
Proof.
  intros Hp Hne Hs Hx. induction n as [|[|n] IH].
  - now destruct p.
  - exact Hx.
  - rewrite join_copies_step.
    destruct sep as [|c sep]; [congruence|].
    cbn [sep_free] in Hs. apply andb_true_iff in Hs as [Hc Hs].
    cbn [append]. apply contains_app_sep; [assumption | assumption |].
    now apply contains_seps.
Qed.

Lemma contains_head (p s : string) : PyStr.contains p (p ++ s) = true.
Proof.
  destruct p as [|c p]; cbn [append].
  - destruct s; reflexivity.
  - rewrite contains_cons.
    change (String c (p ++ s)) with (String c p ++ s).
    now rewrite prefix_app.
Qed.

Lemma contains_join_head (sep x : string) (n : nat) :
  PyStr.contains x (join sep (copies (S n) x)) = true.
Proof.
  destruct n.
  - change (join sep (copies 1 x)) with x.
    rewrite <- (append_nil_r x) at 2. apply contains_head.
  - rewrite join_copies_step. apply contains_head.
Qed.

(** The paragraph-wrapped tokens of a page, one per line, become so many
    resolved blocks. *)
Lemma substitute_paragraphs (token rendered : string) (n : nat) :
  char_free "010"%char token = true ->
  PyStr.contains token rendered = false ->
  substitute token rendered (join PyStr.nl (copies n (paragraph token)))
  = join PyStr.nl (copies n rendered).
Proof.
  intros Hf Hc. unfold substitute.
  change (paragraph token) with (String "<"%char ("p>" ++ token ++ "</p>")).
  rewrite replace_join_copies by reflexivity.
  apply replace_absent. apply contains_join_copies; try assumption.
  - now apply contains_false_nonempty in Hc.
  - discriminate.
  - cbn [sep_free PyStr.nl]. now rewrite Hf.
Qed.

Lemma extract_include_fire (c : ascii) (trim plain' token kind sep : string)
      (n : nat) (d : directives) :
  trim <> EmptyString -> sep <> EmptyString ->
  sep_free sep trim = true -> char_free c sep = true ->
  PyStr.contains trim (String c plain') = false ->
  extract_include trim (String c plain') token kind
                  (join sep (copies (S n) (String c plain')), d)
  = (join sep (copies (S n) token), PyDict.set d token kind).
Proof.
  intros Ht Hs Hf Hc Hx. unfold extract_include.
  rewrite contains_join_head, orb_true_r.
  rewrite (replace_absent trim) by now apply contains_join_copies.
  now rewrite replace_join_copies.
Qed.

Lemma extract_include_idle (trim plain token kind sep x : string)
      (n : nat) (d : directives) :
  trim <> EmptyString -> plain <> EmptyString -> sep <> EmptyString ->
  sep_free sep trim = true -> sep_free sep plain = true ->
  PyStr.contains trim x = false -> PyStr.contains plain x = false ->
  extract_include trim plain token kind (join sep (copies n x), d)
  = (join sep (copies n x), d).
Proof.
  intros. unfold extract_include.
  now rewrite !contains_join_copies.
Qed.

(** A document of markers of one kind, separated by blank lines: every
    marker becomes the token of the kind, and one entry is recorded. *)
Lemma extract_plain_markers (k : include_kind) (n : nat) :
  extract_include_directives (join blank (copies (S n) (kind_plain k)))
  = (join blank (copies (S n) (kind_token k)), [(kind_token k, kind_name k)]).
Proof.
  unfold extract_include_directives.
  destruct k; cbn [kind_plain kind_token kind_name];
    unfold INCLUDE_POSTS_PLAIN, INCLUDE_CATEGORY_PLAIN, INCLUDE_ARCHIVE_PLAIN.
  - rewrite (extract_include_fire "{"%char) by (reflexivity || discriminate).
    now rewrite !extract_include_idle by (reflexivity || discriminate).
  - rewrite extract_include_idle by (reflexivity || discriminate).
    rewrite (extract_include_fire "{"%char) by (reflexivity || discriminate).
    now rewrite !extract_include_idle by (reflexivity || discriminate).
  - rewrite !extract_include_idle by (reflexivity || discriminate).
    now rewrite (extract_include_fire "{"%char) by (reflexivity || discriminate).
Qed.





(** * Code blocks *)

(** The replacement of a match stands in the substituted text. *)
Lemma splice_hit {G} (r : G -> string) (ps : list (@piece G)) (g : G) :
  In g (hits_of ps) ->
  exists before after, splice r ps = before ++ r g ++ after.
Proof.
  induction ps as [|[c|g'] ps IH]; cbn [hits_of splice]; intros H.
  - contradiction.
  - destruct (IH H) as (x & y & ->). now exists (String c x), y.
  - destruct H as [->|H].
    + now exists EmptyString, (splice r ps).
    + destruct (IH H) as (x & y & ->). exists (r g' ++ x), y.
      now rewrite append_assoc.
Qed.

(** Every match of a scan is a match of the pattern somewhere. *)
Lemma re_scan_hit {G} (m : string -> option (G * nat)) (s : string)
      (skip : nat) (g : G) :
  In g (hits_of (re_scan m skip s)) -> exists s' n, m s' = Some (g, n).
Proof.
  revert skip. induction s as [|c s IH]; intros skip H; [contradiction|].
  cbn [re_scan] in H. destruct skip as [|k]; [|now apply IH in H].
  destruct (m (String c s)) as [[g' n]|] eqn:E; cbn [hits_of] in H.
  - destruct H as [->|H]; [eauto | now apply IH in H].
  - now apply IH in H.
Qed.

(** The language group of the code pattern is never the empty string. *)
Lemma code_pattern_lang (s lang code : string) (n : nat) :
  PATTERN_CODE_BLOCK s = Some ((Some lang, code), n) -> lang <> EmptyString.
Proof.
  unfold PATTERN_CODE_BLOCK. destruct (String.prefix fence s); [|discriminate].
  destruct (PyStr.span _ _) as [w rest].
  destruct rest as [|a rest]; [discriminate|].
  destruct (Ascii.eqb_spec a "010"%char) as [->|Hne].
  - destruct (PyStr.until fence rest); [|discriminate].
    destruct w; intros H; inversion H. discriminate.
  - destruct a as [[] [] [] [] [] [] [] []]; try discriminate; congruence.
Qed.

Section Fallback.
Variable Lexer : Type.
Variable get_lexer_by_name : string -> option Lexer.
Variable highlight : string -> Lexer -> option string.

Lemma highlight_code_blocks_splice (content : string) :
  highlight_code_blocks Lexer get_lexer_by_name highlight content
  = splice (highlight_match Lexer get_lexer_by_name highlight)
           (re_scan PATTERN_CODE_BLOCK 0 content).
Proof.
  unfold highlight_code_blocks, re_sub.
  apply (re_sub_pieces_splice
           (highlight_match Lexer get_lexer_by_name highlight)
           (fun _ (u : unit) => tt)).
Qed.

Lemma highlight_match_unknown (lang code : string) :
  lang <> EmptyString -> get_lexer_by_name lang = None ->
  highlight_match Lexer get_lexer_by_name highlight (Some lang, code)
  = fallback_shell lang code.
Proof.
  intros Hne H. unfold highlight_match, highlight_try. cbn [fst snd].
  destruct lang as [|c w]; [congruence|]. now rewrite H.
Qed.


End Fallback.



(** * First occurrences *)

Lemma until_unfold (p s : string) :
  PyStr.until p s
  = if String.prefix p s then Some EmptyString
    else match s with
         | EmptyString => None
         | String c s' => option_map (String c) (PyStr.until p s')
         end.
Proof. destruct s; reflexivity. Qed.

Lemma prefix_split (p s : string) :
  String.prefix p s = true -> s = p ++ PyStr.drop (String.length p) s.
Proof.
  revert s. induction p as [|a p IH]; intros s H.
  - now destruct s.
  - destruct s as [|b s]; [discriminate|].
    rewrite prefix_cons in H. apply andb_true_iff in H as [E H].
    apply Ascii.eqb_eq in E. subst b. cbn. f_equal. now apply IH.
Qed.

Lemma until_split (p s b : string) :
  PyStr.until p s = Some b ->
  s = b ++ p ++ PyStr.drop (String.length b + String.length p) s.
Proof.
  revert b. induction s as [|c s IH]; intros b; rewrite until_unfold.
  - destruct (String.prefix p EmptyString) eqn:E; [|discriminate].
    intros H. inversion H. apply prefix_empty_r in E. now subst.
  - destruct (String.prefix p (String c s)) eqn:E.
    + intros H. inversion H. cbn [append String.length Nat.add].
      now apply prefix_split.
    + destruct (PyStr.until p s) as [b'|]; [|discriminate].
      intros H. inversion H. cbn. f_equal. now apply IH.
Qed.

Lemma count_go_skip (p q s : string) :
  PyStr.count_go p (String.length q) (q ++ s) = PyStr.count_go p 0 s.
Proof. induction q; simpl; auto. Qed.

Lemma count_at_occurrence (p s : string) :
  p <> EmptyString -> PyStr.count p (p ++ s) = S (PyStr.count p s).
Proof.
  destruct p as [|c p]; [congruence | intros _].
  unfold PyStr.count.
  change (String c p ++ s) with (String c (p ++ s)).
  cbn [PyStr.count_go].
  change (String c (p ++ s)) with (String c p ++ s).
  rewrite prefix_app.
  replace (String.length (String c p) - 1) with (String.length p)
    by (simpl; lia).
  now rewrite count_go_skip.
Qed.

Lemma count_at_other (p : string) (c : ascii) (s : string) :
  p <> EmptyString -> String.prefix p (String c s) = false ->
  PyStr.count p (String c s) = PyStr.count p s.
Proof.
  destruct p as [|d p]; [congruence | intros _ H].
  unfold PyStr.count. cbn [PyStr.count_go]. now rewrite H.
Qed.

Lemma count_absent (p s : string) :
  PyStr.contains p s = false -> PyStr.count p s = 0.
Proof.
  intros H. pose proof (contains_false_nonempty _ _ H) as Hne.
  induction s as [|c s IH].
  - now destruct p.
  - apply contains_cons_false in H as [Hp Hc].
    rewrite count_at_other by assumption. now apply IH.
Qed.

(** The text up to the first occurrence is copied, the occurrence is
    replaced and counted, and the scan goes on behind it. *)
Lemma replace_until (old new s a : string) :
  old <> EmptyString -> PyStr.until old s = Some a ->
  exists b,
    s = a ++ old ++ b
    /\ PyStr.replace old new s = a ++ new ++ PyStr.replace old new b
    /\ PyStr.count old s = S (PyStr.count old b).
Proof.
  intros Hne. revert a. induction s as [|c s IH]; intros a;
    rewrite until_unfold.
  - destruct (String.prefix old EmptyString) eqn:E; [|discriminate].
    apply prefix_empty_r in E. congruence.
  - destruct (String.prefix old (String c s)) eqn:E.
    + intros H. inversion H. subst a.
      apply prefix_split in E.
      remember (PyStr.drop (String.length old) (String c s)) as b eqn:Hb.
      clear Hb. exists b. rewrite E. cbn [append].
      now rewrite replace_at_occurrence, count_at_occurrence by assumption.
    + destruct (PyStr.until old s) as [a'|]; [|discriminate].
      intros H. inversion H. subst a.
      destruct (IH a' eq_refl) as (b & Es & Er & Ec). exists b.
      rewrite replace_at_other, count_at_other by assumption.
      cbn [append]. rewrite Er, Ec. now rewrite Es at 1.
Qed.

Lemma append_inv_head (a x y : string) : a ++ x = a ++ y -> x = y.
Proof. induction a; cbn; intros H; [exact H | inversion H; auto]. Qed.

(** An occurrence that is the only one: replaced, and counted once. *)
Lemma replace_single (old new a b : string) :
  old <> EmptyString ->
  PyStr.until old (a ++ old ++ b) = Some a ->
  PyStr.contains old b = false ->
  PyStr.replace old new (a ++ old ++ b) = a ++ new ++ b
  /\ PyStr.count old (a ++ old ++ b) = 1.
Proof.
  intros Hne Hu Hb.
  destruct (replace_until old new _ _ Hne Hu) as (b' & Es & Er & Ec).
  apply append_inv_head, append_inv_head in Es. subst b'.
  rewrite Er, Ec, replace_absent, count_absent by assumption. now split.
Qed.

(** * Patterns that do not overlap themselves *)

Lemma length_drop (k : nat) (s : string) :
  String.length (PyStr.drop k s) = String.length s - k.
Proof.
  revert s. induction k as [|k IH]; intros s; [cbn; lia|].
  destruct s as [|c s]; [reflexivity|]. cbn. apply IH.
Qed.

Lemma prefix_app_cases (q a s : string) :
  String.prefix q (a ++ s) = true ->
  String.prefix q a = true
  \/ (String.length a < String.length q
      /\ String.prefix (PyStr.drop (String.length a) q) s = true).
Proof.
  revert q. induction a as [|c a IH]; intros q H.
  - destruct q as [|d q]; [left; reflexivity|].
    right. split; [cbn; lia | exact H].
  - destruct q as [|d q]; [left; reflexivity|].
    cbn [append] in H. rewrite prefix_cons in H.
    apply andb_true_iff in H as [E H].
    destruct (IH q H) as [L|[L R]].
    + left. now rewrite prefix_cons, E.
    + right. split; [cbn; lia | exact R].
Qed.

Lemma prefix_app_short (q p x : string) :
  String.length q <= String.length p ->
  String.prefix q (p ++ x) = true -> String.prefix q p = true.
Proof.
  revert p. induction q as [|d q IH]; intros p Hl H; [apply prefix_nil|].
  destruct p as [|c p]; [cbn in Hl; lia|].
  cbn [append] in H. rewrite prefix_cons in H |- *.
  apply andb_true_iff in H as [E H]. rewrite E. cbn [andb].
  apply IH; [cbn in Hl; lia | exact H].
Qed.

Lemma suffixes_not_prefix_drop (q p : string) (j : nat) :
  suffixes_not_prefix q p = true -> j < String.length q ->
  String.prefix (PyStr.drop j q) p = false.
Proof.
  revert j. induction q as [|c q IH]; intros j H Hj; [cbn in Hj; lia|].
  cbn [suffixes_not_prefix] in H. apply andb_true_iff in H as [H1 H2].
  destruct j as [|j].
  - now apply negb_true_iff in H1.
  - cbn [PyStr.drop]. apply IH; [exact H2 | cbn in Hj; lia].
Qed.

(** In front of an occurrence of such a pattern, a text without
    occurrence holds no start of an occurrence either. *)
Lemma until_border_free (p a x : string) :
  border_free p = true -> PyStr.contains p a = false ->
  PyStr.until p (a ++ p ++ x) = Some a.
Proof.
  intros Hb Ha. induction a as [|c a IH]; rewrite until_unfold.
  - cbn [append]. now rewrite prefix_app.
  - apply contains_cons_false in Ha as [Hp Ha].
    destruct (String.prefix p (String c a ++ p ++ x)) eqn:E.
    + exfalso. apply prefix_app_cases in E as [E|[Hl E]]; [congruence|].
      apply prefix_app_short in E; [|rewrite length_drop; lia].
      destruct p as [|d p]; [discriminate|].
      cbn [border_free] in Hb. cbn [String.length PyStr.drop] in E, Hl.
      rewrite (suffixes_not_prefix_drop p (String d p) (String.length a))
        in E by (assumption || lia).
      discriminate.
    + cbn [append]. now rewrite (IH Ha).
Qed.


(** * A scan with a single match *)

Section SingleMatch.
Context {G : Type}.
Variable m : string -> option (G * nat).
(** A match is a prefix of the text, not empty, of the length given. *)
Hypothesis m_sound :
  forall s g n,
    m s = Some (g, n) ->
    exists c matched rest,
      s = String c matched ++ rest /\ n = S (String.length matched).

Lemma no_hits_lits (s : string) :
  hits_of (re_scan m 0 s) = [] -> re_scan m 0 s = lits s.
Proof using Type.
  induction s as [|c s IH]; [reflexivity|].
  cbn [re_scan]. destruct (m (String c s)) as [[g n]|]; cbn [hits_of lits].
  - discriminate.
  - intros H. now rewrite IH.
Qed.

Lemma scan_single (s : string) (g : G) :
  hits_of (re_scan m 0 s) = [g] ->
  exists pre c matched post,
    s = pre ++ String c matched ++ post
    /\ m (String c matched ++ post) = Some (g, S (String.length matched))
    /\ re_scan m 0 s = (lits pre ++ Hit g :: lits post)%list.
Proof using All.
  induction s as [|a s IH]; [discriminate|].
  cbn [re_scan]. destruct (m (String a s)) as [[g' n]|] eqn:E;
    cbn [hits_of]; intros H.
  - inversion H as [[Hg Hh]]. subst g'.
    destruct (m_sound _ _ _ E) as (c & matched & rest & Es & En).
    change (String c matched ++ rest) with (String c (matched ++ rest)) in Es.
    inversion Es. subst a s n. clear Es.
    replace (S (String.length matched) - 1) with (String.length matched)
      in * by lia.
    rewrite re_scan_skip in *.
    exists EmptyString, c, matched, rest. cbn [append lits app].
    repeat split; [exact E|]. now rewrite no_hits_lits.
  - destruct (IH H) as (pre & c & matched & post & Es & Em & Er).
    exists (String a pre), c, matched, post. cbn [append lits app].
    rewrite Er. repeat split; [now rewrite Es | exact Em].
Qed.

Lemma re_sub_pieces_single {St} (f : G -> St -> string * St)
      (pre post : string) (g : G) (st : St) :
  re_sub_pieces f (lits pre ++ Hit g :: lits post)%list st
  = (pre ++ fst (f g st) ++ post, snd (f g st)).
Proof using Type.
  induction pre as [|c pre IH]; cbn [lits app re_sub_pieces append].
  - destruct (f g st) as [r st1]. now rewrite re_sub_pieces_lits.
  - now rewrite IH.
Qed.

End SingleMatch.

(** * Diagram blocks *)

Lemma mermaid_pattern_sound (s body : string) (n : nat) :
  PATTERN_MERMAID_BLOCK s = Some (body, n) ->
  exists rest,
    s = (fence ++ "mermaid" ++ PyStr.nl ++ body ++ fence) ++ rest
    /\ n = String.length (fence ++ "mermaid" ++ PyStr.nl ++ body ++ fence).
Proof.
  unfold PATTERN_MERMAID_BLOCK.
  destruct (String.prefix _ s) eqn:E; [|discriminate].
  destruct (PyStr.until fence (PyStr.drop 11 s)) as [b|] eqn:U; [|discriminate].
  intros H. inversion H. subst b n.
  apply prefix_split in E. apply until_split in U.
  exists (PyStr.drop (String.length body + String.length fence)
                     (PyStr.drop 11 s)).
  split.
  - rewrite E at 1.
    change (String.length (fence ++ "mermaid" ++ PyStr.nl)) with 11.
    rewrite U at 1. cbn [fence append]. now rewrite !append_assoc.
  - cbn. rewrite str_length_app. cbn. lia.
Qed.

Lemma mermaid_pattern_sound' (s body : string) (n : nat) :
  PATTERN_MERMAID_BLOCK s = Some (body, n) ->
  exists c matched rest,
    s = String c matched ++ rest /\ n = S (String.length matched).
Proof.
  intros H. apply mermaid_pattern_sound in H as (rest & Es & En).
  exists "`"%char, ("``mermaid" ++ PyStr.nl ++ body ++ fence), rest.
  split; [exact Es | exact En].
Qed.

(** Exactly one diagram block: its body is the text between the opening
    fence line and the next fence, it is stored as the only block, and
    the block is replaced by the token of index 0 between blank lines. *)
Lemma mermaid_single_block (content body : string) :
  hits PATTERN_MERMAID_BLOCK content = [body] ->
  exists pre post,
    content = pre ++ (fence ++ "mermaid" ++ PyStr.nl ++ body ++ fence) ++ post
    /\ extract_mermaid_blocks content
       = (pre ++ (blank ++ "MERMAID_PLACEHOLDER_0" ++ blank) ++ post, [body]).
Proof.
  intros H.
  destruct (scan_single _ mermaid_pattern_sound' _ _ H)
    as (pre & c & matched & post & Es & Em & Er).
  exists pre, post.
  destruct (mermaid_pattern_sound _ _ _ Em) as (rest & Es' & En).
  assert (String.length (String c matched)
          = String.length (fence ++ "mermaid" ++ PyStr.nl ++ body ++ fence))
    as Hl by (cbn [String.length]; congruence).
  assert (String c matched = fence ++ "mermaid" ++ PyStr.nl ++ body ++ fence
          /\ post = rest) as [Ec Ep].
  { clear -Es' Hl. revert Es' Hl.
    generalize (fence ++ "mermaid" ++ PyStr.nl ++ body ++ fence).
    generalize (String c matched). intros x.
    induction x as [|a x IH]; intros [|b y]; cbn; intros E L;
      try discriminate; [now split|].
    inversion E. subst. destruct (IH y) as [-> ->]; auto. }
  split; [now rewrite Es, Ec|].
  unfold extract_mermaid_blocks, re_sub. rewrite Er, re_sub_pieces_single.
  reflexivity.
Qed.

Section Diagrams.
Variable Lexer : Type.
Variable get_lexer_by_name : string -> option Lexer.
Variable highlight : string -> Lexer -> option string.
Variable markdown : string -> string.

Abbreviation converted :=
  (mermaid_converted Lexer get_lexer_by_name highlight markdown).
Abbreviation round_trip :=
  (mermaid_round_trip Lexer get_lexer_by_name highlight markdown).


End Diagrams.




(** * Merging defaults *)

Module HeapFacts.
Import Heap.

(** Induction on trees, with the hypothesis on every entry of a dict. *)
Lemma tree_induction (P : tree -> Prop) :
  (forall a, P (TAtom a)) ->
  (forall items, Forall (fun kv => P (snd kv)) items -> P (TDict items)) ->
  forall t, P t.
Proof.
  intros Ha Hd.
  fix rec 1. intros [a|items]; [apply Ha|].
  apply Hd. induction items as [|[k t] items IH]; constructor.
  - apply rec.
  - exact IH.
Qed.

Lemma grows_refl (h : heap) : grows h h.
Proof. intros l o H. eauto. Qed.

Lemma grows_trans (h1 h2 h3 : heap) : grows h1 h2 -> grows h2 h3 -> grows h1 h3.
Proof.
  intros H12 H23 l o H. destruct (H12 l o H) as (o2 & H2 & K2).
  destruct (H23 l o2 H2) as (o3 & H3 & K3). eauto.
Qed.

Lemma grows_app (h ext : heap) : grows h (h ++ ext)%list.
Proof.
  intros l o H. exists o. split; [|auto]. now apply lookup_app_l_Some.
Qed.

(** What [lookup_path] finds stays where it is when the heap grows. *)
Lemma lookup_path_grows (h h' : heap) (v : value) (path : list string)
      (x : value) :
  grows h h' -> lookup_path h v path = Some x -> lookup_path h' v path = Some x.
Proof.
  intros G. revert v. induction path as [|k path IH]; intros v H; [exact H|].
  cbn [lookup_path] in *. destruct v as [a|l]; [discriminate|].
  destruct (h !! l) as [o|] eqn:E; [|discriminate].
  destruct (G l o E) as (o' & -> & K).
  destruct (PyDict.get o k) as [v'|] eqn:Ek; [|discriminate].
  rewrite (K k v' Ek). now apply IH.
Qed.

(** [setdefault] adds a binding or none: it never changes one. *)
Lemma setdefault_grows (h : heap) (target : value) (key : string)
      (dflt : value) (h' : heap) (v : value) :
  setdefault h target key dflt = Ret h' v -> grows h h'.
Proof.
  unfold setdefault. destruct target as [a|l]; [discriminate|].
  destruct (h !! l) as [o|] eqn:E; [|discriminate].
  destruct (PyDict.get o key) as [v0|] eqn:Ek; intros H; inversion H; subst.
  - apply grows_refl.
  - intros l' o' H'. destruct (decide (l = l')) as [<-|Hne].
    + exists (PyDict.set o key v).
      split; [apply list_lookup_insert_eq; eapply lookup_lt_Some; eassumption|].
      intros k w Hk.
      pose proof (eq_trans (eq_sym H') E) as Heq. inversion Heq. subst o'.
      rewrite dict_get_set.
      destruct (String.eqb_spec key k) as [->|]; [congruence | exact Hk].
    + exists o'. split; [|auto].
      etransitivity; [now apply list_lookup_insert_ne | exact H'].
Qed.

Section MergeItems.
Variable rec : heap -> value -> tree -> outcome unit.

Lemma merge_items_grows (items : list (string * tree)) (target : value)
      (h h' : heap) (u : unit) :
  Forall (fun kv => forall h1 node h2 u',
              rec h1 node (snd kv) = Ret h2 u' -> grows h1 h2) items ->
  merge_items rec target items h = Ret h' u -> grows h h'.
Proof.
  intros Hrec. revert h.
  induction Hrec as [|[key val] items Hval _ IH]; intros h H.
  - inversion H. apply grows_refl.
  - cbn [merge_items] in H. cbn [snd] in Hval. destruct val as [a|sub].
    + destruct (setdefault h target key (VAtom a)) as [h1 v| |] eqn:E;
        try discriminate.
      eapply grows_trans; [eapply setdefault_grows; eassumption | now apply IH].
    + destruct (setdefault _ target key _) as [h1 node| |] eqn:E;
        try discriminate.
      destruct (rec h1 node (TDict sub)) as [h2 u'| |] eqn:R; try discriminate.
      eapply grows_trans; [apply grows_app|].
      eapply grows_trans; [eapply setdefault_grows; eassumption|].
      eapply grows_trans; [eapply Hval; eassumption | now apply IH].
Qed.

End MergeItems.

(** [deep_merge] keeps every binding of every object. *)
Lemma deep_merge_grows (source : tree) :
  forall h target h' u, deep_merge h target source = Ret h' u -> grows h h'.
Proof.
  induction source as [a|items IH] using tree_induction;
    intros h target h' u H; [discriminate|].
  cbn [deep_merge] in H. eapply merge_items_grows; [|exact H].
  eapply Forall_impl; [|exact IH]. intros kv Hkv h1 node h2 u' R.
  eapply Hkv. exact R.
Qed.

(** ** The objects in place before the call *)

Lemma untouched_trans (n : nat) (h1 h2 h3 : heap) :
  untouched n h1 h2 -> untouched n h2 h3 -> untouched n h1 h3.
Proof. intros H12 H23 l Hl. now rewrite H23, H12. Qed.

Lemma untouched_app (n : nat) (h ext : heap) :
  n <= length h -> untouched n h (h ++ ext)%list.
Proof. intros Hn l Hl. apply lookup_app_l. lia. Qed.

Lemma fresh_from_snoc (n : nat) (h : heap) (o : object) :
  fresh_from n h ->
  (forall k v, PyDict.get o k = Some v -> fresh_val n v) ->
  fresh_from n (h ++ [o])%list.
Proof.
  intros Hf Ho l o' k v Hl E Hk.
  destruct (decide (l < length h)) as [Hlt|Hge].
  - rewrite lookup_app_l in E by assumption. eapply Hf; eassumption.
  - apply lookup_snoc_Some in E as [[Hlt _]|[_ E]]; [contradiction|].
    subst o'. eauto.
Qed.

(** The invariant of a call that may write from location [n] on only. *)
Definition framed (n : nat) (h h' : heap) : Prop :=
  untouched n h h' /\ fresh_from n h' /\ length h <= length h'.

Lemma framed_trans (n : nat) (h1 h2 h3 : heap) :
  framed n h1 h2 -> framed n h2 h3 -> framed n h1 h3.
Proof.
  intros (U1 & _ & L1) (U2 & F2 & L2). repeat split; [|exact F2|lia].
  eapply untouched_trans; eassumption.
Qed.

Lemma setdefault_framed (n : nat) (h : heap) (target : value) (key : string)
      (dflt : value) (h' : heap) :
  fresh_val n target -> fresh_val n dflt -> fresh_from n h ->
  heap_of (setdefault h target key dflt) = Some h' ->
  framed n h h'
  /\ forall v, setdefault h target key dflt = Ret h' v -> fresh_val n v.
Proof.
  intros Ht Hd Hf. unfold setdefault.
  destruct target as [a|l]; cbn [heap_of].
  - intros E. inversion E. subst. repeat split; auto. discriminate.
  - destruct (h !! l) as [o|] eqn:E; [|discriminate].
    destruct (PyDict.get o key) as [v0|] eqn:Ek; cbn [heap_of];
      intros E'; inversion E'; subst.
    + repeat split; auto. intros v Hv. inversion Hv. subst.
      eapply Hf; eassumption.
    + cbn in Ht. split; [repeat split|].
      * intros l' Hl'. apply list_lookup_insert_ne. lia.
      * intros l' o' k v Hl' El' Hk.
        destruct (decide (l = l')) as [<-|Hne].
        -- pose proof (lookup_lt_Some _ _ _ E) as Hlt.
           pose proof (list_lookup_insert_eq h l (PyDict.set o key dflt) Hlt)
             as Ei.
           pose proof (eq_trans (eq_sym El') Ei) as Heq. inversion Heq. subst.
           rewrite dict_get_set in Hk.
           destruct (String.eqb key k); [inversion Hk; subst; assumption|].
           eapply Hf; eassumption.
        -- pose proof (list_lookup_insert_ne h l l' (PyDict.set o key dflt) Hne)
             as Ei.
           eapply Hf; [exact Hl' | exact (eq_trans (eq_sym Ei) El') | exact Hk].
      * now rewrite length_insert.
      * intros v Hv. inversion Hv. subst. assumption.
Qed.

Lemma framed_alloc (n : nat) (h : heap) :
  n <= length h -> fresh_from n h -> framed n h (h ++ [[]])%list.
Proof.
  intros Hn Hf. repeat split.
  - now apply untouched_app.
  - apply fresh_from_snoc; [exact Hf | discriminate].
  - rewrite List.length_app. lia.
Qed.

Section MergeFrame.
Variable n : nat.
Variable rec : heap -> value -> tree -> outcome unit.

Definition rec_framed (t : tree) : Prop :=
  forall h target h',
    n <= length h -> fresh_val n target -> fresh_from n h ->
    heap_of (rec h target t) = Some h' -> framed n h h'.

Lemma merge_items_framed (items : list (string * tree)) (target : value)
      (h h' : heap) :
  Forall (fun kv => rec_framed (snd kv)) items ->
  n <= length h -> fresh_val n target -> fresh_from n h ->
  heap_of (merge_items rec target items h) = Some h' -> framed n h h'.
Proof.
  intros Hrec. revert h.
  induction Hrec as [|[key val] items Hval _ IH]; intros h Hn Ht Hf H.
  - inversion H. subst. repeat split; auto.
  - cbn [merge_items] in H. cbn [snd] in Hval. destruct val as [a|sub].
    + destruct (setdefault h target key (VAtom a)) as [h1 v| h1 |] eqn:E;
        cbn [heap_of] in H; try discriminate.
      * destruct (setdefault_framed n h target key (VAtom a) h1 Ht I Hf)
          as [F1 _]; [now rewrite E|].
        eapply framed_trans; [exact F1|].
        destruct F1 as (_ & F1 & L1). apply IH; auto. lia.
      * inversion H. subst.
        apply (setdefault_framed n h target key (VAtom a) h' Ht I Hf).
        now rewrite E.
    + pose proof (framed_alloc n h Hn Hf) as FA.
      pose proof FA as (UA & FFA & LA).
      assert (fresh_val n (VRef (length h))) as Hnew by exact Hn.
      destruct (setdefault _ target key _) as [h1 node| h1 |] eqn:E;
        cbn [heap_of] in H; try discriminate.
      * destruct (setdefault_framed n _ target key _ h1 Ht Hnew FFA)
          as [F1 Hnode]; [now rewrite E|].
        specialize (Hnode node E).
        assert (framed n h h1) as Fh1
            by (eapply framed_trans; [exact FA | exact F1]).
        pose proof Fh1 as (U1 & FF1 & L1).
        destruct (rec h1 node (TDict sub)) as [h2 u'| h2 |] eqn:R;
          cbn [heap_of] in H; try discriminate.
        -- assert (framed n h1 h2) as F2
               by (apply (Hval h1 node h2); auto; [lia | now rewrite R]).
           eapply framed_trans; [exact Fh1|].
           eapply framed_trans; [exact F2|].
           destruct F2 as (_ & FF2 & L2). apply IH; auto. lia.
        -- inversion H. subst.
           eapply framed_trans; [exact Fh1|].
           apply (Hval h1 node h'); auto; [lia | now rewrite R].
      * inversion H. subst.
        eapply framed_trans; [exact FA|].
        apply (setdefault_framed n _ target key _ h' Ht Hnew FFA).
        now rewrite E.
Qed.

End MergeFrame.

(** [deep_merge] into a target above [n] writes above [n] only, whether
    it returns or raises. *)
Lemma deep_merge_framed (n : nat) (source : tree) :
  forall h target h',
    n <= length h -> fresh_val n target -> fresh_from n h ->
    heap_of (deep_merge h target source) = Some h' -> framed n h h'.
Proof.
  induction source as [a|items IH] using tree_induction;
    intros h target h' Hn Ht Hf H.
  - inversion H. subst. repeat split; auto.
  - cbn [deep_merge] in H.
    eapply (merge_items_framed n); eassumption.
Qed.

(** ** The copy *)

Lemma same_kind_refl (x : value) : same_kind x x.
Proof. now destruct x. Qed.

Lemma covers_refl (h : heap) (v : value) : covers h v h v.
Proof. intros path x H. exists x. split; [exact H | apply same_kind_refl]. Qed.

Lemma covers_grows_l (h h1 h2 : heap) (v v' : value) :
  grows h h1 -> covers h1 v h2 v' -> covers h v h2 v'.
Proof.
  intros G C path x H. apply C. eapply lookup_path_grows; eassumption.
Qed.

Lemma covers_grows_r (h h1 h2 : heap) (v v' : value) :
  covers h v h1 v' -> grows h1 h2 -> covers h v h2 v'.
Proof.
  intros C G path x H. destruct (C path x H) as (y & Hy & K).
  exists y. split; [|exact K]. eapply lookup_path_grows; eassumption.
Qed.

Section Copy.
Variable n : nat.

(** What a copying function owes: it only allocates, what it allocates
    refers to nothing below [n], and the copy has all the original has. *)
Definition copies_well (cp : heap -> value -> option (heap * value)) : Prop :=
  forall h v h' v',
    n <= length h -> fresh_from n h -> cp h v = Some (h', v') ->
    (exists ext, h' = (h ++ ext)%list)
    /\ fresh_from n h' /\ fresh_val n v' /\ covers h v h' v'.

Lemma copy_items_spec (cp : heap -> value -> option (heap * value))
      (o : object) :
  copies_well cp ->
  forall h h' o',
    n <= length h -> fresh_from n h -> copy_items cp h o = Some (h', o') ->
    (exists ext, h' = (h ++ ext)%list)
    /\ fresh_from n h'
    /\ (forall k v', PyDict.get o' k = Some v' -> fresh_val n v')
    /\ (forall k vk, PyDict.get o k = Some vk ->
                     exists vk', PyDict.get o' k = Some vk'
                                 /\ covers h vk h' vk').
Proof.
  intros Hcp. induction o as [|[k0 v0] o IH]; intros h h' o' Hn Hf H.
  - inversion H. subst. repeat split; auto; try discriminate.
    exists []. now rewrite app_nil_r.
  - cbn [copy_items] in H.
    destruct (cp h v0) as [[h1 v0']|] eqn:E; [|discriminate].
    destruct (copy_items cp h1 o) as [[h2 o1]|] eqn:E1; [|discriminate].
    inversion H. subst h2 o'. clear H.
    destruct (Hcp h v0 h1 v0' Hn Hf E) as ([e1 X1] & F1 & V1 & C1).
    assert (n <= length h1) as Hn1 by (subst h1; rewrite List.length_app; lia).
    destruct (IH h1 h' o1 Hn1 F1 E1) as ([e2 X2] & F2 & V2 & C2).
    assert (grows h h1) as G1 by (subst h1; apply grows_app).
    assert (grows h1 h') as G2 by (subst h'; apply grows_app).
    split; [exists (e1 ++ e2)%list; subst; now rewrite app_assoc|].
    split; [exact F2|]. split.
    + intros k v'. cbn [PyDict.get].
      destruct (String.eqb k0 k); [intros K; inversion K; now subst v' | apply V2].
    + intros k vk. cbn [PyDict.get].
      destruct (String.eqb k0 k).
      * intros K. inversion K. subst vk. exists v0'. split; [reflexivity|].
        eapply covers_grows_r; eassumption.
      * intros K. destruct (C2 k vk K) as (vk' & Kk & Ck).
        exists vk'. split; [exact Kk|]. eapply covers_grows_l; eassumption.
Qed.

Lemma deepcopy_spec (fuel : nat) : copies_well (deepcopy fuel).
Proof.
  induction fuel as [|fuel IH]; intros h v h' v' Hn Hf H.
  - destruct v as [a|l]; [|discriminate]. inversion H. subst.
    repeat split; auto; [|apply covers_refl].
    exists []. now rewrite app_nil_r.
  - destruct v as [a|l].
    + inversion H. subst. repeat split; auto; [|apply covers_refl].
      exists []. now rewrite app_nil_r.
    + cbn [deepcopy] in H. destruct (h !! l) as [o|] eqn:E; [|discriminate].
      destruct (copy_items (deepcopy fuel) h o) as [[h1 o']|] eqn:Ec;
        [|discriminate].
      inversion H. subst h' v'. clear H.
      destruct (copy_items_spec _ o IH h h1 o' Hn Hf Ec)
        as ([e X] & F1 & V1 & C1).
      assert (n <= length h1) as Hn1 by (subst h1; rewrite List.length_app; lia).
      split; [exists (e ++ [o'])%list; subst; now rewrite app_assoc|].
      split; [now apply fresh_from_snoc|]. split; [exact Hn1|].
      intros path x Hp. destruct path as [|k path].
      * inversion Hp. subst x. now exists (VRef (length h1)).
      * cbn [lookup_path] in Hp |- *. rewrite E in Hp.
        destruct (PyDict.get o k) as [vk|] eqn:Ek; [|discriminate].
        destruct (C1 k vk Ek) as (vk' & Ek' & Ck).
        destruct (Ck path x Hp) as (y & Hy & K).
        exists y. split; [|exact K].
        rewrite (list_lookup_middle h1 [] o' (length h1) eq_refl), Ek'.
        eapply lookup_path_grows; [apply grows_app | exact Hy].
Qed.

End Copy.

Lemma fresh_from_top (h : heap) : fresh_from (length h) h.
Proof.
  intros l o k v Hl E _. apply lookup_lt_Some in E. lia.
Qed.

(** ** Enough fuel *)

Lemma bounded_extend (d : nat) (h h2 : heap) (v : value) :
  (forall l o, h !! l = Some o -> h2 !! l = Some o) ->
  bounded d h v -> bounded d h2 v.
Proof.
  intros Hx. revert v. induction d as [|d IH]; intros [a|l]; cbn; auto.
  intros (o & E & Ho). exists o. split; [now apply Hx|].
  eapply Forall_impl; [|exact Ho]. intros kv. apply IH.
Qed.

Lemma deepcopy_answers (d : nat) :
  forall h0 h v,
    (forall l o, h0 !! l = Some o -> h !! l = Some o) ->
    bounded d h0 v ->
    exists h' v', deepcopy d h v = Some (h', v')
                  /\ exists ext, h' = (h ++ ext)%list.
Proof.
  induction d as [|d IH]; intros h0 h [a|l] Hx Hb; cbn in Hb;
    try contradiction.
  - exists h, (VAtom a). split; [reflexivity|]. exists []. now rewrite app_nil_r.
  - exists h, (VAtom a). split; [reflexivity|]. exists []. now rewrite app_nil_r.
  - destruct Hb as (o & E & Ho). cbn [deepcopy]. rewrite (Hx l o E).
    assert (exists h1 o', copy_items (deepcopy d) h o = Some (h1, o')
                          /\ exists ext, h1 = (h ++ ext)%list) as (h1 & o' & -> & e & ->).
    { clear E. revert h Hx. induction Ho as [|[k v] o Hv _ IHo]; intros h Hx.
      - exists h, []. split; [reflexivity|]. exists []. now rewrite app_nil_r.
      - cbn [copy_items]. cbn [snd] in Hv.
        destruct (IH h0 h v Hx Hv) as (h1 & v' & -> & e1 & ->).
        destruct (IHo (h ++ e1)%list) as (h2 & o2 & -> & e2 & ->).
        { intros l' o0 H0. apply lookup_app_l_Some. now apply Hx. }
        eexists _, _. split; [reflexivity|].
        exists (e1 ++ e2)%list. now rewrite app_assoc. }
    eexists _, _. split; [reflexivity|].
    exists (e ++ [o'])%list. now rewrite app_assoc.
Qed.

(** ** A heap without dangling references *)

Lemma lives_mono (h h' : heap) (v : value) :
  length h <= length h' -> lives h v -> lives h' v.
Proof. destruct v; cbn; [auto | lia]. Qed.

Lemma closed_snoc (h : heap) (o : object) :
  closed h ->
  (forall k v, PyDict.get o k = Some v -> lives (h ++ [o])%list v) ->
  closed (h ++ [o])%list.
Proof.
  intros Hc Ho l o' k v E Hk.
  apply lookup_snoc_Some in E as [[_ E]|[_ E]].
  - eapply lives_mono; [|eapply Hc; eassumption].
    rewrite List.length_app. lia.
  - subst o'. eauto.
Qed.

(** What an outcome owes on a closed heap: an answer, and a closed heap
    that has lost no object. *)
Definition sound {A} (h : heap) (r : outcome A) (P : heap -> A -> Prop) : Prop :=
  match r with
  | Ret h' a => closed h' /\ length h <= length h' /\ P h' a
  | Raise _ => True
  | NoAnswer => False
  end.

Lemma setdefault_sound (h : heap) (target : value) (key : string)
      (dflt : value) :
  closed h -> lives h target -> lives h dflt ->
  sound h (setdefault h target key dflt) lives.
Proof.
  intros Hc Ht Hd. unfold setdefault. destruct target as [a|l]; [exact I|].
  cbn in Ht. apply lookup_lt_is_Some in Ht as [o E]. rewrite E.
  destruct (PyDict.get o key) as [v0|] eqn:Ek; cbn [sound].
  - split; [exact Hc|]. split; [lia|]. eapply Hc; eassumption.
  - rewrite length_insert. split; [|split; [lia|]].
    + intros l' o' k v E' Hk.
      assert (lives h v) as Hv.
      { destruct (decide (l = l')) as [<-|Hne].
        - pose proof (lookup_lt_Some _ _ _ E) as Hlt.
          pose proof (list_lookup_insert_eq h l (PyDict.set o key dflt) Hlt)
            as Ei.
          pose proof (eq_trans (eq_sym E') Ei) as Heq. inversion Heq. subst o'.
          rewrite dict_get_set in Hk.
          destruct (String.eqb key k); [inversion Hk; now subst v|].
          eapply Hc; eassumption.
        - pose proof (list_lookup_insert_ne h l l' (PyDict.set o key dflt) Hne)
            as Ei.
          eapply Hc; [exact (eq_trans (eq_sym Ei) E') | exact Hk]. }
      eapply lives_mono; [|exact Hv]. now rewrite length_insert.
    + eapply lives_mono; [|exact Hd]. now rewrite length_insert.
Qed.

Section MergeSound.
Variable rec : heap -> value -> tree -> outcome unit.

Definition rec_sound (t : tree) : Prop :=
  forall h target,
    closed h -> lives h target -> sound h (rec h target t) (fun _ _ => True).

Lemma merge_items_sound (items : list (string * tree)) (target : value)
      (h : heap) :
  Forall (fun kv => rec_sound (snd kv)) items ->
  closed h -> lives h target ->
  sound h (merge_items rec target items h) (fun _ _ => True).
Proof.
  intros Hrec. revert h.
  induction Hrec as [|[key val] items Hval _ IH]; intros h Hc Ht.
  - cbn. auto.
  - cbn [merge_items]. cbn [snd] in Hval. destruct val as [a|sub].
    + pose proof (setdefault_sound h target key (VAtom a) Hc Ht I) as S1.
      destruct (setdefault h target key (VAtom a)) as [h1 v| h1 |];
        cbn [sound] in S1; [|exact I | contradiction].
      destruct S1 as (C1 & L1 & _).
      pose proof (IH h1 C1 (lives_mono _ _ _ L1 Ht)) as S2.
      destruct (merge_items rec target items h1) as [h2 u| h2 |];
        cbn [sound] in S2 |- *; auto.
      destruct S2 as (C2 & L2 & _). repeat split; auto. lia.
    + assert (closed (h ++ [[]])%list) as Ca
          by (apply closed_snoc; [exact Hc | discriminate]).
      assert (length h <= length (h ++ [[]])%list) as La
          by (rewrite List.length_app; lia).
      assert (lives (h ++ [[]])%list (VRef (length h))) as Hnew
          by (cbn; rewrite List.length_app; cbn; lia).
      pose proof (setdefault_sound _ target key (VRef (length h)) Ca
                    (lives_mono _ _ _ La Ht) Hnew) as S1.
      destruct (setdefault _ target key _) as [h1 node| h1 |];
        cbn [sound] in S1; [|exact I | contradiction].
      destruct S1 as (C1 & L1 & N1).
      pose proof (Hval h1 node C1 N1) as S2.
      destruct (rec h1 node (TDict sub)) as [h2 u| h2 |];
        cbn [sound] in S2 |- *; auto.
      destruct S2 as (C2 & L2 & _).
      assert (lives h2 target) as Ht2
          by (eapply lives_mono; [|exact Ht]; lia).
      pose proof (IH h2 C2 Ht2) as S3.
      destruct (merge_items rec target items h2) as [h3 u3| h3 |];
        cbn [sound] in S3 |- *; auto.
      destruct S3 as (C3 & L3 & _). repeat split; auto. lia.
Qed.

End MergeSound.

(** On a closed heap [deep_merge] returns or raises. *)
Lemma deep_merge_sound (source : tree) :
  forall h target,
    closed h -> lives h target ->
    sound h (deep_merge h target source) (fun _ _ => True).
Proof.
  induction source as [a|items IH] using tree_induction;
    intros h target Hc Ht; [exact I|].
  cbn [deep_merge]. now apply merge_items_sound.
Qed.

(** The copy of closed data is closed. *)
Lemma deepcopy_closed (fuel : nat) :
  forall h v h' v',
    closed h -> deepcopy fuel h v = Some (h', v') ->
    closed h' /\ length h <= length h' /\ lives h' v'.
Proof.
  induction fuel as [|fuel IH]; intros h [a|l] h' v' Hc H;
    try discriminate; try (inversion H; subst; now auto).
  cbn [deepcopy] in H. destruct (h !! l) as [o|] eqn:E; [|discriminate].
  destruct (copy_items (deepcopy fuel) h o) as [[h1 o']|] eqn:Ec;
    [|discriminate].
  inversion H. subst h' v'. clear H E.
  assert (closed h1 /\ length h <= length h1
          /\ forall k v, PyDict.get o' k = Some v -> lives h1 v)
    as (C1 & L1 & V1).
  { clear l. revert h h1 o' Hc Ec.
    induction o as [|[k0 v0] o IHo]; intros h h1 o' Hc Ec.
    - inversion Ec. subst. repeat split; auto. discriminate.
    - cbn [copy_items] in Ec.
      destruct (deepcopy fuel h v0) as [[h2 v0']|] eqn:E0; [|discriminate].
      destruct (copy_items (deepcopy fuel) h2 o) as [[h3 o3]|] eqn:E3;
        [|discriminate].
      inversion Ec. subst h3 o'. clear Ec.
      destruct (IH _ _ _ _ Hc E0) as (C2 & L2 & V2).
      destruct (IHo _ _ _ C2 E3) as (C3 & L3 & V3).
      repeat split; [exact C3 | lia |].
      intros k v. cbn [PyDict.get]. destruct (String.eqb k0 k).
      + intros K. inversion K. subst v. eapply lives_mono; eassumption.
      + apply V3. }
  assert (length h1 <= length (h1 ++ [o'])%list) as La
      by (rewrite List.length_app; lia).
  split; [|split].
  - apply closed_snoc; [exact C1|].
    intros k v Hk. eapply lives_mono; [exact La | eauto].
  - lia.
  - cbn. rewrite List.length_app. cbn. lia.
Qed.

End HeapFacts.


(** The defaults of the program, cut down to three of their keys, merged
    into a configuration that sets one nested key. *)
Lemma C9_apply_defaults_example :
  Heap.apply_defaults 2
    [[("title", Heap.VAtom "Notes")];
     [("meta", Heap.VRef 0); ("post_limit", Heap.VAtom "5")]]
    (Some 1)
    (Heap.TDict
       [("post_limit", Heap.TAtom "10");
        ("base", Heap.TDict [("url", Heap.TAtom "localhost")]);
        ("meta", Heap.TDict [("title", Heap.TAtom "My Blog");
                             ("author", Heap.TAtom "Anonymous")])])
  = Heap.Ret
      [[("title", Heap.VAtom "Notes")];
       [("meta", Heap.VRef 0); ("post_limit", Heap.VAtom "5")];
       [("title", Heap.VAtom "Notes"); ("author", Heap.VAtom "Anonymous")];
       [("meta", Heap.VRef 2); ("post_limit", Heap.VAtom "5");
        ("base", Heap.VRef 4)];
       [("url", Heap.VAtom "localhost")];
       []]
      (Heap.VRef 3).
Proof. reflexivity. Qed.


(** * Include markers after extraction *)

(** A replacement text that shares no character with [p] cannot begin
    an occurrence of [p]: a prefix of the replaced text is a prefix of
    the text. *)
Lemma prefix_replace_go_foreign (o t p s : string) :
  t <> EmptyString -> sep_free p t = true ->
  String.prefix p (PyStr.replace_go o t 0 s) = true -> String.prefix p s = true.
Proof.
  intros Ht. revert s.
  induction p as [|a p IH]; intros s Hf H; [apply prefix_nil|].
  cbn [sep_free] in Hf. apply andb_true_iff in Hf as [Ha Hf].
  destruct s as [|b s]; [discriminate H|].
  cbn [PyStr.replace_go] in H.
  destruct (String.prefix o (String b s)) eqn:E.
  - destruct t as [|t0 t]; [congruence|].
    cbn [append] in H. rewrite prefix_cons in H.
    apply andb_true_iff in H as [H _]. apply Ascii.eqb_eq in H. subst t0.
    cbn [char_free] in Ha. rewrite Ascii.eqb_refl in Ha. discriminate.
  - rewrite prefix_cons in H |- *. apply andb_true_iff in H as [H1 H2].
    rewrite H1. cbn [andb]. now apply IH.
Qed.

Lemma contains_foreign_app (a : ascii) (p t x : string) :
  char_free a t = true ->
  PyStr.contains (String a p) (t ++ x) = PyStr.contains (String a p) x.
Proof.
  induction t as [|b t IH]; intros H; [reflexivity|].
  cbn [char_free] in H. apply andb_true_iff in H as [Hb H].
  cbn [append]. rewrite contains_cons, prefix_cons.
  apply negb_true_iff in Hb. rewrite Ascii.eqb_sym in Hb. rewrite Hb.
  cbn [andb orb]. now apply IH.
Qed.

Lemma contains_nil_false (p : string) :
  p <> EmptyString -> PyStr.contains p EmptyString = false.
Proof. now destruct p. Qed.

(** Replacing by a text foreign to [m] creates no occurrence of [m]. *)
Lemma contains_replace_go_none (o t m : string) (skip : nat) (s : string) :
  t <> EmptyString -> sep_free m t = true ->
  PyStr.contains m s = false ->
  PyStr.contains m (PyStr.replace_go o t skip s) = false.
Proof.
  intros Ht Hf. revert skip. induction s as [|c s IH]; intros skip H.
  - destruct skip; exact H.
  - pose proof (contains_false_nonempty _ _ H) as Hm.
    apply contains_cons_false in H as [Hp Hc].
    destruct skip as [|k]; [|cbn [PyStr.replace_go]; now apply IH].
    destruct (String.prefix m (PyStr.replace_go o t 0 (String c s))) eqn:E.
    + apply prefix_replace_go_foreign in E; auto. congruence.
    + cbn [PyStr.replace_go] in *.
      destruct (String.prefix o (String c s)).
      * destruct m as [|a m]; [congruence|].
        cbn [sep_free] in Hf. apply andb_true_iff in Hf as [Ha Hf'].
        rewrite contains_foreign_app by exact Ha. now apply IH.
      * rewrite contains_cons, E. cbn [orb]. now apply IH.
Qed.

(** Replacing [o] by a text foreign to it leaves no occurrence of [o]. *)
Lemma contains_replace_go_self (o t : string) (skip : nat) (s : string) :
  o <> EmptyString -> t <> EmptyString -> sep_free o t = true ->
  PyStr.contains o (PyStr.replace_go o t skip s) = false.
Proof.
  intros Ho Ht Hf. revert skip. induction s as [|c s IH]; intros skip.
  - destruct skip; now apply contains_nil_false.
  - destruct skip as [|k]; [|cbn [PyStr.replace_go]; apply IH].
    destruct (String.prefix o (PyStr.replace_go o t 0 (String c s))) eqn:E.
    + pose proof E as E'. apply prefix_replace_go_foreign in E'; auto.
      cbn [PyStr.replace_go] in E. rewrite E' in E.
      destruct o as [|a o]; [congruence|]. destruct t as [|t0 t]; [congruence|].
      cbn [append] in E. rewrite prefix_cons in E.
      apply andb_true_iff in E as [E _]. apply Ascii.eqb_eq in E. subst t0.
      cbn [sep_free char_free] in Hf. rewrite Ascii.eqb_refl in Hf.
      discriminate.
    + cbn [PyStr.replace_go] in *.
      destruct (String.prefix o (String c s)).
      * destruct o as [|a o]; [congruence|].
        cbn [sep_free] in Hf. apply andb_true_iff in Hf as [Ha Hf'].
        rewrite contains_foreign_app by exact Ha. apply IH.
      * rewrite contains_cons, E. cbn [orb]. apply IH.
Qed.

Lemma replace_clears (old new s : string) :
  old <> EmptyString -> new <> EmptyString -> sep_free old new = true ->
  PyStr.contains old (PyStr.replace old new s) = false.
Proof.
  intros Ho Hn Hf. destruct old as [|c old]; [congruence|].
  now apply contains_replace_go_self.
Qed.

Lemma replace_keeps_clear (old new m s : string) :
  old <> EmptyString -> new <> EmptyString -> sep_free m new = true ->
  PyStr.contains m s = false ->
  PyStr.contains m (PyStr.replace old new s) = false.
Proof.
  intros Ho Hn Hf H. destruct old as [|c old]; [congruence|].
  now apply contains_replace_go_none.
Qed.

(** A block of [extract_include_directives] leaves neither of its two
    markers behind. *)
Lemma extract_include_clears (trim plain token kind : string)
      (cd : string * directives) :
  trim <> EmptyString -> plain <> EmptyString -> token <> EmptyString ->
  sep_free trim token = true -> sep_free plain token = true ->
  PyStr.contains trim (fst (extract_include trim plain token kind cd)) = false
  /\ PyStr.contains plain (fst (extract_include trim plain token kind cd))
     = false.
Proof.
  intros Ht Hp Hk Hft Hfp. destruct cd as [content d]. unfold extract_include.
  destruct (PyStr.contains trim content || PyStr.contains plain content) eqn:E.
  - cbn [fst]. split.
    + apply replace_keeps_clear; auto. now apply replace_clears.
    + now apply replace_clears.
  - apply orb_false_iff in E. exact E.
Qed.

(** A block creates no marker of another directive. *)
Lemma extract_include_keeps_clear (trim plain token kind m : string)
      (cd : string * directives) :
  trim <> EmptyString -> plain <> EmptyString -> token <> EmptyString ->
  sep_free m token = true ->
  PyStr.contains m (fst cd) = false ->
  PyStr.contains m (fst (extract_include trim plain token kind cd)) = false.
Proof.
  intros Ht Hp Hk Hf H. destruct cd as [content d]. unfold extract_include.
  destruct (PyStr.contains trim content || PyStr.contains plain content).
  - cbn [fst] in *. apply replace_keeps_clear; auto.
    now apply replace_keeps_clear.
  - exact H.
Qed.

Ltac marker_side := first [ reflexivity | intros Hside; discriminate Hside ].

(** X1. None of the six include markers occurs in the text that
    [extract_include_directives] returns: every marker has been replaced
    by its token, and no replacement creates a marker. *)
Theorem include_markers_all_replaced (content : string) :
  Forall (fun marker =>
            PyStr.contains marker (fst (extract_include_directives content))
            = false)
         include_markers.
Proof.
  unfold extract_include_directives, include_markers.
  set (e1 := extract_include INCLUDE_POSTS_TRIM INCLUDE_POSTS_PLAIN
                             PLACEHOLDER_POSTS "posts" (content, [])).
  set (e2 := extract_include INCLUDE_CATEGORY_TRIM INCLUDE_CATEGORY_PLAIN
                             PLACEHOLDER_CATEGORY "category" e1).
  destruct (extract_include_clears INCLUDE_POSTS_TRIM INCLUDE_POSTS_PLAIN
              PLACEHOLDER_POSTS "posts" (content, [])) as [P1 P2];
    try marker_side.
  destruct (extract_include_clears INCLUDE_CATEGORY_TRIM INCLUDE_CATEGORY_PLAIN
              PLACEHOLDER_CATEGORY "category" e1) as [C1 C2];
    try marker_side.
  destruct (extract_include_clears INCLUDE_ARCHIVE_TRIM INCLUDE_ARCHIVE_PLAIN
              PLACEHOLDER_ARCHIVE "archive" e2) as [A1 A2];
    try marker_side.
  subst e1 e2.
  repeat apply Forall_cons; try apply Forall_nil.
  - do 2 (apply extract_include_keeps_clear; [marker_side..|]). exact P1.
  - do 2 (apply extract_include_keeps_clear; [marker_side..|]). exact P2.
  - apply extract_include_keeps_clear; [marker_side..|]. exact C1.
  - apply extract_include_keeps_clear; [marker_side..|]. exact C2.
  - exact A1.
  - exact A2.
Qed.

(** * Diagram blocks: numbering, unterminated fences *)

Lemma save_mermaid_trace (ps : list (@piece string)) (st : list string) :
  snd (re_sub_pieces save_mermaid ps st) = (st ++ hits_of ps)%list
  /\ re_sub_trace save_mermaid ps st
     = map (fun i => blank ++ mermaid_placeholder i ++ blank)
           (seq (length st) (length (hits_of ps))).
Proof.
  revert st. induction ps as [|[c|g] ps IH]; intros st.
  - cbn. now rewrite app_nil_r.
  - cbn [re_sub_pieces re_sub_trace hits_of].
    destruct (IH st) as [IH1 IH2].
    destruct (re_sub_pieces save_mermaid ps st). cbn [snd] in *. now split.
  - cbn [re_sub_pieces re_sub_trace hits_of save_mermaid].
    destruct (IH (st ++ [g])%list) as [IH1 IH2].
    destruct (re_sub_pieces save_mermaid ps (st ++ [g])%list).
    cbn [snd] in *. rewrite IH1, IH2, <- app_assoc. split; [reflexivity|].
    rewrite List.length_app. cbn [length seq map].
    replace (length st + 1 - 1) with (length st) by lia.
    replace (length st + 1) with (S (length st)) by lia.
    reflexivity.
Qed.

(** X2. [extract_mermaid_blocks] stores the diagram bodies in the order
    the blocks are found, and the block found as number [i] (from 0) is
    replaced by the token [MERMAID_PLACEHOLDER_i] between blank lines. *)
Theorem mermaid_blocks_numbered_in_order (content : string) :
  snd (extract_mermaid_blocks content) = hits PATTERN_MERMAID_BLOCK content
  /\ mermaid_replacements content
     = map (fun i => blank ++ mermaid_placeholder i ++ blank)
           (seq 0 (length (snd (extract_mermaid_blocks content)))).
Proof.
  unfold extract_mermaid_blocks, mermaid_replacements, re_sub, hits.
  destruct (save_mermaid_trace (re_scan PATTERN_MERMAID_BLOCK 0 content) [])
    as [H1 H2].
  rewrite H1, H2. now split.
Qed.

Lemma prefix_app_l (a b s : string) :
  String.prefix (a ++ b) s = true -> String.prefix a s = true.
Proof.
  revert s. induction a as [|x a IH]; intros s H; [apply prefix_nil|].
  destruct s as [|y s]; [discriminate|].
  cbn [append] in H. rewrite prefix_cons in H |- *.
  apply andb_true_iff in H as [H1 H2]. rewrite H1. cbn [andb]. now apply IH.
Qed.

Lemma until_absent (p s : string) :
  PyStr.contains p s = false -> PyStr.until p s = None.
Proof.
  induction s as [|c s IH]; intros H; rewrite until_unfold.
  - cbn [PyStr.contains] in H. now rewrite H.
  - apply contains_cons_false in H as [Hp Hc]. rewrite Hp, IH by exact Hc.
    reflexivity.
Qed.

Lemma contains_prefix (p s : string) :
  String.prefix p s = true -> PyStr.contains p s = true.
Proof.
  destruct s as [|c s]; intros H; [exact H|].
  rewrite contains_cons, H. reflexivity.
Qed.

(** Without a fence there is no diagram block. *)
Lemma mermaid_search_absent (s : string) :
  PyStr.contains fence s = false ->
  re_search PATTERN_MERMAID_BLOCK s = false.
Proof.
  assert (Hm : forall s, PyStr.contains fence s = false ->
                         PATTERN_MERMAID_BLOCK s = None).
  { intros t H. unfold PATTERN_MERMAID_BLOCK.
    destruct (String.prefix (fence ++ "mermaid" ++ PyStr.nl) t) eqn:E;
      [|reflexivity].
    apply prefix_app_l, contains_prefix in E. congruence. }
  induction s as [|c s IH]; intros H.
  - cbn [re_search]. now rewrite Hm.
  - cbn [re_search]. rewrite Hm by exact H.
    apply contains_cons_false in H as [_ H]. now apply IH.
Qed.

Lemma mermaid_search_other (c : ascii) (s : string) :
  Ascii.eqb c "`"%char = false ->
  re_search PATTERN_MERMAID_BLOCK (String c s)
  = re_search PATTERN_MERMAID_BLOCK s.
Proof.
  intros H. cbn [re_search]. unfold PATTERN_MERMAID_BLOCK at 1.
  replace (String.prefix (fence ++ "mermaid" ++ PyStr.nl) (String c s))
    with false; [reflexivity|].
  symmetry. unfold fence. cbn [append]. rewrite prefix_cons.
  rewrite Ascii.eqb_sym, H. reflexivity.
Qed.

Lemma re_search_none_cons {G} (m : string -> option (G * nat))
      (c : ascii) (s : string) :
  m (String c s) = None -> re_search m (String c s) = re_search m s.
Proof. intros H. cbn [re_search]. now rewrite H. Qed.

Lemma mermaid_open_none (body : string) :
  PyStr.contains fence body = false ->
  PATTERN_MERMAID_BLOCK ((fence ++ "mermaid" ++ PyStr.nl) ++ body) = None.
Proof.
  intros Hc. unfold PATTERN_MERMAID_BLOCK. rewrite prefix_app.
  change (PyStr.drop 11 ((fence ++ "mermaid" ++ PyStr.nl) ++ body)) with body.
  now rewrite until_absent.
Qed.

Lemma mermaid_open_unclosed (body : string) :
  PyStr.contains fence body = false ->
  re_search PATTERN_MERMAID_BLOCK (fence ++ "mermaid" ++ PyStr.nl ++ body)
  = false.
Proof.
  intros Hc.
  change (fence ++ "mermaid" ++ PyStr.nl ++ body)
    with ("```mermaid" ++ String "010"%char body).
  cbn [append].
  rewrite re_search_none_cons; [|exact (mermaid_open_none body Hc)].
  rewrite !re_search_none_cons by reflexivity.
  now apply mermaid_search_absent.
Qed.

(** X3. An opening diagram fence that is never closed is no diagram
    block: the text passes through [extract_mermaid_blocks] unchanged and
    nothing is stored. *)
Theorem unterminated_mermaid_fence_kept (before body : string) :
  char_free "`"%char before = true ->
  PyStr.contains fence body = false ->
  extract_mermaid_blocks (before ++ fence ++ "mermaid" ++ PyStr.nl ++ body)
  = (before ++ fence ++ "mermaid" ++ PyStr.nl ++ body, []).
Proof.
  intros Hb Hc. unfold extract_mermaid_blocks. apply re_sub_absent.
  induction before as [|c before IH].
  - now apply mermaid_open_unclosed.
  - cbn [char_free] in Hb. apply andb_true_iff in Hb as [Hc' Hb].
    cbn [append]. rewrite mermaid_search_other by now apply negb_true_iff.
    now apply IH.
Qed.

Lemma unterminated_mermaid_fence_kept_witness :
  char_free "`"%char "Intro " = true
  /\ PyStr.contains fence "graph TD; A --> B" = false
  /\ extract_mermaid_blocks
       ("Intro " ++ fence ++ "mermaid" ++ PyStr.nl ++ "graph TD; A --> B")
     = ("Intro " ++ fence ++ "mermaid" ++ PyStr.nl ++ "graph TD; A --> B", []).
Proof.
  split; [reflexivity|]. split; [reflexivity|].
  apply (unterminated_mermaid_fence_kept "Intro " "graph TD; A --> B");
    reflexivity.
Defined.

(** X4. Every diagram block is also a fenced code block for the
    highlighter, with the language [mermaid], the same body and the same
    extent: only the order of the pipeline, extraction first, keeps a
    diagram away from the highlighter. *)
Theorem mermaid_block_is_code_block (s body : string) (n : nat) :
  PATTERN_MERMAID_BLOCK s = Some (body, n) ->
  PATTERN_CODE_BLOCK s = Some ((Some "mermaid", body), n).
Proof.
  unfold PATTERN_MERMAID_BLOCK.
  destruct (String.prefix (fence ++ "mermaid" ++ PyStr.nl) s) eqn:E;
    [|discriminate].
  apply prefix_split in E. intros H. rewrite E in H |- *.
  set (rest := PyStr.drop (String.length (fence ++ "mermaid" ++ PyStr.nl)) s)
    in *.
  clearbody rest. clear E.
  change (PyStr.drop 11 ((fence ++ "mermaid" ++ PyStr.nl) ++ rest))
    with rest in H.
  unfold PATTERN_CODE_BLOCK.
  change (String.prefix fence ((fence ++ "mermaid" ++ PyStr.nl) ++ rest))
    with true. cbv iota.
  change (PyStr.span PyStr.is_word
            (PyStr.drop 3 ((fence ++ "mermaid" ++ PyStr.nl) ++ rest)))
    with ("mermaid", String "010"%char rest). cbv iota beta.
  destruct (PyStr.until fence rest) as [b|]; [|discriminate].
  injection H as -> <-. reflexivity.
Qed.

Lemma mermaid_block_is_code_block_witness :
  PATTERN_MERMAID_BLOCK ("```mermaid" ++ PyStr.nl ++ "graph TD;```")
  = Some ("graph TD;", 23)
  /\ PATTERN_CODE_BLOCK ("```mermaid" ++ PyStr.nl ++ "graph TD;```")
     = Some ((Some "mermaid", "graph TD;"), 23).
Proof.
  split; [reflexivity|].
  apply (mermaid_block_is_code_block
           ("```mermaid" ++ PyStr.nl ++ "graph TD;```") "graph TD;" 23).
  reflexivity.
Defined.


(** * Whitespace removal *)

Lemma span_split (p : ascii -> bool) (s w r : string) :
  PyStr.span p s = (w, r) -> s = w ++ r /\ all_chars p w = true.
Proof.
  revert w r. induction s as [|c s IH]; intros w r H; cbn [PyStr.span] in H.
  - injection H as <- <-. now split.
  - destruct (p c) eqn:E.
    + destruct (PyStr.span p s) as [w' r'] eqn:Es.
      injection H as <- <-. destruct (IH w' r' eq_refl) as [-> Hw].
      cbn [append all_chars]. rewrite E. now split.
    + injection H as <- <-. now split.
Qed.

Lemma filter_chars_skip (p : ascii -> bool) (w r : string) :
  all_chars p w = true ->
  filter_chars (fun c => negb (p c)) (w ++ r)
  = filter_chars (fun c => negb (p c)) r.
Proof.
  induction w as [|c w IH]; intros H; [reflexivity|].
  cbn [all_chars] in H. apply andb_true_iff in H as [Hc H].
  cbn [append filter_chars]. rewrite Hc. cbn [negb]. now apply IH.
Qed.

Lemma whitespace_splice (n : nat) (s : string) :
  String.length s <= n ->
  splice (fun _ : unit => EmptyString) (re_scan PATTERN_WHITESPACE 0 s)
  = filter_chars (fun c => negb (is_space c)) s.
Proof.
  revert s. induction n as [|n IH]; intros s Hn.
  - destruct s; [reflexivity | cbn in Hn; lia].
  - destruct s as [|c s]; [reflexivity|].
    cbn [String.length] in Hn.
    cbn [re_scan]. unfold PATTERN_WHITESPACE. cbn [PyStr.span].
    destruct (is_space c) eqn:E.
    + destruct (PyStr.span is_space s) as [w r] eqn:Es.
      apply span_split in Es as [-> Hw].
      cbn [String.length]. replace (S (String.length w) - 1)
        with (String.length w) by lia.
      rewrite re_scan_skip. cbn [splice append filter_chars]. rewrite E.
      cbn [negb]. rewrite filter_chars_skip by exact Hw.
      apply IH. rewrite str_length_app in Hn. lia.
    + cbn [splice filter_chars]. rewrite E. cbn [negb].
      f_equal. apply IH. lia.
Qed.

Lemma filter_chars_idem (p : ascii -> bool) (s : string) :
  filter_chars p (filter_chars p s) = filter_chars p s.
Proof.
  induction s as [|c s IH]; [reflexivity|].
  cbn [filter_chars]. destruct (p c) eqn:E; [|exact IH].
  cbn [filter_chars]. rewrite E. now f_equal.
Qed.

Lemma filter_chars_all (p : ascii -> bool) (s : string) :
  all_chars p (filter_chars p s) = true.
Proof.
  induction s as [|c s IH]; [reflexivity|].
  cbn [filter_chars]. destruct (p c) eqn:E; [|exact IH].
  cbn [all_chars]. now rewrite E.
Qed.


(** * Stripping slashes and dashes *)

Lemma lstrip_head (c : ascii) (s : string) :
  String.prefix (String c EmptyString) (PyStr.lstrip c s) = false.
Proof.
  induction s as [|a s IH]; [reflexivity|].
  cbn [PyStr.lstrip]. destruct (Ascii.eqb a c) eqn:E; [exact IH|].
  rewrite prefix_cons, Ascii.eqb_sym, E. reflexivity.
Qed.

Lemma rstrip_head (c : ascii) (s : string) :
  String.prefix (String c EmptyString) s = false ->
  String.prefix (String c EmptyString) (PyStr.rstrip c s) = false.
Proof.
  destruct s as [|a s]; intros H; [reflexivity|].
  rewrite prefix_cons, prefix_nil, andb_true_r in H.
  cbn [PyStr.rstrip]. rewrite Ascii.eqb_sym, H. cbn [andb].
  now rewrite prefix_cons, H.
Qed.

Lemma lstrip_id (c : ascii) (s : string) :
  String.prefix (String c EmptyString) s = false -> PyStr.lstrip c s = s.
Proof.
  destruct s as [|a s]; intros H; [reflexivity|].
  rewrite prefix_cons, prefix_nil, andb_true_r in H.
  cbn [PyStr.lstrip]. now rewrite Ascii.eqb_sym, H.
Qed.

Lemma rstrip_id (c : ascii) (s : string) :
  last_char s <> Some c -> PyStr.rstrip c s = s.
Proof.
  induction s as [|a s IH]; intros H; [reflexivity|].
  rewrite last_char_cons in H. cbn [PyStr.rstrip].
  destruct s as [|b s].
  - cbn [PyStr.rstrip]. destruct (Ascii.eqb_spec a c); [congruence|].
    reflexivity.
  - rewrite IH by exact H.
    replace (String.eqb (String b s) EmptyString) with false by reflexivity.
    now rewrite andb_false_r.
Qed.

Lemma strip_edges (c : ascii) (s : string) :
  String.prefix (String c EmptyString) (PyStr.strip c s) = false
  /\ last_char (PyStr.strip c s) <> Some c.
Proof.
  unfold PyStr.strip. split.
  - apply rstrip_head, lstrip_head.
  - apply rstrip_last_char.
Qed.

Lemma strip_id (c : ascii) (s : string) :
  String.prefix (String c EmptyString) s = false ->
  last_char s <> Some c -> PyStr.strip c s = s.
Proof.
  intros H1 H2. unfold PyStr.strip. rewrite lstrip_id by exact H1.
  now apply rstrip_id.
Qed.

(** X6. [normalize_url_path] returns a path that neither begins nor
    ends with a slash, and it is idempotent: a normalized path is its own
    normal form. *)
Theorem normalize_url_path_normal_form (path : string) :
  String.prefix "/" (normalize_url_path path) = false
  /\ last_char (normalize_url_path path) <> Some "/"%char
  /\ normalize_url_path (normalize_url_path path) = normalize_url_path path.
Proof.
  unfold normalize_url_path.
  destruct (strip_edges "/"%char path) as [H1 H2].
  split; [exact H1|]. split; [exact H2|]. now apply strip_id.
Qed.


(** * Slugs *)

Lemma all_chars_app (p : ascii -> bool) (a b : string) :
  all_chars p (a ++ b) = all_chars p a && all_chars p b.
Proof.
  induction a as [|c a IH]; [reflexivity|].
  cbn [append all_chars]. now rewrite IH, andb_assoc.
Qed.

(** A replacement introduces the characters of the new text only. *)
Lemma all_chars_replace_go (p : ascii -> bool) (old new : string)
      (skip : nat) (s : string) :
  all_chars p new = true -> all_chars p s = true ->
  all_chars p (PyStr.replace_go old new skip s) = true.
Proof.
  intros Hn. revert skip. induction s as [|c s IH]; intros skip H.
  - now destruct skip.
  - cbn [all_chars] in H. apply andb_true_iff in H as [Hc H].
    destruct skip as [|k]; cbn [PyStr.replace_go]; [|now apply IH].
    destruct (String.prefix old (String c s)).
    + rewrite all_chars_app, Hn. now apply IH.
    + cbn [all_chars]. rewrite Hc. now apply IH.
Qed.

Lemma all_chars_lstrip (p : ascii -> bool) (c : ascii) (s : string) :
  all_chars p s = true -> all_chars p (PyStr.lstrip c s) = true.
Proof.
  induction s as [|a s IH]; intros H; [reflexivity|].
  cbn [PyStr.lstrip]. destruct (Ascii.eqb a c); [|exact H].
  cbn [all_chars] in H. apply andb_true_iff in H as [_ H]. now apply IH.
Qed.

Lemma all_chars_rstrip (p : ascii -> bool) (c : ascii) (s : string) :
  all_chars p s = true -> all_chars p (PyStr.rstrip c s) = true.
Proof.
  induction s as [|a s IH]; intros H; [reflexivity|].
  cbn [all_chars] in H. apply andb_true_iff in H as [Ha H].
  cbn [PyStr.rstrip].
  destruct (Ascii.eqb a c && String.eqb (PyStr.rstrip c s) EmptyString);
    [reflexivity|].
  cbn [all_chars]. rewrite Ha. now apply IH.
Qed.

(** Spaces become dashes: what is left is a dash or a character that was
    kept for being alphanumeric. *)
Lemma spaces_to_dashes (isalnum : ascii -> bool) (s : string) :
  all_chars (slug_char isalnum) s = true ->
  all_chars (fun c => (Ascii.eqb c "-"%char || isalnum c)
                      && negb (Ascii.eqb c " "%char))
            (PyStr.replace " " "-" s) = true.
Proof.
  unfold PyStr.replace. induction s as [|c s IH]; intros H; [reflexivity|].
  cbn [all_chars] in H. apply andb_true_iff in H as [Hc H].
  cbn [PyStr.replace_go String.length Nat.sub].
  rewrite prefix_cons, prefix_nil, andb_true_r.
  destruct (Ascii.eqb " " c) eqn:E.
  - cbn [append all_chars]. cbn [Ascii.eqb Bool.eqb andb orb negb].
    now apply IH.
  - cbn [all_chars]. rewrite IH by exact H. rewrite andb_true_r.
    rewrite Ascii.eqb_sym in E. rewrite E. cbn [negb]. rewrite andb_true_r.
    unfold slug_char in Hc. rewrite E, orb_false_r in Hc.
    now rewrite orb_comm.
Qed.

Lemma prefix_length (p s : string) :
  String.prefix p s = true -> String.length p <= String.length s.
Proof.
  revert s. induction p as [|a p IH]; intros s H; [cbn; lia|].
  destruct s as [|b s]; [discriminate|].
  rewrite prefix_cons in H. apply andb_true_iff in H as [_ H].
  apply IH in H. cbn [String.length]. lia.
Qed.

(** A replacement by a text that is not longer does not lengthen. *)
Lemma length_replace_go (old new : string) (skip : nat) (s : string) :
  String.length new <= String.length old ->
  String.length (PyStr.replace_go old new skip s) <= String.length s - skip.
Proof.
  intros Hl. revert skip. induction s as [|c s IH]; intros skip.
  - destruct skip; cbn; lia.
  - destruct skip as [|k]; cbn [PyStr.replace_go String.length].
    + destruct (String.prefix old (String c s)) eqn:E.
      * apply prefix_length in E. cbn [String.length] in E.
        rewrite str_length_app.
        specialize (IH (String.length old - 1)). lia.
      * cbn [String.length]. specialize (IH 0). lia.
    + specialize (IH k). lia.
Qed.

Lemma until_present (p s : string) :
  PyStr.contains p s = true -> exists a, PyStr.until p s = Some a.
Proof.
  induction s as [|c s IH]; intros H; rewrite until_unfold.
  - cbn [PyStr.contains] in H. rewrite H. now exists EmptyString.
  - rewrite contains_cons in H. destruct (String.prefix p (String c s)).
    + now exists EmptyString.
    + cbn [orb] in H. destruct (IH H) as [a ->]. now eexists.
Qed.

(** A round of the loop shortens the slug. *)
Lemma collapse_round_shortens (s : string) :
  PyStr.contains "--" s = true ->
  String.length (PyStr.replace "--" "-" s) < String.length s.
Proof.
  intros H. apply until_present in H as [a Ha].
  destruct (replace_until "--" "-" s a) as (b & -> & -> & _);
    [discriminate | exact Ha |].
  rewrite !str_length_app. cbn [String.length].
  pose proof (length_replace_go "--" "-" 0 b). cbn [String.length] in H.
  unfold PyStr.replace. lia.
Qed.

Lemma collapse_round_head (s : string) :
  String.prefix "-" s = false ->
  String.prefix "-" (PyStr.replace "--" "-" s) = false.
Proof.
  destruct s as [|c s]; intros H; [reflexivity|].
  unfold PyStr.replace. cbn [PyStr.replace_go].
  rewrite prefix_cons in H |- *.
  rewrite prefix_nil, andb_true_r in H. rewrite H. cbn [andb].
  now rewrite prefix_cons, H.
Qed.

Lemma last_char_app (a b : string) :
  b <> EmptyString -> last_char (a ++ b) = last_char b.
Proof.
  intros Hb. induction a as [|c a IH]; [reflexivity|].
  cbn [append]. rewrite last_char_cons, IH.
  destruct (a ++ b) eqn:E; [|reflexivity].
  destruct a; [cbn in E; congruence | discriminate].
Qed.

(** The last character, when it is no dash, survives a round, at every
    state of the scan: [skip] is 1 only in front of the second dash of
    a pair. *)
Lemma collapse_round_last_go (x : ascii) (skip : nat) (s : string) :
  x <> "-"%char ->
  skip = 0 \/ (skip = 1 /\ String.prefix "-" s = true) ->
  last_char s = Some x ->
  last_char (PyStr.replace_go "--" "-" skip s) = Some x.
Proof.
  intros Hx. revert skip. induction s as [|c s IH]; intros skip Hs H;
    [discriminate|].
  rewrite last_char_cons in H.
  destruct Hs as [-> | [-> Hp]]; cbn [PyStr.replace_go String.length Nat.sub].
  - destruct (String.prefix "--" (String c s)) eqn:E.
    + rewrite prefix_cons in E. apply andb_true_iff in E as [Ec Ep].
      destruct s as [|b s]; [discriminate|].
      assert (Hr := IH 1 (or_intror (conj eq_refl Ep)) H).
      rewrite last_char_app; [exact Hr|].
      intros E. rewrite E in Hr. discriminate.
    + destruct s as [|b s]; [exact H|].
      assert (Hr := IH 0 (or_introl eq_refl) H).
      rewrite last_char_cons, Hr.
      destruct (PyStr.replace_go "--" "-" 0 (String b s)); [discriminate|].
      reflexivity.
  - rewrite prefix_cons, prefix_nil, andb_true_r in Hp.
    apply Ascii.eqb_eq in Hp. subst c.
    destruct s as [|b s]; [congruence|].
    exact (IH 0 (or_introl eq_refl) H).
Qed.

Lemma collapse_round_last (s : string) :
  last_char s <> Some "-"%char ->
  last_char (PyStr.replace "--" "-" s) <> Some "-"%char.
Proof.
  intros H. destruct (last_char s) as [x|] eqn:E.
  - unfold PyStr.replace.
    rewrite (collapse_round_last_go x 0 s); auto; congruence.
  - destruct s as [|c s]; [cbn; discriminate|].
    rewrite last_char_cons in E. exfalso. clear H. revert c E.
    induction s as [|b s IH]; intros c E; [discriminate|].
    rewrite last_char_cons in E. now apply (IH b).
Qed.

Lemma contains_short (p s : string) :
  String.length s < String.length p -> PyStr.contains p s = false.
Proof.
  induction s as [|c s IH]; intros H.
  - destruct p; [cbn in H; lia | reflexivity].
  - rewrite contains_cons. cbn [String.length] in H.
    rewrite IH by lia. rewrite orb_false_r.
    destruct (String.prefix p (String c s)) eqn:E; [|reflexivity].
    apply prefix_length in E. cbn [String.length] in E. lia.
Qed.

(** The loop ends within [fuel] rounds when the slug is not longer than
    [fuel], and keeps what a round keeps. *)
Lemma collapse_dashes_spec (p : ascii -> bool) (fuel : nat) (s : string) :
  String.length s <= fuel ->
  p "-"%char = true -> all_chars p s = true ->
  String.prefix "-" s = false -> last_char s <> Some "-"%char ->
  exists slug,
    collapse_dashes fuel s = Some slug
    /\ PyStr.contains "--" slug = false
    /\ String.prefix "-" slug = false
    /\ last_char slug <> Some "-"%char
    /\ all_chars p slug = true.
Proof.
  intros Hl Hd. revert s Hl. induction fuel as [|fuel IH]; intros s Hl Ha Hh Ht.
  - destruct s; [|cbn in Hl; lia]. exists EmptyString. now repeat split.
  - cbn [collapse_dashes]. destruct (PyStr.contains "--" s) eqn:E.
    + apply IH.
      * apply collapse_round_shortens in E. lia.
      * apply all_chars_replace_go; [|exact Ha].
        cbn [all_chars]. now rewrite Hd.
      * now apply collapse_round_head.
      * now apply collapse_round_last.
    + exists s. now repeat split.
Qed.

Lemma all_chars_impl (p q : ascii -> bool) (s : string) :
  (forall c, p c = true -> q c = true) ->
  all_chars p s = true -> all_chars q s = true.
Proof.
  intros Hpq. induction s as [|c s IH]; intros H; [reflexivity|].
  cbn [all_chars] in *. apply andb_true_iff in H as [Hc H].
  rewrite (Hpq _ Hc). now apply IH.
Qed.

Section SlugFacts.
Variable lower : string -> string.
Variable isalnum : ascii -> bool.

(** X7. [slugify] returns, whatever the text: the loop over double
    dashes ends.  The slug has no two dashes in a row, neither begins nor
    ends with a dash, holds no space, and each of its characters is a
    dash or alphanumeric. *)
Theorem slugify_shape (text : string) :
  exists slug,
    slugify lower isalnum text = Some slug
    /\ PyStr.contains "--" slug = false
    /\ String.prefix "-" slug = false
    /\ last_char slug <> Some "-"%char
    /\ all_chars (fun c => (Ascii.eqb c "-"%char || isalnum c)
                           && negb (Ascii.eqb c " "%char)) slug = true.
Proof using Type.
  unfold slugify.
  destruct (strip_edges "-"%char
              (PyStr.replace " " "-"
                 (filter_chars (slug_char isalnum) (lower text))))
    as [Hh Ht].
  apply collapse_dashes_spec; auto.
  unfold PyStr.strip. apply all_chars_rstrip, all_chars_lstrip.
  apply spaces_to_dashes, filter_chars_all.
Qed.

End SlugFacts.

Example slugify_title :
  slugify lower_ascii isalnum_ascii " Hello,  World -- again! "
  = Some "hello-world-again".
Proof. reflexivity. Qed.


(** * Dates *)

Lemma split_cons (c a : ascii) (s : string) :
  PyStr.split c (String a s)
  = if Ascii.eqb a c then EmptyString :: PyStr.split c s
    else match PyStr.split c s with
         | x :: xs => String a x :: xs
         | [] => [String a EmptyString]
         end.
Proof. reflexivity. Qed.

(** [split] cuts at the first separator. *)
Lemma split_app (c : ascii) (a rest : string) :
  char_free c a = true ->
  PyStr.split c (a ++ String c rest) = a :: PyStr.split c rest.
Proof.
  induction a as [|x a IH]; intros H.
  - cbn [append]. rewrite split_cons, Ascii.eqb_refl. reflexivity.
  - cbn [char_free] in H. apply andb_true_iff in H as [Hx H].
    apply negb_true_iff in Hx.
    cbn [append]. rewrite split_cons, Hx, IH by exact H. reflexivity.
Qed.

Lemma split_free (c : ascii) (a : string) :
  char_free c a = true -> PyStr.split c a = [a].
Proof.
  induction a as [|x a IH]; intros H; [reflexivity|].
  cbn [char_free] in H. apply andb_true_iff in H as [Hx H].
  apply negb_true_iff in Hx. rewrite split_cons, Hx, IH by exact H.
  reflexivity.
Qed.

(** [sep.join(parts).split(sep)] gives the parts back when none holds
    the separator. *)
Lemma split_join (c : ascii) (parts : list string) :
  parts <> [] ->
  Forall (fun p => char_free c p = true) parts ->
  PyStr.split c (join (String c EmptyString) parts) = parts.
Proof.
  intros Hne H. induction H as [|p l Hp Hl IH]; [congruence|].
  destruct l as [|q l].
  - cbn [join]. now apply split_free.
  - change (join (String c EmptyString) (p :: q :: l))
      with (p ++ String c (join (String c EmptyString) (q :: l))).
    rewrite split_app by exact Hp. f_equal. now apply IH.
Qed.

(** The first part of a split is a prefix without the separator, the
    whole text or followed by the separator. *)
Lemma split_head (c : ascii) (s : string) :
  exists year parts rest,
    PyStr.split c s = year :: parts
    /\ s = year ++ rest
    /\ char_free c year = true
    /\ (rest = EmptyString \/ String.prefix (String c EmptyString) rest = true).
Proof.
  induction s as [|a s (year & parts & rest & Hs & -> & Hf & Hr)].
  - exists EmptyString, [], EmptyString. repeat split. now left.
  - rewrite split_cons. destruct (Ascii.eqb a c) eqn:E.
    + apply Ascii.eqb_eq in E. subst a.
      exists EmptyString, (year :: parts), (String c (year ++ rest)).
      rewrite Hs. repeat split. right.
      now rewrite prefix_cons, Ascii.eqb_refl, prefix_nil.
    + rewrite Hs. exists (String a year), parts, rest.
      repeat split; [|exact Hr]. cbn [char_free]. now rewrite E, Hf.
Qed.

(** X8. [extract_year] returns the text in front of the first dash: a
    prefix of the date string that holds no dash, and either the whole
    string or the part that a dash follows. *)
Theorem extract_year_is_first_field (date_str : string) :
  exists rest,
    date_str = extract_year date_str ++ rest
    /\ char_free "-"%char (extract_year date_str) = true
    /\ (rest = EmptyString \/ String.prefix "-" rest = true).
Proof.
  destruct date_str as [|a s].
  - exists EmptyString. repeat split. now left.
  - unfold extract_year.
    destruct (split_head "-"%char (String a s))
      as (year & parts & rest & -> & Hs & Hf & Hr).
    now exists rest.
Qed.

Lemma month_names_length (lang : string) : length (month_names lang) = 12.
Proof.
  unfold month_names, PyDict.get_default, MONTHS. cbn [PyDict.get].
  repeat match goal with
         | |- context [String.eqb ?a lang] => destruct (String.eqb a lang)
         end; reflexivity.
Qed.

(** An index from minus the length up to the length is read modulo the
    length. *)
Lemma py_index_wraps {A} (l : list A) (i : Z) (d : A) :
  (- Z.of_nat (length l) <= i < Z.of_nat (length l))%Z ->
  py_index l i = Some (nth (Z.to_nat (i mod Z.of_nat (length l))) l d).
Proof.
  intros Hi. unfold py_index.
  destruct (0 <=? i)%Z eqn:E0.
  - apply Z.leb_le in E0. rewrite Z.mod_small by lia.
    apply nth_error_nth'. lia.
  - apply Z.leb_gt in E0.
    replace (- Z.of_nat (length l) <=? i)%Z with true
      by (symmetry; apply Z.leb_le; lia).
    replace (i mod Z.of_nat (length l))%Z with (Z.of_nat (length l) + i)%Z.
    + apply nth_error_nth'. lia.
    + apply Z.mod_unique with (q := (-1)%Z); lia.
Qed.

Lemma py_index_out {A} (l : list A) (i : Z) :
  (i < - Z.of_nat (length l) \/ Z.of_nat (length l) <= i)%Z ->
  py_index l i = None.
Proof.
  intros Hi. unfold py_index.
  destruct (0 <=? i)%Z eqn:E0.
  - apply Z.leb_le in E0. apply nth_error_None. lia.
  - apply Z.leb_gt in E0.
    replace (- Z.of_nat (length l) <=? i)%Z with false; [reflexivity|].
    symmetry. apply Z.leb_gt. lia.
Qed.

Lemma join_two (sep x y : string) (l : list string) :
  join sep (x :: y :: l) = x ++ sep ++ join sep (y :: l).
Proof. reflexivity. Qed.

Section DateFacts.
Variable int : string -> option Z.

Lemma month_year_try_fields (year month : string) (tail : list string)
      (lang : string) :
  Forall (fun p => char_free "-"%char p = true) (year :: month :: tail) ->
  month_year_try int (join "-" (year :: month :: tail)) lang
  = match int month with
    | Some m =>
        match py_index (month_names lang) (m - 1) with
        | Some name => Some (name ++ " " ++ year)
        | None => None
        end
    | None => None
    end.
Proof using Type.
  intros H. unfold month_year_try.
  rewrite (split_join "-"%char) by (congruence || exact H). reflexivity.
Qed.

Lemma join_fields_nonempty (year month : string) (tail : list string) :
  join "-" (year :: month :: tail) <> EmptyString.
Proof using Type.
  rewrite join_two. destruct year; discriminate.
Qed.

(** X9. In a date string of dash-separated fields, [format_month_year]
    reads the month number modulo twelve for the numbers from -11 to 12:
    the numbers 1 to 12 give their month, and 0 gives the last month of
    the year (December), the index -1 counting from the end of the list.
    The names are those of the language, the English ones for a
    language that is not known. *)
Theorem format_month_year_wraps (year month : string) (tail : list string)
        (lang : string) (m : Z) :
  Forall (fun p => char_free "-"%char p = true) (year :: month :: tail) ->
  int month = Some m ->
  (-11 <= m <= 12)%Z ->
  format_month_year int (join "-" (year :: month :: tail)) lang
  = nth (Z.to_nat ((m - 1) mod 12)) (month_names lang) EmptyString
    ++ " " ++ year.
Proof using Type.
  intros Hf Hm Hr. unfold format_month_year.
  pose proof (join_fields_nonempty year month tail) as Hne.
  destruct (join "-" (year :: month :: tail)) eqn:E; [congruence|].
  rewrite <- E. rewrite month_year_try_fields by exact Hf. rewrite Hm.
  rewrite (py_index_wraps _ _ EmptyString);
    rewrite month_names_length; [reflexivity | lia].
Qed.

(** X10. [format_month_year] returns the date string itself when it has
    no dash, when the month field is no number, or when the month number
    is below -11 or above 12. *)
Theorem format_month_year_falls_back (date_str lang : string) :
  (char_free "-"%char date_str = true
   \/ exists year month tail,
        date_str = join "-" (year :: month :: tail)
        /\ Forall (fun p => char_free "-"%char p = true)
                  (year :: month :: tail)
        /\ match int month with
           | Some m => (m < -11 \/ 12 < m)%Z
           | None => True
           end) ->
  format_month_year int date_str lang = date_str.
Proof using Type.
  intros [H | (year & month & tail & -> & Hf & Hm)].
  - unfold format_month_year. destruct date_str as [|a s]; [reflexivity|].
    unfold month_year_try. rewrite split_free by exact H. reflexivity.
  - unfold format_month_year.
    destruct (join "-" (year :: month :: tail)) eqn:E; [reflexivity|].
    rewrite <- E. rewrite month_year_try_fields by exact Hf.
    destruct (int month) as [m|]; [|reflexivity].
    rewrite py_index_out; [reflexivity|]. rewrite month_names_length. lia.
Qed.

Lemma firstn_three_head (l : list string) (year month day : string) :
  firstn 3 l = [year; month; day] -> exists rest, l = year :: rest.
Proof using Type.
  destruct l as [|y l]; [discriminate|]. intros H. injection H as -> _.
  now eexists.
Qed.

(** X11. The full form of a date is its archive form followed by a comma
    and the year: whenever [format_date_full] does not return the date
    string itself, it returns the answer of [format_date_archive], then
    [", "], then the answer of [extract_year]; and when it returns the
    date string itself, so does [format_date_archive]. *)
Theorem format_date_full_extends_archive (date_str lang : string) :
  (format_date_archive int date_str lang = date_str
   /\ format_date_full int date_str lang = date_str)
  \/ format_date_full int date_str lang
     = format_date_archive int date_str lang ++ ", " ++ extract_year date_str.
Proof using Type.
  destruct date_str as [|a s]; [now left|].
  unfold format_date_archive, format_date_full, extract_year, date_try.
  destruct (3 <=? length (PyStr.split "-"%char (String a s)))%nat;
    [|now left].
  destruct (firstn 3 (PyStr.split "-"%char (String a s)))
    as [|year [|month [|day [|]]]] eqn:E; try (now left).
  destruct (firstn_three_head _ _ _ _ E) as [rest ->].
  destruct (int month) as [m|]; [|now left].
  destruct (int day) as [d|]; [|now left].
  destruct (py_index (month_names lang) (m - 1)) as [name|]; [|now left].
  right. now rewrite !append_assoc.
Qed.

End DateFacts.

Lemma format_month_year_wraps_witness :
  Forall (fun p => char_free "-"%char p = true) ["2024"; "00"; "15"]
  /\ int_digits "00" = Some 0%Z
  /\ (-11 <= 0 <= 12)%Z
  /\ format_month_year int_digits "2024-00-15" "en" = "Dec 2024".
Proof.
  split; [repeat constructor|]. split; [reflexivity|]. split; [lia|].
  apply (format_month_year_wraps int_digits "2024" "00" ["15"] "en" 0%Z);
    [repeat constructor | reflexivity | lia].
Defined.

Lemma format_month_year_falls_back_witness :
  (char_free "-"%char "2024-13" = true
   \/ exists year month tail,
        "2024-13" = join "-" (year :: month :: tail)
        /\ Forall (fun p => char_free "-"%char p = true)
                  (year :: month :: tail)
        /\ match int_digits month with
           | Some m => (m < -11 \/ 12 < m)%Z
           | None => True
           end)
  /\ format_month_year int_digits "2024-13" "en" = "2024-13".
Proof.
  assert (H : char_free "-"%char "2024-13" = true
              \/ exists year month tail,
                   "2024-13" = join "-" (year :: month :: tail)
                   /\ Forall (fun p => char_free "-"%char p = true)
                             (year :: month :: tail)
                   /\ match int_digits month with
                      | Some m => (m < -11 \/ 12 < m)%Z
                      | None => True
                      end).
  { right. exists "2024", "13", []. split; [reflexivity|].
    split; [repeat constructor|]. cbn. lia. }
  split; [exact H|].
  exact (format_month_year_falls_back int_digits "2024-13" "en" H).
Defined.

Example format_date_full_example :
  format_date_full int_digits "2025-11-07" "it" = "Nov 07, 2025"
  /\ format_date_archive int_digits "2025-11-07" "xx" = "Nov 07"
  /\ format_date_full int_digits "2025-11" "en" = "2025-11".
Proof. repeat split. Qed.


(** * Path rules *)

Lemma dict_get_absent {V} (d : PyDict.dict V) (k : string) :
  ~ In k (map fst d) -> PyDict.get d k = None.
Proof.
  induction d as [|[k0 v0] d IH]; intros H; [reflexivity|].
  cbn [PyDict.get]. destruct (String.eqb_spec k0 k) as [->|Hne].
  - exfalso. apply H. now left.
  - apply IH. intros Hin. apply H. now right.
Qed.

(** [d.update(other)] then [get]: the value of [other] when it has the
    key, else the value of [d]. *)
Lemma dict_get_update {V} (d other : PyDict.dict V) (k : string) :
  List.NoDup (map fst other) ->
  PyDict.get (PyDict.update d other) k
  = match PyDict.get other k with
    | Some v => Some v
    | None => PyDict.get d k
    end.
Proof.
  unfold PyDict.update. revert d.
  induction other as [|[k0 v0] other IH]; intros d H; [reflexivity|].
  cbn [map fst] in H. apply NoDup_cons_iff in H as [Hk H].
  cbn [fold_left fst snd PyDict.get]. rewrite IH by exact H.
  rewrite dict_get_set. destruct (String.eqb_spec k0 k) as [->|Hne].
  - now rewrite dict_get_absent.
  - reflexivity.
Qed.

Lemma apply_rule_get (file_path_str : string) (d : PyDict.dict bool)
      (rule : Rule) (key : string) :
  match features rule with
  | Some f => List.NoDup (map fst f)
  | None => True
  end ->
  PyDict.get (apply_rule file_path_str d rule) key
  = match rule_value file_path_str key rule with
    | Some v => Some v
    | None => PyDict.get d key
    end.
Proof.
  intros H. unfold apply_rule, rule_value.
  destruct (negb (String.eqb (scope_path rule) EmptyString)
            && PyStr.contains (scope_path rule) file_path_str);
    [|reflexivity].
  destruct (features rule) as [f|]; [|reflexivity].
  now apply dict_get_update.
Qed.

Lemma fold_rules_get (file_path_str key : string) (rs : list Rule)
      (d : PyDict.dict bool) :
  rules_well_formed rs ->
  PyDict.get (fold_left (apply_rule file_path_str) rs d) key
  = match last_rule_value rs file_path_str key with
    | Some v => Some v
    | None => PyDict.get d key
    end.
Proof.
  intros H. revert d. induction H as [|rule rs Hr Hrs IH]; intros d;
    [reflexivity|].
  cbn [fold_left]. rewrite IH. unfold last_rule_value. cbn [map last_some].
  fold (last_rule_value rs file_path_str key).
  destruct (last_rule_value rs file_path_str key); [reflexivity|].
  now apply apply_rule_get.
Qed.

(** X12. [_get_path_defaults] resolves every feature key by key: the
    value is the one given by the last rule of the configuration that
    applies to the file and names the key; without such a rule it is the
    initial default.  A rule applies when its scope path is not empty and
    occurs in the path of the file. *)
Theorem path_defaults_last_rule_wins (cfg : Config)
        (file_path_str key : string) :
  rules_well_formed (rules cfg) ->
  PyDict.get (_get_path_defaults cfg file_path_str) key
  = match last_rule_value (rules cfg) file_path_str key with
    | Some v => Some v
    | None => PyDict.get path_defaults_init key
    end.
Proof. intros H. unfold _get_path_defaults. now apply fold_rules_get. Qed.

Lemma rules_config_well_formed : rules_well_formed (rules rules_config).
Proof.
  repeat constructor; cbn; intuition discriminate.
Qed.

Lemma path_defaults_last_rule_wins_witness :
  rules_well_formed (rules rules_config)
  /\ PyDict.get (_get_path_defaults rules_config "content/docs/quiet-one.md")
                "comments"
     = Some false.
Proof.
  split; [exact rules_config_well_formed|].
  exact (path_defaults_last_rule_wins rules_config
           "content/docs/quiet-one.md" "comments" rules_config_well_formed).
Defined.

(** X13. A rule whose scope path is empty, or does not occur in the path
    of the file, or that has no [features], changes nothing: the path
    defaults are those of the configuration without the rule.  So a rule
    without a scope applies to no file, although the empty string occurs
    in every path. *)
Theorem rule_out_of_scope_ignored (cfg : Config) (before after : list Rule)
        (rule : Rule) (file_path_str : string) :
  scope_path rule = EmptyString
  \/ PyStr.contains (scope_path rule) file_path_str = false
  \/ features rule = None ->
  _get_path_defaults (with_rules cfg (before ++ rule :: after)) file_path_str
  = _get_path_defaults (with_rules cfg (before ++ after)) file_path_str.
Proof.
  intros H. unfold _get_path_defaults, with_rules. cbn [rules].
  rewrite !fold_left_app. cbn [fold_left]. f_equal.
  unfold apply_rule. destruct H as [-> | [-> | ->]].
  - reflexivity.
  - now rewrite andb_false_r.
  - now destruct (_ && _).
Qed.

Lemma rule_out_of_scope_ignored_witness :
  (scope_path unscoped_rule = EmptyString
   \/ PyStr.contains (scope_path unscoped_rule) "content/code/hello.md" = false
   \/ features unscoped_rule = None)
  /\ _get_path_defaults (with_rules empty_config ([] ++ unscoped_rule :: []))
                        "content/code/hello.md"
     = _get_path_defaults (with_rules empty_config ([] ++ []))
                          "content/code/hello.md".
Proof.
  split; [now left|].
  apply (rule_out_of_scope_ignored empty_config [] [] unscoped_rule
           "content/code/hello.md").
  now left.
Defined.

Section FlagTiers.
Variable Lexer : Type.
Variable get_lexer_by_name : string -> option Lexer.
Variable highlight : string -> Lexer -> option string.
Variable markdown : string -> string.

Abbreviation parse_file :=
  (parse_markdown_file Lexer get_lexer_by_name highlight markdown).

(** X14. [parse_markdown_file] resolves [comments], [mermaid], [codepen]
    and [banner] in three tiers: the value of the frontmatter when the
    key is there; else the value of the last rule that applies to the
    file and names the key; else [False]. *)
Theorem flags_resolved_in_three_tiers (cfg : Config) (file_path_str : string)
        (is_post : bool) (post : Post) :
  rules_well_formed (rules cfg) ->
  let rule_default key :=
    match last_rule_value (rules cfg) file_path_str key with
    | Some v => v
    | None => false
    end in
  let parsed := parse_file cfg file_path_str is_post (Some post) in
  option_map comments parsed
  = Some (fm_get (fm_comments post) (rule_default "comments"))
  /\ option_map mermaid parsed
     = Some (fm_get (fm_mermaid post) (rule_default "mermaid"))
  /\ option_map codepen parsed
     = Some (fm_get (fm_codepen post) (rule_default "codepen"))
  /\ option_map banner parsed
     = Some (fm_get (fm_banner post) (rule_default "banner")).
Proof using Type.
  intros H rule_default parsed. subst parsed rule_default.
  unfold parse_markdown_file.
  destruct (process_markdown_content _ _ _ _ _).
  cbn [option_map comments mermaid codepen banner].
  unfold PyDict.get_default. unfold _get_path_defaults.
  rewrite !fold_rules_get by exact H.
  repeat split; f_equal; f_equal;
    now destruct (last_rule_value (rules cfg) file_path_str _).
Qed.

End FlagTiers.

Lemma flags_resolved_in_three_tiers_witness :
  rules_well_formed (rules rules_config)
  /\ option_map comments
       (parse_markdown_file string lexer_of_name highlight_plain markdown_plain
          rules_config "content/docs/quiet-one.md" true
          (loaded_post (md_file "quiet-one" "Text")))
     = Some false
  /\ option_map banner
       (parse_markdown_file string lexer_of_name highlight_plain markdown_plain
          rules_config "content/docs/quiet-one.md" true
          (loaded_post (md_file "quiet-one" "Text")))
     = Some true.
Proof.
  split; [exact rules_config_well_formed|].
  destruct (flags_resolved_in_three_tiers string lexer_of_name highlight_plain
              markdown_plain rules_config "content/docs/quiet-one.md" true
              {| post_content := "Text"; fm_title := None; fm_date := None;
                 fm_comments := None; fm_mermaid := None; fm_codepen := None;
                 fm_toc := None; fm_banner := None; fm_sidebar := None |}
              rules_config_well_formed) as (Hc & _ & _ & Hb).
  split; [exact Hc | exact Hb].
Defined.


(** * Collected posts *)

Lemma dict_set_In {V} (d : PyDict.dict V) (k k' : string) (v v' : V) :
  In (k, v) (PyDict.set d k' v') -> (k = k' /\ v = v') \/ In (k, v) d.
Proof.
  induction d as [|[k0 v0] d IH]; cbn [PyDict.set]; intros H.
  - destruct H as [H|[]]. injection H as <- <-. now left.
  - destruct (String.eqb_spec k0 k') as [->|Hne].
    + destruct H as [H|H]; [injection H as <- <-; now left|].
      right. now right.
    + destruct H as [H|H]; [right; now left|].
      destruct (IH H) as [?|?]; [now left | right; now right].
Qed.

Lemma dict_get_In {V} (d : PyDict.dict V) (k : string) (v : V) :
  PyDict.get d k = Some v -> In (k, v) d.
Proof.
  induction d as [|[k0 v0] d IH]; cbn [PyDict.get]; intros H; [discriminate|].
  destruct (String.eqb_spec k0 k) as [->|Hne].
  - injection H as ->. now left.
  - right. now apply IH.
Qed.

Lemma init_posts_empty (cfg : Config) (name : string) (l : list PostData) :
  In (name, l) (init_posts cfg) -> l = [].
Proof.
  unfold init_posts.
  assert (G : forall (names : list string) (d : PyDict.dict (list PostData)),
             (forall k v, In (k, v) d -> v = []) ->
             forall k v,
               In (k, v) (fold_left (fun d name => PyDict.set d name []) names d)
               -> v = []).
  { induction names as [|n names IH]; intros d Hd k v H; [eauto|].
    cbn [fold_left] in H. apply IH in H; [exact H|].
    intros k' v' H'. apply dict_set_In in H' as [[_ ->]|H']; eauto. }
  destruct (sections cfg) as [|n names].
  - cbn. intros [H|[H|[H|[]]]]; now injection H.
  - apply G. intros k v [].
Qed.

Section Collected.
Variable prog : program.
Variable Lexer : Type.
Variable get_lexer_by_name : string -> option Lexer.
Variable highlight : string -> Lexer -> option string.
Variable markdown : string -> string.
Variable tree : string -> option (list MdFile).

Abbreviation from_tree := (from_tree prog tree).
Abbreviation store_from_tree := (store_from_tree prog tree).

Lemma store_append_from_tree (store : PyDict.dict (list PostData))
      (name : string) (p : PostData) :
  store_from_tree store -> from_tree name p ->
  store_from_tree (store_append store name p).
Proof using Type.
  intros Hs Hp k v H. unfold store_append in H.
  apply dict_set_In in H as [[-> ->]|H]; [|now apply Hs].
  apply Forall_app. split; [|now constructor].
  unfold PyDict.get_default.
  destruct (PyDict.get store name) as [old|] eqn:E; [|constructor].
  apply dict_get_In in E. now apply Hs.
Qed.

Lemma collect_files_from_tree (cfg : Config) (name : string)
      (all files : list MdFile) (store : PyDict.dict (list PostData)) :
  tree name = Some all -> (forall md, In md files -> In md all) ->
  store_from_tree store ->
  store_from_tree
    (collect_files prog Lexer get_lexer_by_name highlight markdown
                   cfg name files store).
Proof using Type.
  intros Ht. revert store.
  induction files as [|md files IH]; intros store Hin Hs; [exact Hs|].
  cbn [collect_files].
  destruct (parse_markdown_file _ _ _ _ _ _ _ _) as [post_data|] eqn:E.
  - apply IH; [intros; apply Hin; now right|].
    apply store_append_from_tree; [exact Hs|].
    exists all, md. split; [exact Ht|]. split; [apply Hin; now left|].
    unfold parse_markdown_file in E.
    destruct (loaded_post md) as [post|]; [|discriminate].
    split; [discriminate|].
    destruct (process_markdown_content _ _ _ _ _). injection E as <-.
    now repeat split.
  - apply IH; [intros; apply Hin; now right | exact Hs].
Qed.

Lemma collect_sections_from_tree (cfg : Config) (names : list string)
      (store : PyDict.dict (list PostData)) :
  store_from_tree store ->
  store_from_tree
    (collect_sections prog Lexer get_lexer_by_name highlight markdown
                      cfg tree names store).
Proof using Type.
  revert store. induction names as [|name names IH]; intros store Hs;
    [exact Hs|].
  cbn [collect_sections]. destruct (tree name) as [files|] eqn:E.
  - apply IH. now apply (collect_files_from_tree cfg name files files).
  - now apply IH.
Qed.

(** X15. After [collect_posts] on a new builder, every post stored under
    a collection carries the name of that collection, the url made of
    the root of the program, the collection and the stem of its file,
    and the path of its file; that file is in the directory of the
    collection and could be loaded. *)
Theorem collected_posts_carry_collection_and_url (b : SiteBuilder)
        (name : string) (l : list PostData) :
  posts b = init_posts (config b) ->
  In (name, l)
     (posts (collect_posts prog Lexer get_lexer_by_name highlight markdown
                           tree b)) ->
  Forall (fun p =>
            exists files md,
              tree name = Some files /\ In md files
              /\ loaded_post md <> None
              /\ post_of_file prog name md p) l.
Proof using Type.
  intros Hi H. cbn [collect_posts posts] in H.
  apply sort_store_In in H as (discovered & H & ->).
  assert (Hs : store_from_tree (posts b)).
  { intros k v Hk. rewrite Hi in Hk. apply init_posts_empty in Hk.
    subst v. constructor. }
  apply (collect_sections_from_tree (config b) (sections (config b))) in Hs.
  apply Hs in H. rewrite Forall_forall in H |- *.
  intros p Hp. apply H.
  now apply (Permutation_in _ (sort_by_date_desc_perm discovered)).
Qed.

End Collected.

Lemma collected_posts_carry_collection_and_url_witness :
  posts code_site = init_posts (config code_site)
  /\ exists l,
       In ("code", l)
          (posts (collect_posts Publish string lexer_of_name highlight_plain
                                markdown_plain code_tree code_site))
       /\ Forall (fun p =>
                    exists files md,
                      code_tree "code" = Some files /\ In md files
                      /\ loaded_post md <> None
                      /\ post_of_file Publish "code" md p) l.
Proof.
  split; [reflexivity|].
  assert (H : exists l,
             posts (collect_posts Publish string lexer_of_name highlight_plain
                                  markdown_plain code_tree code_site)
             = [("code", l)]) by (vm_compute; eexists; reflexivity).
  destruct H as [l Hl]. exists l.
  assert (Hin : In ("code", l)
                   (posts (collect_posts Publish string lexer_of_name
                             highlight_plain markdown_plain code_tree
                             code_site))) by (rewrite Hl; now left).
  split; [exact Hin|].
  exact (collected_posts_carry_collection_and_url Publish string lexer_of_name
           highlight_plain markdown_plain code_tree code_site "code" l
           eq_refl Hin).
Defined.

(** * Feed *)

Lemma sorted_app {A} (R : A -> A -> Prop) (a b : list A) :
  StronglySorted R (a ++ b) ->
  StronglySorted R a /\ forall x y, In x a -> In y b -> R x y.
Proof.
  induction a as [|z a IH]; cbn [app]; intros H.
  - split; [constructor | intros x y []].
  - apply StronglySorted_inv in H as [H Hz]. destruct (IH H) as [Ha Hab].
    rewrite Forall_forall in Hz. split.
    + constructor; [exact Ha|]. rewrite Forall_forall.
      intros x Hx. apply Hz. apply in_or_app. now left.
    + intros x y [<-|Hx] Hy; [|now apply Hab].
      apply Hz. apply in_or_app. now right.
Qed.


(** * Numbered shortcodes through the expander *)

Lemma contains_char_free (c : ascii) (p s : string) :
  char_free c s = true -> PyStr.contains (String c p) s = false.
Proof.
  induction s as [|a s IH]; intros H; [reflexivity|].
  cbn [char_free] in H. apply andb_true_iff in H as [Ha H].
  apply negb_true_iff in Ha.
  rewrite contains_cons, prefix_cons, Ascii.eqb_sym, Ha. now apply IH.
Qed.

Lemma all_chars_In (p : ascii -> bool) (s : string) :
  all_chars p s = true ->
  forall c, In c (list_ascii_of_string s) -> p c = true.
Proof.
  induction s as [|a s IH]; intros H c; [intros []|].
  cbn [all_chars] in H. apply andb_true_iff in H as [Ha H].
  intros [<-|Hc]; [exact Ha | now apply IH].
Qed.

Lemma char_free_app (c : ascii) (a b : string) :
  char_free c (a ++ b) = char_free c a && char_free c b.
Proof.
  induction a as [|x a IH]; [reflexivity|].
  cbn [append char_free]. now rewrite IH, andb_assoc.
Qed.

Lemma digits_char_free (c : ascii) (ds : string) :
  PyStr.is_digit c = false ->
  all_chars PyStr.is_digit ds = true -> char_free c ds = true.
Proof.
  intros Hc. induction ds as [|a ds IH]; intros H; [reflexivity|].
  cbn [all_chars] in H. apply andb_true_iff in H as [Ha H].
  cbn [char_free]. rewrite IH by exact H. rewrite andb_true_r.
  apply negb_true_iff. destruct (Ascii.eqb_spec a c); congruence.
Qed.

Lemma replace_whole (old new : string) :
  old <> EmptyString -> PyStr.replace old new old = new.
Proof.
  intros H. rewrite <- (append_nil_r old) at 2.
  rewrite replace_at_occurrence by exact H.
  now rewrite replace_nil, append_nil_r.
Qed.

Section ExampleDirective.
Variable render_template : string -> Context -> option string.

(** An example directive always renders: the expander cannot raise on
    it, the text before the first colon being [example]. *)
Lemma render_example_directive (b : SiteBuilder) (page_data : PostData)
      (rest : string) :
  render_directive render_template b page_data ("example:" ++ rest)
  = (page_data,
     Rendered (example_viewer (hd EmptyString (PyStr.split ":"%char rest)))).
Proof using Type.
  unfold render_directive.
  change (String.eqb ("example:" ++ rest) "posts") with false.
  change (String.eqb ("example:" ++ rest) "category") with false.
  change (String.eqb ("example:" ++ rest) "archive") with false.
  cbv iota. rewrite prefix_app.
  change ("example:" ++ rest) with ("example" ++ String ":"%char rest).
  rewrite split_app by reflexivity.
  destruct (PyStr.split ":"%char rest) as [|id tl] eqn:E; [|reflexivity].
  now apply split_not_nil in E.
Qed.

(** X17. A numbered shortcode makes the round trip from the protector to
    the expander: for a page whose mapping is the one
    [extract_example_shortcodes] builds from [[example:ID]] and whose
    content is the token in its paragraph, the expander returns the
    viewer element that carries the same id, and it does not raise. *)
Theorem example_shortcode_round_trip (b : SiteBuilder) (page_data : PostData)
        (ds : string) :
  ds <> EmptyString ->
  all_chars PyStr.is_digit ds = true ->
  include_directives page_data
  = snd (extract_example_shortcodes ("[example:" ++ ds ++ "]") []) ->
  content page_data = paragraph (example_placeholder ds) ->
  _process_include_directives render_template b page_data
  = (page_data, Some (example_viewer ds)).
Proof using Type.
  intros Hne Hd Hm Hc.
  pose proof (extract_example_at_shortcode ds EmptyString [] Hne
                (all_chars_In _ _ Hd)) as He.
  change ("[example:" ++ ds ++ "]")
    with ("[example:" ++ ds ++ "]" ++ EmptyString) in Hm.
  rewrite He in Hm.
  change (include_directives page_data
          = [(example_placeholder ds, "example:" ++ ds)]) in Hm.
  unfold _process_include_directives. rewrite Hm, Hc.
  cbn [expand_items]. rewrite render_example_directive.
  rewrite split_free by (apply digits_char_free; [reflexivity | exact Hd]).
  cbn [hd expand_items]. do 2 f_equal. unfold substitute.
  rewrite replace_whole by discriminate.
  apply replace_absent. unfold example_placeholder.
  apply contains_char_free. unfold example_viewer.
  rewrite !char_free_app.
  rewrite (digits_char_free "E"%char ds) by (reflexivity || exact Hd).
  reflexivity.
Qed.

End ExampleDirective.

Lemma example_shortcode_round_trip_witness :
  "7" <> EmptyString
  /\ all_chars PyStr.is_digit "7" = true
  /\ _process_include_directives render_fixed empty_site
       (set_url
          {| content := "<p>EXAMPLE_PLACEHOLDER_7</p>"; title := EmptyString;
             date := EmptyString; comments := false; mermaid := false;
             codepen := false; toc := false; banner := false; sidebar := true;
             url := EmptyString; file_path := EmptyString;
             include_directives := [("EXAMPLE_PLACEHOLDER_7", "example:7")];
             collection := None; section := None |} "demo/")
     = (set_url
          {| content := "<p>EXAMPLE_PLACEHOLDER_7</p>"; title := EmptyString;
             date := EmptyString; comments := false; mermaid := false;
             codepen := false; toc := false; banner := false; sidebar := true;
             url := EmptyString; file_path := EmptyString;
             include_directives := [("EXAMPLE_PLACEHOLDER_7", "example:7")];
             collection := None; section := None |} "demo/",
        Some (example_viewer "7")).
Proof.
  split; [discriminate|]. split; [reflexivity|].
  apply (example_shortcode_round_trip render_fixed empty_site _ "7");
    [discriminate | reflexivity | reflexivity | reflexivity].
Defined.


(** * Output paths *)

Lemma rstrip_app_sep (c : ascii) (x : string) :
  PyStr.rstrip c (x ++ String c EmptyString) = PyStr.rstrip c x.
Proof.
  induction x as [|a x IH].
  - cbn. now rewrite Ascii.eqb_refl.
  - cbn [append PyStr.rstrip]. now rewrite IH.
Qed.

Lemma lstrip_cons_sep (c : ascii) (x : string) :
  PyStr.lstrip c (String c x) = PyStr.lstrip c x.
Proof. cbn [PyStr.lstrip]. now rewrite Ascii.eqb_refl. Qed.

Lemma prefix_app_nonempty (p : ascii) (a b : string) :
  a <> EmptyString -> String.prefix (String p EmptyString) (a ++ b)
                      = String.prefix (String p EmptyString) a.
Proof.
  destruct a as [|x a]; [congruence|]. intros _.
  cbn [append]. now rewrite !prefix_cons, !prefix_nil.
Qed.

(** X18. Both programs write a post to the same directory: the url of
    the post of a file differs by the leading slash, and the output
    path [build] computes from it is the name of the collection, a
    slash, and the stem of the file. *)
Theorem post_output_path_is_collection_and_stem (prog : program)
        (name : string) (md : MdFile) (p : PostData) (i : nat) :
  post_of_file prog name md p ->
  name <> EmptyString -> String.prefix "/" name = false ->
  stem md <> EmptyString -> last_char (stem md) <> Some "/"%char ->
  output_path_of (PostAt name i) p = name ++ "/" ++ stem md.
Proof.
  intros (_ & Hu & _) Hn Hp Hs Hl. cbn [output_path_of].
  rewrite Hu. unfold normalize_url_path, PyStr.strip.
  assert (E : PyStr.lstrip "/"%char
                (url_root prog ++ name ++ "/" ++ stem md ++ "/")
              = (name ++ "/" ++ stem md) ++ "/").
  { rewrite !append_assoc.
    assert (G : PyStr.lstrip "/"%char (name ++ "/" ++ stem md ++ "/")
                = name ++ "/" ++ stem md ++ "/").
    { apply lstrip_id. now rewrite prefix_app_nonempty. }
    destruct prog; cbn [url_root append]; [exact G|].
    now rewrite lstrip_cons_sep. }
  rewrite E, rstrip_app_sep. apply rstrip_id.
  rewrite last_char_app.
  - rewrite last_char_app by exact Hs. exact Hl.
  - discriminate.
Qed.

Lemma post_output_path_is_collection_and_stem_witness :
  post_of_file Codecraft "code"
    {| stem := "hello"; path_str := EmptyString; loaded_post := None |}
    (set_collection (set_url (dated "2024-01-01") "/code/hello/") "code")
  /\ "code" <> EmptyString /\ String.prefix "/" "code" = false
  /\ "hello" <> EmptyString
  /\ last_char "hello" <> Some "/"%char
  /\ output_path_of (PostAt "code" 0)
       (set_collection (set_url (dated "2024-01-01") "/code/hello/") "code")
     = "code/hello".
Proof.
  assert (H : post_of_file Codecraft "code"
                {| stem := "hello"; path_str := EmptyString;
                   loaded_post := None |}
                (set_collection (set_url (dated "2024-01-01") "/code/hello/")
                                "code")) by (now repeat split).
  split; [exact H|].
  split; [discriminate|]. split; [reflexivity|]. split; [discriminate|].
  split; [discriminate|].
  apply (post_output_path_is_collection_and_stem Codecraft "code" _ _ 0 H);
    discriminate || reflexivity.
Defined.

(** * The rendering loops *)

Lemma same_urls_trans (b1 b2 b3 : SiteBuilder) :
  same_urls b1 b2 -> same_urls b2 b3 -> same_urls b1 b3.
Proof.
  intros [H1 L1] [H2 L2]. split; [|congruence].
  intros pl. now rewrite H2, H1.
Qed.

Lemma path_at_same_urls (b b' : SiteBuilder) (pl : place) :
  same_urls b b' -> path_at b' pl = path_at b pl.
Proof.
  intros [H _]. specialize (H pl). unfold path_at.
  destruct (place_get b' pl) as [p'|], (place_get b pl) as [p|];
    try discriminate; [|reflexivity].
  injection H as H. destruct pl; cbn [output_path_of]; now rewrite H.
Qed.

Lemma lookup_insert_url (l : list PostData) (i j : nat) (p p' : PostData) :
  l !! i = Some p -> url p' = url p ->
  option_map url (<[i := p']> l !! j) = option_map url (l !! j).
Proof.
  intros Hl Hu. destruct (Nat.eq_dec i j) as [<-|Hne].
  - rewrite list_lookup_insert_eq by now apply lookup_lt_Some in Hl.
    rewrite Hl. cbn. now f_equal.
  - now rewrite list_lookup_insert_ne.
Qed.

Lemma place_set_same_urls (b : SiteBuilder) (pl : place) (p p' : PostData) :
  place_get b pl = Some p -> url p' = url p ->
  same_urls b (place_set b pl p').
Proof.
  intros Hg Hu. split.
  - intros pl'. destruct pl as [name i|i]; cbn [place_get place_set] in *.
    + destruct (PyDict.get (posts b) name) as [l|] eqn:El; [|discriminate].
      destruct pl' as [name' i'|i']; cbn [place_get posts pages];
        [|reflexivity].
      rewrite dict_get_set.
      destruct (String.eqb_spec name name') as [<-|Hne]; [|reflexivity].
      rewrite El. now apply (lookup_insert_url l i i' p p').
    + destruct pl' as [name' i'|i']; cbn [place_get posts pages];
        [reflexivity|].
      now apply (lookup_insert_url (pages b) i i' p p').
  - destruct pl; cbn [place_set pages]; [reflexivity|].
    apply length_insert.
Qed.

Section RenderFacts.
Variable render_template : string -> Context -> option string.
Variable main_template : option (PageContext -> option string).

Lemma render_page_frame (b b' : SiteBuilder) (pl : place)
      (output_path : string) (file : string * string) :
  render_page render_template main_template b pl output_path
  = Some (b', file) ->
  fst file = output_path /\ same_urls b b'.
Proof using Type.
  unfold render_page. destruct main_template as [template|]; [|discriminate].
  destruct (place_get b pl) as [page_data|] eqn:Eg; [|discriminate].
  pose proof (expand_items_frame render_template b
                (include_directives page_data) page_data (content page_data))
    as F.
  unfold _process_include_directives.
  destruct (expand_items render_template b (include_directives page_data)
                         page_data (content page_data))
    as [page_data1 [expanded|]]; [|discriminate].
  cbn [fst] in F.
  destruct (template _) as [html|]; [|discriminate].
  intros H. injection H as <- <-. split; [reflexivity|].
  apply (place_set_same_urls b pl page_data); [exact Eg|].
  cbn [set_content url]. unfold same_but_section in F. tauto.
Qed.

Lemma render_places_paths (places : list place) (b b' : SiteBuilder)
      (written written' : list (string * string)) :
  render_places render_template main_template b places written
  = Built b' written' ->
  map fst written' = (map fst written ++ map (path_at b) places)%list
  /\ same_urls b b'.
Proof using Type.
  revert b written. induction places as [|pl places IH]; intros b written H.
  - cbn in H. injection H as <- <-. rewrite app_nil_r.
    split; [reflexivity|]. now split.
  - cbn [render_places] in H.
    destruct (place_get b pl) as [page_data|] eqn:Eg; [|discriminate].
    destruct (render_page _ _ b pl _) as [[b1 file]|] eqn:Er; [|discriminate].
    apply render_page_frame in Er as [Ef Hs].
    apply IH in H as [Hw Hs']. split.
    + rewrite Hw, map_app, <- app_assoc. cbn [map app]. f_equal.
      rewrite Ef. unfold path_at at 2. rewrite Eg. f_equal.
      apply map_ext. intros pl'. now apply path_at_same_urls.
    + now apply (same_urls_trans b b1 b').
Qed.

End RenderFacts.

Lemma map_lookup_seq {A B} (G : option A -> B) (l : list A) :
  map (fun i => G (l !! i)) (seq 0 (length l)) = map (fun x => G (Some x)) l.
Proof.
  induction l as [|x l IH]; [reflexivity|].
  cbn [length seq map]. f_equal. rewrite <- seq_shift, map_map. exact IH.
Qed.

Lemma dict_get_NoDup {V} (d : PyDict.dict V) (k : string) (v : V) :
  List.NoDup (map fst d) -> In (k, v) d -> PyDict.get d k = Some v.
Proof.
  induction d as [|[k0 v0] d IH]; intros Hn H; [destruct H|].
  cbn [map fst] in Hn. apply NoDup_cons_iff in Hn as [Hk Hn].
  cbn [PyDict.get]. destruct H as [H|H].
  - injection H as -> ->. now rewrite String.eqb_refl.
  - destruct (String.eqb_spec k0 k) as [->|Hne]; [|now apply IH].
    exfalso. apply Hk. apply in_map_iff. now exists (k, v).
Qed.

Lemma post_places_paths (b : SiteBuilder) :
  List.NoDup (map fst (posts b)) ->
  map (path_at b) (post_places (posts b))
  = map (fun p => normalize_url_path (url p)) (concat (map snd (posts b))).
Proof.
  intros Hn.
  assert (G : forall d,
             (forall k l, In (k, l) d -> PyDict.get (posts b) k = Some l) ->
             map (path_at b) (post_places d)
             = map (fun p => normalize_url_path (url p))
                   (concat (map snd d))).
  { induction d as [|[k l] d IH]; intros Hd; [reflexivity|].
    cbn [post_places flat_map map concat fst snd].
    rewrite !map_app. f_equal.
    - rewrite map_map. unfold path_at. cbn [place_get].
      rewrite (Hd k l) by now left.
      apply (map_lookup_seq
               (fun o => match o with
                         | Some p => normalize_url_path (url p)
                         | None => EmptyString
                         end) l).
    - apply IH. intros k' l' H. apply Hd. now right. }
  apply G. intros k l H. now apply dict_get_NoDup.
Qed.

Lemma page_places_paths (b : SiteBuilder) :
  map (path_at b) (page_places (pages b))
  = map (fun p => if String.eqb (url p) "/" then EmptyString
                  else normalize_url_path (url p)) (pages b).
Proof.
  unfold page_places. rewrite map_map. unfold path_at. cbn [place_get].
  apply (map_lookup_seq
           (fun o => match o with
                     | Some p => if String.eqb (url p) "/" then EmptyString
                                 else normalize_url_path (url p)
                     | None => EmptyString
                     end) (pages b)).
Qed.

Lemma total_posts_length (b : SiteBuilder) :
  total_posts b = length (concat (map snd (posts b))).
Proof.
  unfold total_posts. rewrite length_concat, map_map. reflexivity.
Qed.

Section Site.
Variable render_template : string -> Context -> option string.
Variable main_template : option (PageContext -> option string).

(** X19. When the rendering loops of [build] run to their end, they
    have written one file for every post and then one for every page, in
    the order of the collections and of the lists: the file of a post
    under its normalized url, the file of a page under its normalized
    url, the home page, whose url is the slash, at the root.  Rendering
    changes no url. *)
Theorem render_site_writes_one_file_per_record (b b' : SiteBuilder)
        (written : list (string * string)) :
  List.NoDup (map fst (posts b)) ->
  render_site render_template main_template b = Built b' written ->
  map fst written
  = (map (fun p => normalize_url_path (url p)) (concat (map snd (posts b)))
     ++ map (fun p => if String.eqb (url p) "/" then EmptyString
                      else normalize_url_path (url p)) (pages b))%list
  /\ forall pl, option_map url (place_get b' pl)
                = option_map url (place_get b pl).
Proof using Type.
  intros Hn. unfold render_site.
  assert (H1 : forall b1 w1,
             (if (0 <? total_posts b)%nat
              then render_places render_template main_template b
                                 (post_places (posts b)) []
              else Built b []) = Built b1 w1 ->
             map fst w1
             = map (fun p => normalize_url_path (url p))
                   (concat (map snd (posts b)))
             /\ same_urls b b1).
  { intros b1 w1 H. destruct (0 <? total_posts b)%nat eqn:E.
    - apply render_places_paths in H as [Hw Hs]. split; [|exact Hs].
      rewrite Hw. cbn [map app]. now apply post_places_paths.
    - injection H as <- <-. apply Nat.ltb_ge in E.
      rewrite total_posts_length in E.
      destruct (concat (map snd (posts b))); [|cbn in E; lia].
      split; [reflexivity|]. now split. }
  destruct (if (0 <? total_posts b)%nat then _ else _) as [b1 w1|w1];
    [|discriminate].
  destruct (H1 b1 w1 eq_refl) as [Hw1 Hs1]. intros H.
  apply render_places_paths in H as [Hw Hs]. split.
  - rewrite Hw, Hw1. f_equal. rewrite <- page_places_paths.
    unfold page_places. rewrite (proj2 Hs1).
    apply map_ext. intros pl. now apply path_at_same_urls.
  - intros pl. destruct Hs as [Hs _], Hs1 as [Hs1 _]. now rewrite Hs, Hs1.
Qed.

End Site.

Lemma render_site_writes_one_file_per_record_witness :
  List.NoDup (map fst (posts small_site))
  /\ exists b' written,
       render_site render_fixed main_plain small_site = Built b' written
       /\ map fst written = ["code/hello"; EmptyString].
Proof.
  assert (Hn : List.NoDup (map fst (posts small_site))).
  { repeat constructor. intros []. }
  split; [exact Hn|].
  destruct (render_site render_fixed main_plain small_site)
    as [b' written|written] eqn:E; [|discriminate E].
  exists b', written. split; [reflexivity|].
  exact (proj1 (render_site_writes_one_file_per_record render_fixed main_plain
                  small_site b' written Hn E)).
Defined.


(** * Defaults without data *)

Module DefaultsFacts.
Import Heap Defaults.

Lemma dict_get_snoc {V} (d : PyDict.dict V) (k k' : string) (v : V) :
  PyDict.get (d ++ [(k, v)])%list k'
  = match PyDict.get d k' with
    | Some x => Some x
    | None => if String.eqb k k' then Some v else None
    end.
Proof.
  induction d as [|[k0 v0] d IH]; cbn [app PyDict.get].
  - now destruct (String.eqb k k').
  - destruct (String.eqb k0 k'); [reflexivity | exact IH].
Qed.

Lemma stable_rep_step (n : nat) (h h2 : heap) (v : value) (t : tree) :
  stable_rep n h v t -> length h <= length h2 ->
  (forall l', n <= l' < length h -> h2 !! l' = h !! l') ->
  stable_rep n h2 v t.
Proof.
  intros S L A h'' H. apply S. intros l' Hl.
  rewrite H by lia. now apply A.
Qed.

Lemma merged_so_far_step (n : nat) (h h2 : heap)
      (done : list (string * tree)) (o : object) :
  merged_so_far n h done o -> length h <= length h2 ->
  (forall l', n <= l' < length h -> h2 !! l' = h !! l') ->
  merged_so_far n h2 done o.
Proof.
  intros M L A k. specialize (M k).
  destruct (PyDict.get done k) as [[a|sub]|]; [exact M | | exact M].
  destruct M as (lk & Hk & S). exists lk. split; [exact Hk|].
  now apply (stable_rep_step n h h2).
Qed.

(** The entry [(k, x)] joins the entries merged so far. *)
Lemma merged_so_far_snoc (n : nat) (h : heap) (done : list (string * tree))
      (o : object) (k : string) (val : tree) (x : value) :
  merged_so_far n h done o ->
  PyDict.get done k = None ->
  match val with
  | TAtom a => x = VAtom a
  | TDict sub => exists lk, x = VRef lk /\ stable_rep n h (VRef lk) (TDict sub)
  end ->
  merged_so_far n h (done ++ [(k, val)])%list (PyDict.set o k x).
Proof.
  intros M Hd Hx k'. specialize (M k').
  rewrite dict_get_snoc, dict_get_set.
  destruct (String.eqb_spec k k') as [<-|Hne].
  - rewrite Hd in M |- *. destruct val as [a|sub].
    + now subst x.
    + destruct Hx as (lk & -> & S). now exists lk.
  - destruct (PyDict.get done k') as [[a|sub]|]; exact M.
Qed.

Lemma represents_dict (n : nat) (h h'' : heap) (l : nat)
      (items : list (string * tree)) (o : object) :
  h !! l = Some o -> merged_so_far n h items o ->
  h'' !! l = h !! l ->
  (forall l', n <= l' < length h -> h'' !! l' = h !! l') ->
  represents h'' (VRef l) (TDict items).
Proof.
  intros Hl M El A [|k rest].
  - cbn. now exists l.
  - cbn [tree_lookup lookup_path]. rewrite El, Hl. specialize (M k).
    destruct (PyDict.get items k) as [[a|sub]|].
    + rewrite M. destruct rest; reflexivity.
    + destruct M as (lk & -> & S). now apply S.
    + now rewrite M.
Qed.

Lemma merge_items_fresh (l n : nat) (rest : list (string * tree)) :
  Forall (fun kv => wf_tree (snd kv) -> fresh_merge (snd kv)) rest ->
  Forall (fun kv => wf_tree (snd kv)) rest ->
  forall (done : list (string * tree)) (h : heap) (o : object),
    List.NoDup (map fst (done ++ rest)) ->
    l < n -> n <= length h ->
    h !! l = Some o -> merged_so_far n h done o ->
    exists h' o',
      merge_items (fun h' node sub => deep_merge h' node sub) (VRef l) rest h
      = Ret h' tt
      /\ length h <= length h'
      /\ (forall l', l' < length h -> l' <> l -> h' !! l' = h !! l')
      /\ h' !! l = Some o'
      /\ merged_so_far n h' (done ++ rest) o'.
Proof.
  intros HP. induction HP as [|[k val] rest Hval _ IH];
    intros Hwf done h o Hn Hl Hh Ho M.
  - exists h, o. rewrite app_nil_r. now repeat split.
  - apply Forall_cons_iff in Hwf as [Hw Hwf]. cbn [snd] in *.
    assert (Hd : PyDict.get done k = None).
    { apply dict_get_absent. intros Hin.
      rewrite map_app in Hn. cbn [map fst] in Hn.
      apply NoDup_remove_2 in Hn. apply Hn. apply in_or_app. now left. }
    assert (Hk : PyDict.get o k = None).
    { specialize (M k). now rewrite Hd in M. }
    assert (Hn' : List.NoDup (map fst ((done ++ [(k, val)]) ++ rest)))
      by now rewrite <- app_assoc.
    pose proof (lookup_lt_Some _ _ _ Ho) as Hlt.
    cbn [merge_items]. destruct val as [a|sub].
    + unfold setdefault. rewrite Ho, Hk.
      destruct (IH Hwf (done ++ [(k, TAtom a)])%list
                   (<[l := PyDict.set o k (VAtom a)]> h)
                   (PyDict.set o k (VAtom a)))
        as (h' & o' & Hr & Hlen & Hf & Ho' & M'); auto.
      * now rewrite length_insert.
      * now apply list_lookup_insert_eq.
      * apply (merged_so_far_step n h); [|now rewrite length_insert|].
        -- now apply merged_so_far_snoc.
        -- intros l' Hl'. apply list_lookup_insert_ne. lia.
      * exists h', o'. rewrite length_insert in Hlen, Hf.
        rewrite <- app_assoc in M'. split; [exact Hr|].
        split; [exact Hlen|]. split; [|now split].
        intros l' H1 H2. rewrite Hf by assumption.
        now apply list_lookup_insert_ne.
    + unfold setdefault.
      assert (Ha : (h ++ [[]])%list !! l = Some o)
        by now apply lookup_app_l_Some.
      rewrite Ha, Hk.
      set (h1 := <[l := PyDict.set o k (VRef (length h))]> (h ++ [[]])%list).
      assert (L1 : length h1 = S (length h)).
      { unfold h1. rewrite length_insert, List.length_app. cbn. lia. }
      assert (E1 : h1 !! length h = Some []).
      { unfold h1. rewrite list_lookup_insert_ne by lia.
        now apply list_lookup_middle. }
      destruct (Hval Hw h1 (length h) E1) as (h2 & Hr2 & Hlen2 & Hf2 & S2).
      rewrite Hr2.
      assert (A2 : forall l', l' < length h -> l' <> l -> h2 !! l' = h !! l').
      { intros l' H1 H2. rewrite Hf2 by lia. unfold h1.
        rewrite list_lookup_insert_ne by lia. now apply lookup_app_l. }
      assert (O2 : h2 !! l = Some (PyDict.set o k (VRef (length h)))).
      { rewrite Hf2 by lia. unfold h1. apply list_lookup_insert_eq.
        rewrite List.length_app. cbn. lia. }
      destruct (IH Hwf (done ++ [(k, TDict sub)])%list h2
                   (PyDict.set o k (VRef (length h))))
        as (h' & o' & Hr & Hlen & Hf & Ho' & M'); auto; try lia.
      * apply merged_so_far_snoc; [|exact Hd|].
        -- apply (merged_so_far_step n h); [exact M | lia |].
           intros l' Hl'. apply A2; lia.
        -- exists (length h). split; [reflexivity|].
           intros h'' H. apply S2.
           ++ apply H. lia.
           ++ intros l' Hl'. apply H. lia.
      * exists h', o'. rewrite <- app_assoc in M'. split; [exact Hr|].
        split; [lia|]. split; [|now split].
        intros l' H1 H2. rewrite Hf by lia. now apply A2.
Qed.

Lemma deep_merge_fresh (t : tree) : wf_tree t -> fresh_merge t.
Proof.
  induction t as [a|items IH] using HeapFacts.tree_induction;
    intros Hw h l Hl; [exact I|].
  inversion Hw as [|items' Hn Hwf]; subst items'.
  pose proof (lookup_lt_Some _ _ _ Hl) as Hlt.
  destruct (merge_items_fresh l (length h) items) with (done := @nil (string * tree))
                                                       (h := h) (o := @nil (string * value))
    as (h' & o' & Hr & Hlen & Hf & Ho' & M'); auto.
  - intros k. reflexivity.
  - exists h'. cbn [deep_merge]. split; [exact Hr|]. split; [exact Hlen|].
    split; [exact Hf|]. intros h'' E A.
    now apply (represents_dict (length h) h' h'' l items o').
Qed.

End DefaultsFacts.

(** X20. Without data ([None], or an empty dict), [apply_defaults]
    returns a new dict that is a copy of the defaults: whatever path
    leads to a scalar in the defaults leads to the same scalar in the
    result, a path to a dict leads to a dict, and a path that leads
    nowhere in the defaults leads nowhere in the result.  The call does
    not raise and leaves every object of the heap as it was. *)
Theorem apply_defaults_without_data_copies_defaults (fuel : nat)
        (h : list (list (string * Heap.value))) (data : option nat)
        (items : list (string * Heap.tree)) :
  Heap.truthy h data = false ->
  Defaults.wf_tree (Heap.TDict items) ->
  exists h',
    Heap.apply_defaults fuel h data (Heap.TDict items)
    = Heap.Ret h' (Heap.VRef (length h))
    /\ (forall l, l < length h -> h' !! l = h !! l)
    /\ forall path,
         match Defaults.tree_lookup (Heap.TDict items) path with
         | Some (Heap.TAtom a) =>
             Heap.lookup_path h' (Heap.VRef (length h)) path
             = Some (Heap.VAtom a)
         | Some (Heap.TDict _) =>
             exists l, Heap.lookup_path h' (Heap.VRef (length h)) path
                       = Some (Heap.VRef l)
         | None => Heap.lookup_path h' (Heap.VRef (length h)) path = None
         end.
Proof.
  intros Ht Hw. unfold Heap.apply_defaults. rewrite Ht.
  assert (E : (h ++ [[]])%list !! length h = Some [])
    by now apply list_lookup_middle.
  destruct (DefaultsFacts.deep_merge_fresh (Heap.TDict items) Hw
              (h ++ [[]])%list (length h) E) as (h' & Hr & Hlen & Hf & S).
  exists h'. rewrite Hr. split; [reflexivity|]. split.
  - intros l Hl. rewrite Hf.
    + now apply lookup_app_l.
    + rewrite List.length_app. cbn. lia.
    + lia.
  - intros path. apply (S h'); auto.
Qed.

Lemma apply_defaults_without_data_copies_defaults_witness :
  Heap.truthy [] None = false
  /\ Defaults.wf_tree default_tree
  /\ exists h',
       Heap.apply_defaults 0 [] None default_tree = Heap.Ret h' (Heap.VRef 0)
       /\ Heap.lookup_path h' (Heap.VRef 0) ["base"; "url"]
          = Some (Heap.VAtom "localhost").
Proof.
  assert (Hw : Defaults.wf_tree default_tree).
  { unfold default_tree.
    repeat first [ apply Defaults.wf_dict | apply Defaults.wf_atom
                 | apply Forall_cons | apply Forall_nil
                 | apply List.NoDup_cons | apply List.NoDup_nil
                 | (cbn; intuition discriminate) ]. }
  split; [reflexivity|]. split; [exact Hw|].
  destruct (apply_defaults_without_data_copies_defaults 0 [] None _
              eq_refl Hw) as (h' & Hr & _ & Hp).
  exists h'. split; [exact Hr|]. exact (Hp ["base"; "url"]).
Defined.


(** * Inline code tags *)

Lemma add_inline_code_classes_splice (content_html : string) :
  add_inline_code_classes content_html
  = splice (fun _ : unit => INLINE_CODE_TAG)
           (re_scan PATTERN_INLINE_CODE 0 content_html).
Proof.
  unfold add_inline_code_classes, re_sub.
  apply (re_sub_pieces_splice (fun _ : unit => INLINE_CODE_TAG)
                              (fun _ (_ : unit) => tt)).
Qed.

(** A text without [<] that begins the tagged text begins the text: the
    tag begins with [<]. *)
Lemma prefix_tagged (p s : string) :
  char_free "<"%char p = true ->
  String.prefix p (splice (fun _ : unit => INLINE_CODE_TAG)
                          (re_scan PATTERN_INLINE_CODE 0 s)) = true ->
  String.prefix p s = true.
Proof.
  revert s. induction p as [|a p IH]; intros s Hf H; [apply prefix_nil|].
  cbn [char_free] in Hf. apply andb_true_iff in Hf as [Ha Hf].
  destruct s as [|c s]; [discriminate H|].
  cbn [re_scan] in H. destruct (PATTERN_INLINE_CODE (String c s)) as [[g n]|].
  - cbn [splice] in H.
    change (INLINE_CODE_TAG ++ ?x)
      with (String "<"%char
              (PyStr.drop 1 INLINE_CODE_TAG ++ x)) in H.
    rewrite prefix_cons in H. apply andb_true_iff in H as [H _].
    apply Ascii.eqb_eq in H. subst a. discriminate Ha.
  - cbn [splice] in H. rewrite prefix_cons in H |- *.
    apply andb_true_iff in H as [H1 H2]. rewrite H1. cbn [andb].
    now apply IH.
Qed.

Lemma inline_pattern_none (s : string) :
  PATTERN_INLINE_CODE s = None ->
  String.prefix "<code>" s = true ->
  String.prefix "</code>" (PyStr.drop 6 s) = true.
Proof.
  unfold PATTERN_INLINE_CODE. intros H Hp. rewrite Hp in H. cbn [andb] in H.
  destruct (String.prefix "</code>" (PyStr.drop 6 s)); [reflexivity|].
  discriminate.
Qed.

Lemma inline_pattern_empty_element (rest : string) :
  PATTERN_INLINE_CODE ("<code>" ++ "</code>" ++ rest) = None.
Proof.
  unfold PATTERN_INLINE_CODE.
  change (PyStr.drop 6 ("<code>" ++ "</code>" ++ rest))
    with ("</code>" ++ rest).
  now rewrite !prefix_app.
Qed.

(** An empty code element is copied. *)
Lemma scan_empty_element (rest : string) :
  splice (fun _ : unit => INLINE_CODE_TAG)
         (re_scan PATTERN_INLINE_CODE 0 ("<code>" ++ "</code>" ++ rest))
  = "<code>" ++ "</code>"
    ++ splice (fun _ : unit => INLINE_CODE_TAG)
              (re_scan PATTERN_INLINE_CODE 0 rest).
Proof.
  pose proof (inline_pattern_empty_element rest) as H0.
  cbn [append] in H0 |- *. rewrite re_scan_other by exact H0.
  rewrite !re_scan_other by reflexivity. reflexivity.
Qed.

(** Where the text has no tag to mark, the tagged text has none. *)
Lemma inline_pattern_tagged (s : string) :
  PATTERN_INLINE_CODE s = None ->
  PATTERN_INLINE_CODE (splice (fun _ : unit => INLINE_CODE_TAG)
                              (re_scan PATTERN_INLINE_CODE 0 s)) = None.
Proof.
  intros Hm.
  destruct (String.prefix "<code>"
              (splice (fun _ : unit => INLINE_CODE_TAG)
                      (re_scan PATTERN_INLINE_CODE 0 s))) eqn:E;
    [|unfold PATTERN_INLINE_CODE at 1; now rewrite E].
  assert (Hp : String.prefix "<code>" s = true).
  { destruct s as [|c s]; [discriminate E|].
    rewrite re_scan_other in E by exact Hm. cbn [splice] in E.
    rewrite prefix_cons in E |- *. apply andb_true_iff in E as [E1 E2].
    rewrite E1. cbn [andb]. now apply prefix_tagged in E2. }
  pose proof (inline_pattern_none s Hm Hp) as Hc.
  apply prefix_split in Hp. apply prefix_split in Hc.
  cbn [String.length] in Hp, Hc. rewrite Hc in Hp. rewrite Hp.
  rewrite scan_empty_element. apply inline_pattern_empty_element.
Qed.

Lemma inline_search_tagged (skip : nat) (s : string) :
  re_search PATTERN_INLINE_CODE
            (splice (fun _ : unit => INLINE_CODE_TAG)
                    (re_scan PATTERN_INLINE_CODE skip s)) = false.
Proof.
  revert skip. induction s as [|c s IH]; intros skip.
  - destruct skip; reflexivity.
  - destruct skip as [|k]; [|cbn [re_scan]; apply IH].
    destruct (PATTERN_INLINE_CODE (String c s)) as [[g n]|] eqn:Em.
    + cbn [re_scan]. rewrite Em. cbn [splice].
      unfold INLINE_CODE_TAG at 1.
      unfold CSS_CLASS_LANGUAGE_PLAINTEXT, PyStr.dq. cbn [append].
      rewrite !re_search_none_cons by reflexivity. apply IH.
    + pose proof (inline_pattern_tagged _ Em) as Ho.
      rewrite re_scan_other in Ho |- * by exact Em. cbn [splice] in Ho |- *.
      rewrite re_search_none_cons by exact Ho. apply IH.
Qed.

(** X21. [add_inline_code_classes] leaves no opening code tag to mark:
    in its result every [<code>] without class is the opening tag of an
    empty element.  So the function is idempotent, a second pass changes
    nothing. *)
Theorem add_inline_code_classes_idempotent (content_html : string) :
  re_search PATTERN_INLINE_CODE (add_inline_code_classes content_html) = false
  /\ add_inline_code_classes (add_inline_code_classes content_html)
     = add_inline_code_classes content_html.
Proof.
  assert (H : re_search PATTERN_INLINE_CODE
                        (add_inline_code_classes content_html) = false).
  { rewrite add_inline_code_classes_splice. apply inline_search_tagged. }
  split; [exact H|].
  unfold add_inline_code_classes at 1. now rewrite re_sub_absent.
Qed.

(** * Collected pages *)

Section Pages.
Variable prog : program.
Variable Lexer : Type.
Variable get_lexer_by_name : string -> option Lexer.
Variable highlight : string -> Lexer -> option string.
Variable markdown : string -> string.

Lemma collect_page_files_spec (cfg : Config) (all files : list MdFile)
      (acc : list PostData) :
  (forall md, In md files -> In md all) ->
  Forall (fun p => exists md, In md all /\ loaded_post md <> None
                              /\ page_of_file prog md p) acc ->
  Forall (fun p => exists md, In md all /\ loaded_post md <> None
                              /\ page_of_file prog md p)
         (collect_page_files prog Lexer get_lexer_by_name highlight markdown
                             cfg files acc).
Proof using Type.
  revert acc. induction files as [|md files IH]; intros acc Hin Ha;
    [exact Ha|].
  cbn [collect_page_files].
  destruct (parse_markdown_file _ _ _ _ _ _ _ _) as [page_data|] eqn:E.
  - apply IH; [intros; apply Hin; now right|].
    apply Forall_app. split; [exact Ha|]. constructor; [|constructor].
    exists md. split; [apply Hin; now left|].
    unfold parse_markdown_file in E.
    destruct (loaded_post md) as [post|]; [|discriminate].
    split; [discriminate|].
    destruct (process_markdown_content _ _ _ _ _). injection E as <-.
    destruct (String.eqb_spec (stem md) "home") as [Hs|Hs].
    + split; [reflexivity|]. left. now repeat split.
    + split; [reflexivity|]. right. now repeat split.
  - apply IH; [intros; apply Hin; now right | exact Ha].
Qed.

(** X22. [collect_pages] on a builder without pages makes every page
    from a file of the sections directory that could be loaded: the file
    named [home] gives the page at the url [/], without section; any
    other file gives the page at the url made of the root of the program
    and the stem, with the stem as its section.  Files that cannot be
    loaded give no page, and a missing directory leaves the builder as
    it is. *)
Theorem collected_pages_carry_url_and_section (b : SiteBuilder)
        (sections_dir : option (list MdFile)) :
  pages b = [] ->
  match sections_dir with
  | None =>
      collect_pages prog Lexer get_lexer_by_name highlight markdown None b = b
  | Some files =>
      Forall (fun p => exists md, In md files /\ loaded_post md <> None
                                  /\ page_of_file prog md p)
             (pages (collect_pages prog Lexer get_lexer_by_name highlight
                                   markdown (Some files) b))
      /\ length (pages (collect_pages prog Lexer get_lexer_by_name highlight
                                      markdown (Some files) b))
         = length (List.filter (fun md => match loaded_post md with
                                          | Some _ => true
                                          | None => false
                                          end) files)
  end.
Proof using Type.
  intros Hb. destruct sections_dir as [files|]; [|reflexivity].
  cbn [collect_pages pages]. rewrite Hb. split.
  - apply (collect_page_files_spec (config b) files files); auto.
  - assert (G : forall acc,
               length (collect_page_files prog Lexer get_lexer_by_name
                         highlight markdown (config b) files acc)
               = length acc
                 + length (List.filter
                             (fun md => match loaded_post md with
                                        | Some _ => true
                                        | None => false
                                        end) files)).
    { induction files as [|md files IH]; intros acc; [cbn; lia|].
      cbn [collect_page_files List.filter]. unfold parse_markdown_file.
      destruct (loaded_post md) as [post|].
      - destruct (process_markdown_content _ _ _ _ _). rewrite IH.
        rewrite List.length_app. cbn [length]. lia.
      - apply IH. }
    apply G.
Qed.

End Pages.

Lemma collected_pages_carry_url_and_section_witness :
  pages empty_site = []
  /\ Forall (fun p => exists md,
               In md [md_file "home" "Welcome"; md_file "about" "About us"]
               /\ loaded_post md <> None
               /\ page_of_file Codecraft md p)
            (pages_of Codecraft
               [md_file "home" "Welcome"; md_file "about" "About us"]).
Proof.
  split; [reflexivity|].
  exact (proj1 (collected_pages_carry_url_and_section Codecraft string
                  lexer_of_name highlight_plain markdown_plain empty_site
                  (Some [md_file "home" "Welcome"; md_file "about" "About us"])
                  eq_refl)).
Defined.
